(** * Order store, pricing engine and tool surface of the pizza chatbot

    A shallow embedding of [db.py], [menu.py], the tool functions of
    [agent.py] and [money] of [app.py], followed by the properties of the
    order lifecycle.

    Modelling conventions
    - A Python [str] is a Rocq [string] whose characters are the code points
      U+0000..U+00FF; [strip] and [lower] follow CPython on that range.
      [set_order_status_text] takes texts that may also hold lone
      surrogates, which [sqlite3] cannot bind.
    - A Python [int] is a [Z].  SQLite INTEGER columns are [Z] as well; the
      64-bit limit of a stored integer and of a rowid is not modelled.
    - A Python [float] is a binary64 value, a [spec_float] with precision 53
      and [emax] 1024.
    - [utc_now_iso ()] reads an oracle clock held in the world; a call
      advances it by one tick.
    - The [sqlite3] connection keeps the tables as last committed next to
      the tables as the connection sees them; a statement that fails is
      undone by SQLite alone, earlier statements of the open transaction
      are not. *)

From Stdlib Require Import ZArith List String Ascii Bool Lia.
From Stdlib Require Import QArith Qabs Qpower Lqa.
From Stdlib Require Import SpecFloat.
From Stdlib Require Import Sorted Permutation.
From Stdlib Require DecimalString DecimalZ DecimalPos.
Import ListNotations.

Local Open Scope string_scope.
Local Open Scope list_scope.
Local Open Scope Z_scope.

(** ** Exceptions and results *)

Inductive exn : Type :=
| ValueError (msg : string)
| OverflowError (msg : string)
| IntegrityError (msg : string)
| UnicodeEncodeError (start : nat).

Inductive result (A : Type) : Type :=
| Ok (a : A)
| Raise (e : exn).

Arguments Ok {A} a.
Arguments Raise {A} e.

(** Error kinds of the specification (section 7). *)
Inductive ErrorKind : Type :=
| ValidationError
| NotFoundError
| OtherError.

(** Modelled from the spec: the error kinds are names of the
    specification; [ValueError] is what the tool surface raises on bad
    input, the foreign-key failure of the storage layer is the
    "referenced id absent" kind. *)
Definition error_kind (e : exn) : ErrorKind :=
  match e with
  | ValueError _ => ValidationError
  | IntegrityError "FOREIGN KEY constraint failed" => NotFoundError
  | _ => OtherError
  end.

(** ** Python strings *)

Module PyStr.

(** [str.isspace] on one code point below 256. *)
Definition is_space (c : ascii) : bool :=
  let n := N_of_ascii c in
  (((9 <=? n) && (n <=? 13)) || ((28 <=? n) && (n <=? 32))
   || (n =? 133) || (n =? 160))%N.

(** A..Z and the capital letters of U+00C0..U+00DE, the sign U+00D7
    excepted. *)
Definition is_upper (c : ascii) : bool :=
  let n := N_of_ascii c in
  (((65 <=? n) && (n <=? 90))
   || ((192 <=? n) && (n <=? 222) && negb (n =? 215)))%N.

Definition lower_char (c : ascii) : ascii :=
  if is_upper c then ascii_of_N (N_of_ascii c + 32) else c.

(** The small letters whose capital is again below 256. *)
Definition has_upper (c : ascii) : bool :=
  let n := N_of_ascii c in
  (((97 <=? n) && (n <=? 122))
   || ((224 <=? n) && (n <=? 254) && negb (n =? 247)))%N.

Definition upper_char (c : ascii) : ascii :=
  if has_upper c then ascii_of_N (N_of_ascii c - 32) else c.

Fixpoint lower (s : string) : string :=
  match s with
  | EmptyString => EmptyString
  | String c r => String (lower_char c) (lower r)
  end.

Fixpoint upper (s : string) : string :=
  match s with
  | EmptyString => EmptyString
  | String c r => String (upper_char c) (upper r)
  end.

Fixpoint lstrip (s : string) : string :=
  match s with
  | EmptyString => EmptyString
  | String c r => if is_space c then lstrip r else s
  end.

Fixpoint rstrip (s : string) : string :=
  match s with
  | EmptyString => EmptyString
  | String c r =>
      match rstrip r with
      | EmptyString => if is_space c then EmptyString else String c EmptyString
      | r' => String c r'
      end
  end.

Definition strip (s : string) : string := rstrip (lstrip s).

(** Truth value of a string: the empty string is false. *)
Definition truthy (s : string) : bool :=
  match s with EmptyString => false | _ => true end.

(** Every character is white space. *)
Fixpoint all_space (s : string) : bool :=
  match s with
  | EmptyString => true
  | String c r => is_space c && all_space r
  end.

(** One character in the other case, when it has one below 256. *)
Definition swap_char (c : ascii) : ascii :=
  if is_upper c then lower_char c else upper_char c.

(** [recase mask s] changes the case of the characters of [s] that
    [mask] selects. *)
Fixpoint recase (mask : list bool) (s : string) : string :=
  match s, mask with
  | EmptyString, _ => EmptyString
  | String c r, [] => s
  | String c r, b :: mask' =>
      String (if b then swap_char c else c) (recase mask' r)
  end.

End PyStr.

(** ** Text that [sqlite3] cannot bind *)

Module PyText.

(** A code point of a [str] handed to the store: a character of the model
    of [PyStr], or a lone surrogate, U+D800 + [offset] with [offset] below
    2048.  A tool argument or a form field can hold one: the JSON text
    ["\ud800"] decodes to a [str] of one surrogate. *)
Inductive code_point : Type :=
| Char (c : ascii)
| Surrogate (offset : N).

Definition text : Type := list code_point.

(** The texts of the model of [PyStr]. *)
Definition of_string (s : string) : text := map Char (list_ascii_of_string s).

(** [s.encode("utf-8")], as [sqlite3] encodes a [str] parameter when it
    binds it: the characters, or [UnicodeEncodeError] at the position of
    the first surrogate. *)
Fixpoint encode_from (k : nat) (t : text) : result string :=
  match t with
  | [] => Ok EmptyString
  | Char c :: r =>
      match encode_from (S k) r with
      | Ok s => Ok (String c s)
      | Raise e => Raise e
      end
  | Surrogate _ :: _ => Raise (UnicodeEncodeError k)
  end.

Definition encode (t : text) : result string := encode_from 0 t.

(** A parameter that is a [str] or [None]. *)
Definition encode_opt (t : option text) : result (option string) :=
  match t with
  | None => Ok None
  | Some t =>
      match encode t with
      | Ok s => Ok (Some s)
      | Raise e => Raise e
      end
  end.

End PyText.

(** ** Python floats *)

Module PyFloat.

Definition prec : Z := 53.
Definition emax : Z := 1024.

Definition float : Type := spec_float.

Definition is_finite (x : float) : bool :=
  match x with
  | S754_zero _ | S754_finite _ _ _ => true
  | _ => false
  end.

(** [float(n)] of an [int], as in [int * float]: correctly rounded, ties
    to even; a result outside the finite range raises. *)
Definition of_int (n : Z) : result float :=
  match binary_normalize prec emax n 0 false with
  | S754_infinity _ => Raise (OverflowError "int too large to convert to float")
  | x => Ok x
  end.

Definition mul (x y : float) : float := SFmul prec emax x y.

(** The integer nearest to [m * 2^e], ties to the even one, [m > 0]. *)
Definition round_half_even (m : positive) (e : Z) : Z :=
  match e with
  | Zneg p =>
      let d := Z.pow_pos 2 p in
      let q := Zpos m / d in
      let r := Zpos m mod d in
      match 2 * r ?= d with
      | Lt => q
      | Gt => q + 1
      | Eq => if Z.even q then q else q + 1
      end
  | _ => Zpos m * 2 ^ e
  end.

(** [round(x)] with no [ndigits]: an [int]. *)
Definition round (x : float) : result Z :=
  match x with
  | S754_nan => Raise (ValueError "cannot convert float NaN to integer")
  | S754_infinity _ =>
      Raise (OverflowError "cannot convert float infinity to integer")
  | S754_zero _ => Ok 0
  | S754_finite s m e => Ok (cond_Zopp s (round_half_even m e))
  end.

(** The rational number a finite float stands for. *)
Definition value (x : float) : Q :=
  match x with
  | S754_finite s m e => (inject_Z (cond_Zopp s (Zpos m)) * 2 ^ e)%Q
  | _ => 0%Q
  end.

End PyFloat.

(** ** The order store, [db.py] *)

Module Db.

(** *** Rows and tables *)

Record Customer : Type := mkCustomer {
  cu_id : Z;
  cu_name : string;
  cu_phone : option string;
  cu_created_at : string
}.

Record Order : Type := mkOrder {
  o_id : Z;
  o_customer_id : option Z;
  o_status : string;
  o_delivery_type : string;
  o_address : option string;
  o_notes : option string;
  o_created_at : string;
  o_updated_at : string
}.

Record OrderItem : Type := mkOrderItem {
  oi_id : Z;
  oi_order_id : Z;
  oi_item_type : string;
  oi_item_id : string;
  oi_item_name : string;
  oi_size : option string;
  oi_qty : Z;
  oi_unit_price : Z;
  oi_created_at : string
}.

Record OrderUpdate : Type := mkOrderUpdate {
  ou_id : Z;
  ou_order_id : Z;
  ou_status : string;
  ou_message : option string;
  ou_created_at : string
}.

(** The four tables, rows in rowid order, and the AUTOINCREMENT counter
    of each ([sqlite_sequence]). *)
Record Tables : Type := mkTables {
  customers : list Customer;
  orders : list Order;
  order_items : list OrderItem;
  order_updates : list OrderUpdate;
  seq_customers : Z;
  seq_orders : Z;
  seq_order_items : Z;
  seq_order_updates : Z
}.

(** What [init_db] leaves in a new database file. *)
Definition empty_tables : Tables := mkTables [] [] [] [] 0 0 0 0.

(** *** Connection and world *)

Record Connection : Type := mkConnection {
  committed : Tables;
  current : Tables;
  in_transaction : bool
}.

Record World : Type := mkWorld {
  conn : Connection;
  clock : nat -> string;
  ticks : nat
}.

(** Computations that read and write the world and may raise; the
    world an exception leaves behind is kept. *)
Definition M (A : Type) : Type := World -> result A * World.

Definition ret {A} (a : A) : M A := fun w => (Ok a, w).

Definition raise {A} (e : exn) : M A := fun w => (Raise e, w).

Definition bind {A B} (m : M A) (f : A -> M B) : M B :=
  fun w =>
    match m w with
    | (Ok a, w') => f a w'
    | (Raise e, w') => (Raise e, w')
    end.

Definition lift {A} (r : result A) : M A := fun w => (r, w).

Declare Scope db_scope.
Delimit Scope db_scope with db.
Notation "x <- m ;; k" := (bind m (fun x => k))
  (at level 61, m at next level, right associativity) : db_scope.
Notation "m ;;; k" := (bind m (fun _ => k))
  (at level 61, right associativity) : db_scope.
Local Open Scope db_scope.

Definition utc_now_iso : M string :=
  fun w => (Ok (clock w (ticks w)), mkWorld (conn w) (clock w) (S (ticks w))).

(** A SELECT: reads the tables as the connection sees them. *)
Definition query {A} (f : Tables -> A) : M A :=
  fun w => (Ok (f (current (conn w))), w).

(** An INSERT, UPDATE or DELETE: the transaction is opened if none is,
    the statement runs on the current tables, and a statement that
    fails changes no table. *)
Definition execute {A} (stmt : Tables -> result (A * Tables)) : M A :=
  fun w =>
    let c := conn w in
    match stmt (current c) with
    | Ok (a, t') =>
        (Ok a, mkWorld (mkConnection (committed c) t' true) (clock w) (ticks w))
    | Raise e =>
        (Raise e,
         mkWorld (mkConnection (committed c) (current c) true) (clock w) (ticks w))
    end.

Definition commit : M unit :=
  fun w =>
    let c := conn w in
    (Ok tt, mkWorld (mkConnection (current c) (current c) false) (clock w) (ticks w)).

(** *** Statements *)

Definition fk_failed : exn := IntegrityError "FOREIGN KEY constraint failed".

Definition has_customer (t : Tables) (id : Z) : bool :=
  existsb (fun c => cu_id c =? id) (customers t).

Definition has_order (t : Tables) (id : Z) : bool :=
  existsb (fun o => o_id o =? id) (orders t).

(** INSERT INTO customers(name, phone, created_at) *)
Definition insert_customer (name : string) (phone : option string)
    (created_at : string) (t : Tables) : result (Z * Tables) :=
  let id := seq_customers t + 1 in
  Ok (id,
      mkTables (customers t ++ [mkCustomer id name phone created_at])
        (orders t) (order_items t) (order_updates t)
        id (seq_orders t) (seq_order_items t) (seq_order_updates t)).

(** INSERT INTO orders(customer_id, status, delivery_type, address,
    notes, created_at, updated_at) *)
Definition insert_order (customer_id : option Z)
    (status delivery_type : string) (address notes : option string)
    (created_at updated_at : string) (t : Tables) : result (Z * Tables) :=
  let id := seq_orders t + 1 in
  let fk := match customer_id with
            | None => true
            | Some c => has_customer t c
            end in
  if fk then
    Ok (id,
        mkTables (customers t)
          (orders t ++ [mkOrder id customer_id status delivery_type address
                          notes created_at updated_at])
          (order_items t) (order_updates t)
          (seq_customers t) id (seq_order_items t) (seq_order_updates t))
  else Raise fk_failed.

(** INSERT INTO order_items(order_id, item_type, item_id, item_name,
    size, qty, unit_price, created_at) *)
Definition insert_order_item (order_id : Z)
    (item_type item_id item_name : string) (size : option string)
    (qty unit_price : Z) (created_at : string) (t : Tables)
    : result (Z * Tables) :=
  let id := seq_order_items t + 1 in
  if has_order t order_id then
    Ok (id,
        mkTables (customers t) (orders t)
          (order_items t ++ [mkOrderItem id order_id item_type item_id
                               item_name size qty unit_price created_at])
          (order_updates t)
          (seq_customers t) (seq_orders t) id (seq_order_updates t))
  else Raise fk_failed.

(** INSERT INTO order_updates(order_id, status, message, created_at) *)
Definition insert_order_update (order_id : Z) (status : string)
    (message : option string) (created_at : string) (t : Tables)
    : result (Z * Tables) :=
  let id := seq_order_updates t + 1 in
  if has_order t order_id then
    Ok (id,
        mkTables (customers t) (orders t) (order_items t)
          (order_updates t ++ [mkOrderUpdate id order_id status message created_at])
          (seq_customers t) (seq_orders t) (seq_order_items t) id)
  else Raise fk_failed.

Definition set_updated_at (updated_at : string) (o : Order) : Order :=
  mkOrder (o_id o) (o_customer_id o) (o_status o) (o_delivery_type o)
    (o_address o) (o_notes o) (o_created_at o) updated_at.

Definition set_status (status updated_at : string) (o : Order) : Order :=
  mkOrder (o_id o) (o_customer_id o) status (o_delivery_type o)
    (o_address o) (o_notes o) (o_created_at o) updated_at.

Definition with_orders (t : Tables) (os : list Order) : Tables :=
  mkTables (customers t) os (order_items t) (order_updates t)
    (seq_customers t) (seq_orders t) (seq_order_items t) (seq_order_updates t).

Definition with_order_items (t : Tables) (its : list OrderItem) : Tables :=
  mkTables (customers t) (orders t) its (order_updates t)
    (seq_customers t) (seq_orders t) (seq_order_items t) (seq_order_updates t).

(** UPDATE orders SET updated_at=? WHERE id=? *)
Definition update_order_updated_at (updated_at : string) (id : Z)
    (t : Tables) : result (unit * Tables) :=
  Ok (tt,
      with_orders t
        (map (fun o => if o_id o =? id then set_updated_at updated_at o else o)
           (orders t))).

(** UPDATE orders SET status=?, updated_at=? WHERE id=? *)
Definition update_order_status (status updated_at : string) (id : Z)
    (t : Tables) : result (unit * Tables) :=
  Ok (tt,
      with_orders t
        (map (fun o => if o_id o =? id then set_status status updated_at o else o)
           (orders t))).

(** DELETE FROM order_items WHERE id=? *)
Definition delete_order_item (id : Z) (t : Tables) : result (unit * Tables) :=
  Ok (tt,
      with_order_items t
        (filter (fun i => negb (oi_id i =? id)) (order_items t))).

(** ORDER BY key ASC, a stable insertion sort. *)
Fixpoint insert_by {A} (key : A -> Z) (x : A) (l : list A) : list A :=
  match l with
  | [] => [x]
  | y :: l' => if key x <? key y then x :: l else y :: insert_by key x l'
  end.

Fixpoint order_by {A} (key : A -> Z) (l : list A) : list A :=
  match l with
  | [] => []
  | x :: l' => insert_by key x (order_by key l')
  end.

(** *** The functions of [db.py] *)

Record OrderTotals : Type := mkOrderTotals {
  subtotal : Z;
  delivery_fee : Z;
  tax : Z;
  total : Z
}.

Definition create_customer (name : string) (phone : option string) : M Z :=
  now <- utc_now_iso ;;
  let ph := PyStr.strip (match phone with Some p => p | None => "" end) in
  id <- execute
          (insert_customer (PyStr.strip name)
             (if PyStr.truthy ph then Some ph else None) now) ;;
  commit ;;;
  ret id.

Definition create_order (customer_id : option Z) (delivery_type : string)
    (address notes : option string) : M Z :=
  now <- utc_now_iso ;;
  order_id <- execute
                (insert_order customer_id "draft" delivery_type address notes
                   now now) ;;
  execute (insert_order_update order_id "draft" (Some "Order created") now) ;;;
  commit ;;;
  ret order_id.

Definition add_order_item (order_id : Z) (item_type item_id item_name : string)
    (qty unit_price : Z) (size : option string) : M Z :=
  created <- utc_now_iso ;;
  id <- execute
          (insert_order_item order_id item_type item_id item_name size qty
             unit_price created) ;;
  updated <- utc_now_iso ;;
  execute (update_order_updated_at updated order_id) ;;;
  commit ;;;
  ret id.

Definition remove_order_item (order_item_id : Z) : M unit :=
  execute (delete_order_item order_item_id) ;;;
  commit.

(** [set_order_status] on a status and a message of the model of [PyStr],
    which [sqlite3] always binds. *)
Definition set_order_status (order_id : Z) (status : string)
    (message : option string) : M unit :=
  now <- utc_now_iso ;;
  execute (update_order_status status now order_id) ;;;
  execute (insert_order_update order_id status message now) ;;;
  commit.

(** [conn.execute(sql, params)]: [sqlite3] opens the transaction, then
    binds the parameters; a parameter it cannot bind raises and the
    statement does not run. *)
Definition execute_with {P A} (params : result P)
    (stmt : P -> Tables -> result (A * Tables)) : M A :=
  execute (fun t =>
             match params with
             | Ok p => stmt p t
             | Raise e => Raise e
             end).

(** [set_order_status] on any status and message, surrogates included.
    The UPDATE binds [(status, now, order_id)], the INSERT
    [(order_id, status, message, now)]; nothing is rolled back when the
    INSERT raises. *)
Definition set_order_status_text (order_id : Z) (status : PyText.text)
    (message : option PyText.text) : M unit :=
  now <- utc_now_iso ;;
  execute_with (PyText.encode status)
    (fun s => update_order_status s now order_id) ;;;
  execute_with
    (match PyText.encode status with
     | Ok s =>
         match PyText.encode_opt message with
         | Ok m => Ok (s, m)
         | Raise e => Raise e
         end
     | Raise e => Raise e
     end)
    (fun p => insert_order_update order_id (fst p) (snd p) now) ;;;
  commit.

(** The dictionary [get_order] returns. *)
Record Payload : Type := mkPayload {
  p_order : Order;
  p_items : list OrderItem;
  p_updates : list OrderUpdate
}.

Definition select_order (order_id : Z) (t : Tables) : option Payload :=
  match find (fun o => o_id o =? order_id) (orders t) with
  | None => None
  | Some row =>
      Some (mkPayload row
              (order_by oi_id
                 (filter (fun i => oi_order_id i =? order_id) (order_items t)))
              (order_by ou_id
                 (filter (fun u => ou_order_id u =? order_id) (order_updates t))))
  end.

Definition get_order (order_id : Z) : M (option Payload) :=
  query (select_order order_id).

(** SELECT * FROM orders ORDER BY id DESC LIMIT ?; a negative limit is
    no limit. *)
Definition list_orders (limit : Z) : M (list Order) :=
  query (fun t =>
           let rows := rev (order_by o_id (orders t)) in
           if limit <? 0 then rows else firstn (Z.to_nat limit) rows).

Definition compute_totals (items : list OrderItem) (delivery_fee : Z)
    (tax_percent : PyFloat.float) : result OrderTotals :=
  let subtotal :=
    fold_left (fun acc item => acc + oi_qty item * oi_unit_price item) items 0 in
  match PyFloat.of_int subtotal with
  | Raise e => Raise e
  | Ok x =>
      match PyFloat.round (PyFloat.mul x tax_percent) with
      | Raise e => Raise e
      | Ok tax =>
          let total := subtotal + delivery_fee + tax in
          Ok (mkOrderTotals subtotal delivery_fee tax total)
      end
  end.

End Db.

(** ** The catalog, [menu.py] *)

Module Menu.

(** The catalog document, with the fields of its entries typed as the
    file format gives them. *)
Record Sizes : Type := mkSizes {
  small : Z;
  medium : Z;
  large : Z
}.

Record Pizza : Type := mkPizza {
  pizza_id : string;
  pizza_name : string;
  pizza_description : string;
  pizza_sizes : Sizes
}.

Record Extra : Type := mkExtra {
  extra_id : string;
  extra_name : string;
  extra_price : Z
}.

Record Menu : Type := mkMenu {
  pizzas : list Pizza;
  extras : list Extra;
  delivery_fee : Z;
  tax_percent : PyFloat.float
}.

Definition find_pizza (menu : Menu) (pizza_id' : string) : option Pizza :=
  let pid := PyStr.lower (PyStr.strip pizza_id') in
  find (fun p => String.eqb (PyStr.lower (pizza_id p)) pid) (pizzas menu).

Definition find_extra (menu : Menu) (extra_id' : string) : option Extra :=
  let eid := PyStr.lower (PyStr.strip extra_id') in
  find (fun e => String.eqb (PyStr.lower (extra_id e)) eid) (extras menu).

End Menu.

(** ** The tool surface, [agent.py] *)

Module Agent.

Import Db.
Local Open Scope db_scope.

(** What a tool hands back when it returns the order snapshot or the
    dictionary [{"error": ...}] in its place. *)
Inductive Snapshot : Type :=
| SnapshotOf (p : Payload)
| ErrorDict (msg : string).

Definition snapshot_or_error (p : option Payload) : Snapshot :=
  match p with
  | Some p => SnapshotOf p
  | None => ErrorDict "order not found"
  end.

Record CheckoutResult : Type := mkCheckoutResult {
  co_order : option Payload;
  co_totals : OrderTotals
}.

Definition start_order (delivery_type : string)
    (customer_name phone address notes : option string) : M Z :=
  let delivery_type := PyStr.lower (PyStr.strip delivery_type) in
  if negb (String.eqb delivery_type "delivery"
           || String.eqb delivery_type "pickup")
  then raise (ValueError "delivery_type must be 'delivery' or 'pickup'")
  else
    customer_id <-
      match customer_name with
      | Some name =>
          if PyStr.truthy name && PyStr.truthy (PyStr.strip name)
          then (id <- create_customer name phone ;; ret (Some id))
          else ret None
      | None => ret None
      end ;;
    create_order customer_id delivery_type address notes.

Definition valid_size (size : string) : bool :=
  String.eqb size "small" || String.eqb size "medium" || String.eqb size "large".

(** [pizza["sizes"][size]], [size] being one of the three sizes. *)
Definition size_price (s : Menu.Sizes) (size : string) : Z :=
  if String.eqb size "small" then Menu.small s
  else if String.eqb size "medium" then Menu.medium s
  else Menu.large s.

Definition add_pizza (menu : Menu.Menu) (order_id : Z) (pizza_id size : string)
    (qty : Z) : M Snapshot :=
  let size := PyStr.lower (PyStr.strip size) in
  if negb (valid_size size)
  then raise (ValueError "size must be one of: small, medium, large")
  else
    match Menu.find_pizza menu pizza_id with
    | None => raise (ValueError ("Unknown pizza_id: " ++ pizza_id)%string)
    | Some pizza =>
        let unit_price := size_price (Menu.pizza_sizes pizza) size in
        add_order_item order_id "pizza" (Menu.pizza_id pizza)
          (Menu.pizza_name pizza) qty unit_price (Some size) ;;;
        p <- get_order order_id ;;
        ret (snapshot_or_error p)
    end.

Definition add_extra (menu : Menu.Menu) (order_id : Z) (extra_id : string)
    (qty : Z) : M Snapshot :=
  match Menu.find_extra menu extra_id with
  | None => raise (ValueError ("Unknown extra_id: " ++ extra_id)%string)
  | Some extra =>
      add_order_item order_id "extra" (Menu.extra_id extra)
        (Menu.extra_name extra) qty (Menu.extra_price extra) None ;;;
      p <- get_order order_id ;;
      ret (snapshot_or_error p)
  end.

Definition remove_item (order_item_id : Z) : M bool :=
  remove_order_item order_item_id ;;;
  ret true.

Definition checkout (menu : Menu.Menu) (order_id : Z) : M CheckoutResult :=
  payload <- get_order order_id ;;
  match payload with
  | None => raise (ValueError "Order not found")
  | Some payload =>
      let order := p_order payload in
      match p_items payload with
      | [] => raise (ValueError "Order has no items")
      | _ :: _ =>
          let delivery_fee :=
            if String.eqb (o_delivery_type order) "delivery"
            then Menu.delivery_fee menu else 0 in
          totals <- lift (compute_totals (p_items payload) delivery_fee
                            (Menu.tax_percent menu)) ;;
          set_order_status order_id "placed" (Some "Order placed") ;;;
          o <- get_order order_id ;;
          ret (mkCheckoutResult o totals)
      end
  end.

Definition get_order_status (order_id : Z) : M Payload :=
  payload <- get_order order_id ;;
  match payload with
  | None => raise (ValueError "Order not found")
  | Some payload => ret payload
  end.

Definition admin_update_status (order_id : Z) (status : string)
    (message : option string) : M Snapshot :=
  set_order_status order_id (PyStr.lower (PyStr.strip status)) message ;;;
  p <- get_order order_id ;;
  ret (snapshot_or_error p).

End Agent.

(** ** Vocabulary of the properties *)

Import Db.

(** Keys strictly ascending, above [lo] and at most [hi]. *)
Fixpoint ascending {A} (key : A -> Z) (lo hi : Z) (l : list A) : bool :=
  match l with
  | [] => lo <=? hi
  | x :: l' => (lo <? key x) && ascending key (key x) hi l'
  end.

(** The tables a connection can hold: rows in rowid order, no rowid above
    the counter of its table, every reference to an existing row. *)
Definition wf (t : Tables) : bool :=
  ascending cu_id 0 (seq_customers t) (customers t)
  && ascending o_id 0 (seq_orders t) (orders t)
  && ascending oi_id 0 (seq_order_items t) (order_items t)
  && ascending ou_id 0 (seq_order_updates t) (order_updates t)
  && forallb (fun o => match o_customer_id o with
                       | None => true
                       | Some c => has_customer t c
                       end) (orders t)
  && forallb (fun i => has_order t (oi_order_id i)) (order_items t)
  && forallb (fun u => has_order t (ou_order_id u)) (order_updates t).

(** The tables the connection sees. *)
Definition tables (w : World) : Tables := current (conn w).

(** The world after a function that committed tables [t] and read the
    clock [k] times. *)
Definition committed_world (t : Tables) (k : nat) (w : World) : World :=
  mkWorld (mkConnection t t false) (clock w) (k + ticks w).

(** The world after a function whose statement failed, the clock read
    [k] times. *)
Definition failed_world (k : nat) (w : World) : World :=
  mkWorld (mkConnection (committed (conn w)) (current (conn w)) true)
    (clock w) (k + ticks w).

(** The world of a connection just opened on tables [t]. *)
Definition opened (t : Tables) (clk : nat -> string) : World :=
  mkWorld (mkConnection t t false) clk 0.

(** Calls of the functions of [db.py] that write. *)
Inductive call : Type :=
| CreateCustomer (name : string) (phone : option string)
| CreateOrder (customer_id : option Z) (delivery_type : string)
    (address notes : option string)
| AddOrderItem (order_id : Z) (item_type item_id item_name : string)
    (qty unit_price : Z) (size : option string)
| RemoveOrderItem (order_item_id : Z)
| SetOrderStatus (order_id : Z) (status : string) (message : option string).

(** The world a call leaves, whether it returned or raised. *)
Definition run_call (c : call) (w : World) : World :=
  match c with
  | CreateCustomer name phone => snd (create_customer name phone w)
  | CreateOrder cid dt address notes => snd (create_order cid dt address notes w)
  | AddOrderItem oid ty iid name qty price size =>
      snd (add_order_item oid ty iid name qty price size w)
  | RemoveOrderItem id => snd (remove_order_item id w)
  | SetOrderStatus oid status message => snd (set_order_status oid status message w)
  end.

Definition run_calls (cs : list call) (w : World) : World :=
  fold_left (fun w c => run_call c w) cs w.

(** The status and message of the [set_order_status] calls on one order. *)
Fixpoint status_calls (oid : Z) (cs : list call) : list (string * option string) :=
  match cs with
  | [] => []
  | SetOrderStatus o status message :: cs' =>
      if o =? oid then (status, message) :: status_calls oid cs'
      else status_calls oid cs'
  | _ :: cs' => status_calls oid cs'
  end.

Definition audit_entry (u : OrderUpdate) : string * option string :=
  (ou_status u, ou_message u).

(** The status of the last row of an audit log. *)
Definition last_status (us : list OrderUpdate) : option string :=
  match rev us with
  | [] => None
  | u :: _ => Some (ou_status u)
  end.

(** Sum of quantity times unit price. *)
Fixpoint items_sum (items : list OrderItem) : Z :=
  match items with
  | [] => 0
  | i :: items' => oi_qty i * oi_unit_price i + items_sum items'
  end.

(** *** The tables each function leaves when it returns *)

Definition fk_customer (t : Tables) (customer_id : option Z) : bool :=
  match customer_id with
  | None => true
  | Some c => has_customer t c
  end.

Definition created_order (t : Tables) (customer_id : option Z)
    (delivery_type : string) (address notes : option string) (now : string)
    : Order :=
  mkOrder (seq_orders t + 1) customer_id "draft" delivery_type address notes
    now now.

Definition creation_row (t : Tables) (now : string) : OrderUpdate :=
  mkOrderUpdate (seq_order_updates t + 1) (seq_orders t + 1) "draft"
    (Some "Order created") now.

Definition after_create_order (t : Tables) (customer_id : option Z)
    (delivery_type : string) (address notes : option string) (now : string)
    : Tables :=
  mkTables (customers t)
    (orders t ++ [created_order t customer_id delivery_type address notes now])
    (order_items t)
    (order_updates t ++ [creation_row t now])
    (seq_customers t) (seq_orders t + 1) (seq_order_items t)
    (seq_order_updates t + 1).

Definition added_item (t : Tables) (order_id : Z)
    (item_type item_id item_name : string) (qty unit_price : Z)
    (size : option string) (created : string) : OrderItem :=
  mkOrderItem (seq_order_items t + 1) order_id item_type item_id item_name size
    qty unit_price created.

Definition touch (updated : string) (id : Z) (os : list Order) : list Order :=
  map (fun o => if o_id o =? id then set_updated_at updated o else o) os.

Definition after_add_order_item (t : Tables) (order_id : Z)
    (item_type item_id item_name : string) (qty unit_price : Z)
    (size : option string) (created updated : string) : Tables :=
  mkTables (customers t) (touch updated order_id (orders t))
    (order_items t
     ++ [added_item t order_id item_type item_id item_name qty unit_price size
           created])
    (order_updates t)
    (seq_customers t) (seq_orders t) (seq_order_items t + 1)
    (seq_order_updates t).

Definition after_remove_order_item (t : Tables) (order_item_id : Z) : Tables :=
  with_order_items t
    (filter (fun i => negb (oi_id i =? order_item_id)) (order_items t)).

Definition restatus (status now : string) (id : Z) (os : list Order)
    : list Order :=
  map (fun o => if o_id o =? id then set_status status now o else o) os.

Definition status_row (t : Tables) (order_id : Z) (status : string)
    (message : option string) (now : string) : OrderUpdate :=
  mkOrderUpdate (seq_order_updates t + 1) order_id status message now.

Definition after_set_order_status (t : Tables) (order_id : Z) (status : string)
    (message : option string) (now : string) : Tables :=
  mkTables (customers t) (restatus status now order_id (orders t))
    (order_items t)
    (order_updates t ++ [status_row t order_id status message now])
    (seq_customers t) (seq_orders t) (seq_order_items t)
    (seq_order_updates t + 1).

Definition created_customer (t : Tables) (name : string) (phone : option string)
    (now : string) : Customer :=
  let ph := PyStr.strip (match phone with Some p => p | None => "" end) in
  mkCustomer (seq_customers t + 1) (PyStr.strip name)
    (if PyStr.truthy ph then Some ph else None) now.

Definition after_create_customer (t : Tables) (name : string)
    (phone : option string) (now : string) : Tables :=
  mkTables (customers t ++ [created_customer t name phone now]) (orders t)
    (order_items t) (order_updates t)
    (seq_customers t + 1) (seq_orders t) (seq_order_items t)
    (seq_order_updates t).

(** The row, the items and the audit rows of one order, in table order. *)
Definition order_row (oid : Z) (t : Tables) : option Order :=
  find (fun o => o_id o =? oid) (orders t).

Definition items_of (oid : Z) (t : Tables) : list OrderItem :=
  filter (fun i => oi_order_id i =? oid) (order_items t).

Definition updates_of (oid : Z) (t : Tables) : list OrderUpdate :=
  filter (fun u => ou_order_id u =? oid) (order_updates t).

Definition current_status (oid : Z) (t : Tables) : option string :=
  option_map o_status (order_row oid t).

(** The tables a call leaves, whether it returned or raised, [now] and
    [later] being the next two readings of the clock. *)
Definition step (now later : string) (c : call) (t : Tables) : Tables :=
  match c with
  | CreateCustomer name phone => after_create_customer t name phone now
  | CreateOrder cid dt address notes =>
      if fk_customer t cid then after_create_order t cid dt address notes now
      else t
  | AddOrderItem oid ty iid name qty price size =>
      if has_order t oid
      then after_add_order_item t oid ty iid name qty price size now later
      else t
  | RemoveOrderItem id => after_remove_order_item t id
  | SetOrderStatus oid status message =>
      if has_order t oid then after_set_order_status t oid status message now
      else t
  end.

(** The audit rows a call appends for the order [oid]. *)
Definition appended (oid : Z) (now : string) (c : call) (t : Tables)
    : list OrderUpdate :=
  match c with
  | SetOrderStatus o status message =>
      if o =? oid then [status_row t oid status message now] else []
  | _ => []
  end.

Definition has_item (t : Tables) (id : Z) : bool :=
  existsb (fun i => oi_id i =? id) (order_items t).

(** A payload with the item [id] left out. *)
Definition without_item (id : Z) (p : Payload) : Payload :=
  mkPayload (p_order p) (filter (fun i => negb (oi_id i =? id)) (p_items p))
    (p_updates p).

(** An item id at most the counter that no row carries: new rows take ids
    above the counter, and the counter never goes down. *)
Definition retired (id : Z) (t : Tables) : Prop :=
  id <= seq_order_items t /\ has_item t id = false.

(** A connection just opened on a database [init_db] has just made. *)
Definition new_world : World :=
  opened empty_tables (fun n => String (ascii_of_nat (48 + n)) "").

(** The new world after one pickup order with two medium pizzas. *)
Definition stocked_world : World :=
  run_calls
    [CreateOrder None "pickup" None None;
     AddOrderItem 1 "pizza" "margherita" "Margherita" 2 800 (Some "medium")]
    new_world.

(** The fee [checkout] charges: the fee of the catalog on a delivery
    order, nothing on any other. *)
Definition checkout_fee (menu : Menu.Menu) (order : Order) : Z :=
  if String.eqb (o_delivery_type order) "delivery"
  then Menu.delivery_fee menu else 0.

(** [round(n * y)] for an [int] and a [float]. *)
Definition rounded_product (n : Z) (y : PyFloat.float) : result Z :=
  match PyFloat.of_int n with
  | Raise e => Raise e
  | Ok x => PyFloat.round (PyFloat.mul x y)
  end.

(** What [checkout] returns as the order when it has placed it. *)
Definition placed_payload (t : Tables) (oid : Z) (now : string) (p : Payload)
    : Payload :=
  mkPayload (set_status "placed" now (p_order p)) (p_items p)
    (p_updates p ++ [status_row t oid "placed" (Some "Order placed") now]).

(** The binary64 number nearest to 0.05. *)
Definition five_percent : PyFloat.float :=
  S754_finite false 7205759403792794 (-57).

(** A catalog of one pizza and one extra. *)
Definition small_menu : Menu.Menu :=
  Menu.mkMenu
    [Menu.mkPizza "margherita" "Margherita" "Tomato, mozzarella, basil"
       (Menu.mkSizes 500 800 1100)]
    [Menu.mkExtra "coke" "Coke" 150]
    200 five_percent.

(** *** Binary64 rounding *)

(** A mantissa [m0] after [k] halvings: the quotient is [shr_m], and the
    round and sticky bits tell where the remainder stands against one half
    of [2^k]. *)
Definition shifted (m0 k : Z) (rec : shr_record) : Prop :=
  0 <= k /\ 0 <= shr_m rec /\
  exists rem,
    m0 = shr_m rec * 2 ^ k + rem /\ 0 <= rem < 2 ^ k
    /\ (shr_r rec = true <-> 2 ^ k <= 2 * rem)
    /\ (shr_s rec = true <-> (if shr_r rec then 2 ^ k < 2 * rem else 0 < rem)).

(** The float a rounding ends in, of mantissa [M] and exponent [E]. *)
Definition float_of (s : bool) (M E : Z) : spec_float :=
  match M with
  | Z0 => S754_zero s
  | Zpos p =>
      if E <=? PyFloat.emax - PyFloat.prec then S754_finite s p E
      else S754_infinity s
  | Zneg _ => S754_nan
  end.

(** The float 0.5. *)
Definition one_half : PyFloat.float := S754_finite false 4503599627370496 (-53).

(** One item of unit price [2^62 + 400], a 64-bit integer. *)
Definition costly_item : OrderItem :=
  mkOrderItem 1 1 "pizza" "margherita" "Margherita" (Some "large") 1
    4611686018427388304 "0".

(** Calls of the tools of [agent.py]. *)
Inductive tool : Type :=
| StartOrder (delivery_type : string) (customer_name phone address notes : option string)
| AddPizza (order_id : Z) (pizza_id size : string) (qty : Z)
| AddExtra (order_id : Z) (extra_id : string) (qty : Z)
| RemoveItem (order_item_id : Z)
| Checkout (order_id : Z)
| GetOrderStatus (order_id : Z)
| AdminUpdateStatus (order_id : Z) (status : string) (message : option string).

(** The world a tool leaves, whether it returned or raised. *)
Definition run_tool (menu : Menu.Menu) (t : tool) (w : World) : World :=
  match t with
  | StartOrder dt name phone address notes =>
      snd (Agent.start_order dt name phone address notes w)
  | AddPizza oid pid size qty => snd (Agent.add_pizza menu oid pid size qty w)
  | AddExtra oid eid qty => snd (Agent.add_extra menu oid eid qty w)
  | RemoveItem id => snd (Agent.remove_item id w)
  | Checkout oid => snd (Agent.checkout menu oid w)
  | GetOrderStatus oid => snd (Agent.get_order_status oid w)
  | AdminUpdateStatus oid status message =>
      snd (Agent.admin_update_status oid status message w)
  end.

Definition run_tools (menu : Menu.Menu) (ts : list tool) (w : World) : World :=
  fold_left (fun w t => run_tool menu t w) ts w.

(** The new world after [start_order] with a delivery type alone. *)
Definition started (dt : string) : World :=
  snd (Agent.start_order dt None None None None new_world).

(** The first character is white space. *)
Definition starts_with_space (s : string) : bool :=
  match s with
  | EmptyString => false
  | String c _ => PyStr.is_space c
  end.

(** The last character is white space. *)
Fixpoint ends_with_space (s : string) : bool :=
  match s with
  | EmptyString => false
  | String c EmptyString => PyStr.is_space c
  | String _ r => ends_with_space r
  end.

(** A customer name was given and is not blank: [customer_name and
    customer_name.strip()]. *)
Definition named (customer_name : option string) : bool :=
  match customer_name with
  | Some name => PyStr.truthy name && PyStr.truthy (PyStr.strip name)
  | None => false
  end.

(** The delivery types [start_order] accepts, as it compares them. *)
Definition delivery_type_ok (dt : string) : bool :=
  String.eqb (PyStr.lower (PyStr.strip dt)) "delivery"
  || String.eqb (PyStr.lower (PyStr.strip dt)) "pickup".

(** The orders a call can change: the order it names, the order that owns
    the item it removes, the order it creates. *)
Definition touches (t : Tables) (c : call) (oid : Z) : bool :=
  match c with
  | CreateCustomer _ _ => false
  | CreateOrder _ _ _ _ => oid =? seq_orders t + 1
  | AddOrderItem o _ _ _ _ _ _ => o =? oid
  | RemoveOrderItem id =>
      existsb (fun i => (oi_id i =? id) && (oi_order_id i =? oid)) (order_items t)
  | SetOrderStatus o _ _ => o =? oid
  end.

(** A float that is zero or above. *)
Definition nonnegative (x : PyFloat.float) : bool :=
  match x with
  | S754_zero _ => true
  | S754_finite false _ _ => true
  | _ => false
  end.

(** Every order has an audit log that starts with the creation row and
    ends with a row of the order's status. *)
Definition logs_match (t : Tables) : Prop :=
  forall oid,
    has_order t oid = true ->
    last_status (updates_of oid t) = current_status oid t
    /\ option_map audit_entry (hd_error (updates_of oid t))
       = Some ("draft", Some "Order created").

(** A world the tools and the store functions reach from a new
    database. *)
Definition reached (menu : Menu.Menu) (ts : list tool) (cs : list call) : World :=
  run_calls cs (run_tools menu ts new_world).

(** ** app.py: the amounts the pages show *)

Module App.

(** [str(n)] of an integer: its decimal digits, after a minus sign below
    zero. *)
Definition str_of_int (n : Z) : string := DecimalString.NilZero.string_of_int (Z.to_int n).

(** The thousands separators of the format specification [","], on
    digits given least significant first. *)
Fixpoint group_thousands (ds : list ascii) : list ascii :=
  match ds with
  | a :: b :: c :: rest =>
      match rest with
      | [] => ds
      | _ :: _ => a :: b :: c :: ","%char :: group_thousands rest
      end
  | _ => ds
  end.

(** [format(n, ",")]. *)
Definition format_comma (n : Z) : string :=
  let digits := list_ascii_of_string (str_of_int (Z.abs n)) in
  String.append (if n <? 0 then "-" else "")
    (string_of_list_ascii (rev (group_thousands (rev digits)))).

Definition money (pkr : Z) : string := ("PKR " ++ format_comma pkr)%string.

End App.

(** The text without its commas. *)
Fixpoint without_commas (s : string) : string :=
  match s with
  | EmptyString => EmptyString
  | String c r =>
      if Ascii.eqb c ","%char then without_commas r
      else String c (without_commas r)
  end.

(** The amount a text of the form [PKR d,ddd,ddd] stands for. *)
Definition amount_of (s : string) : option Z :=
  match s with
  | String "P" (String "K" (String "R" (String " " r))) =>
      option_map Z.of_int (DecimalString.NilZero.int_of_string (without_commas r))
  | _ => None
  end.

(** A decimal digit. *)
Definition is_digit (c : ascii) : bool :=
  (48 <=? Z.of_nat (nat_of_ascii c)) && (Z.of_nat (nat_of_ascii c) <=? 57).

(** The fields of an order that are written when the order is created and
    by no statement after that. *)
Definition order_fixed (o : Order)
    : Z * option Z * string * option string * option string * string :=
  (o_id o, o_customer_id o, o_delivery_type o, o_address o, o_notes o,
   o_created_at o).

(** [l'] is [l] with rows added at the end. *)
Definition extends {A} (l l' : list A) : Prop := exists more, l' = l ++ more.

(** What every later state of the store keeps of an earlier one: the
    customers, the orders apart from status and [updated_at], and the audit
    rows, with rows added at the end only; the items unchanged, or removed,
    or new with a new id; counters that do not go back. *)
Definition grows (t t' : Tables) : Prop :=
  extends (customers t) (customers t')
  /\ extends (map order_fixed (orders t)) (map order_fixed (orders t'))
  /\ extends (order_updates t) (order_updates t')
  /\ (forall i, In i (order_items t') ->
                In i (order_items t) \/ seq_order_items t < oi_id i)
  /\ seq_customers t <= seq_customers t'
  /\ seq_orders t <= seq_orders t'
  /\ seq_order_items t <= seq_order_items t'
  /\ seq_order_updates t <= seq_order_updates t'.

(** The time [utc_now_iso] returns at its next call. *)
Definition now_of (w : World) : string := clock w (ticks w).

(** A message of one lone surrogate, U+D800: what the JSON text
    ["\ud800"] decodes to. *)
Definition lone_surrogate : PyText.text := [PyText.Surrogate 0].

(** The world [set_order_status] leaves when the INSERT cannot bind its
    message: the UPDATE is in the open transaction, the clock was read
    once, nothing is committed. *)
Definition half_written_world (oid : Z) (status : string) (w : World) : World :=
  mkWorld
    (mkConnection (committed (conn w))
       (with_orders (tables w) (restatus status (now_of w) oid (orders (tables w))))
       true)
    (clock w) (1 + ticks w).

(** * Properties *)

(** ** What each function of the store does to the world *)

Section Runs.

Variable w : World.

Lemma existsb_map_same_id (g : Order -> Order) (os : list Order) (oid : Z) :
  (forall o, o_id (g o) = o_id o) ->
  existsb (fun o => o_id o =? oid) (map g os)
  = existsb (fun o => o_id o =? oid) os.
Proof.
  intros Hg. induction os as [|o os IH]; simpl; [reflexivity|].
  rewrite IH, Hg. reflexivity.
Qed.

Lemma has_order_restatus status now id os oid :
  existsb (fun o => o_id o =? oid) (restatus status now id os)
  = existsb (fun o => o_id o =? oid) os.
Proof.
  apply existsb_map_same_id. intros o. destruct (o_id o =? id); reflexivity.
Qed.

Lemma has_order_touch updated id os oid :
  existsb (fun o => o_id o =? oid) (touch updated id os)
  = existsb (fun o => o_id o =? oid) os.
Proof.
  apply existsb_map_same_id. intros o. destruct (o_id o =? id); reflexivity.
Qed.

Lemma restatus_absent status now id os :
  existsb (fun o => o_id o =? id) os = false ->
  restatus status now id os = os.
Proof.
  induction os as [|o os IH]; simpl; [reflexivity|].
  intros H. apply orb_false_iff in H as [H1 H2].
  rewrite H1, IH by assumption. reflexivity.
Qed.

Lemma touch_absent updated id os :
  existsb (fun o => o_id o =? id) os = false ->
  touch updated id os = os.
Proof.
  induction os as [|o os IH]; simpl; [reflexivity|].
  intros H. apply orb_false_iff in H as [H1 H2].
  rewrite H1, IH by assumption. reflexivity.
Qed.

Lemma tables_eta (t : Tables) :
  mkTables (customers t) (orders t) (order_items t) (order_updates t)
    (seq_customers t) (seq_orders t) (seq_order_items t) (seq_order_updates t)
  = t.
Proof. destruct t; reflexivity. Qed.

(** [set_order_status] on an order of the store. *)
Lemma set_order_status_present oid status message :
  has_order (tables w) oid = true ->
  set_order_status oid status message w
  = (Ok tt,
     committed_world
       (after_set_order_status (tables w) oid status message (now_of w)) 1 w).
Proof.
  intros H.
  unfold set_order_status, bind, utc_now_iso, execute, commit,
    update_order_status, insert_order_update, has_order, with_orders.
  cbn [conn current committed clock ticks orders fst snd].
  fold (restatus status (clock w (ticks w)) oid (orders (current (conn w)))).
  rewrite has_order_restatus. unfold tables, has_order in H. rewrite H.
  reflexivity.
Qed.

(** [set_order_status] on an id the store has no order for. *)
Lemma set_order_status_absent oid status message :
  has_order (tables w) oid = false ->
  set_order_status oid status message w = (Raise fk_failed, failed_world 1 w).
Proof.
  intros H.
  unfold set_order_status, bind, utc_now_iso, execute, commit,
    update_order_status, insert_order_update, has_order, with_orders.
  cbn [conn current committed clock ticks orders fst snd].
  fold (restatus status (clock w (ticks w)) oid (orders (current (conn w)))).
  rewrite has_order_restatus. unfold tables, has_order in H. rewrite H.
  rewrite restatus_absent by assumption.
  rewrite tables_eta. reflexivity.
Qed.

Lemma has_order_snoc (os : list Order) (o : Order) (id : Z) :
  o_id o = id ->
  existsb (fun o' => o_id o' =? id) (os ++ [o]) = true.
Proof.
  intros <-. rewrite existsb_app. simpl.
  rewrite Z.eqb_refl, orb_true_r. reflexivity.
Qed.

(** [create_order] with no customer or a customer of the store. *)
Lemma create_order_present cid dt address notes :
  fk_customer (tables w) cid = true ->
  create_order cid dt address notes w
  = (Ok (seq_orders (tables w) + 1),
     committed_world
       (after_create_order (tables w) cid dt address notes (now_of w)) 1 w).
Proof.
  intros H.
  unfold create_order, bind, utc_now_iso, execute, commit, insert_order.
  cbn [conn current committed clock ticks fst snd].
  unfold fk_customer, tables in H. rewrite H.
  unfold insert_order_update, has_order.
  cbn [conn current committed clock ticks orders fst snd].
  rewrite has_order_snoc by reflexivity.
  reflexivity.
Qed.

(** [create_order] for a customer the store does not have. *)
Lemma create_order_absent cid dt address notes :
  fk_customer (tables w) cid = false ->
  create_order cid dt address notes w = (Raise fk_failed, failed_world 1 w).
Proof.
  intros H.
  unfold create_order, bind, utc_now_iso, execute, commit, insert_order.
  cbn [conn current committed clock ticks fst snd].
  unfold fk_customer, tables in H. rewrite H. reflexivity.
Qed.

(** [add_order_item] on an order of the store. *)
Lemma add_order_item_present oid ty iid name qty price size :
  has_order (tables w) oid = true ->
  add_order_item oid ty iid name qty price size w
  = (Ok (seq_order_items (tables w) + 1),
     committed_world
       (after_add_order_item (tables w) oid ty iid name qty price size
          (now_of w) (clock w (S (ticks w)))) 2 w).
Proof.
  intros H.
  unfold add_order_item, bind, utc_now_iso, execute, commit, insert_order_item.
  cbn [conn current committed clock ticks fst snd].
  unfold tables in H. rewrite H. reflexivity.
Qed.

(** [add_order_item] on an id the store has no order for. *)
Lemma add_order_item_absent oid ty iid name qty price size :
  has_order (tables w) oid = false ->
  add_order_item oid ty iid name qty price size w
  = (Raise fk_failed, failed_world 1 w).
Proof.
  intros H.
  unfold add_order_item, bind, utc_now_iso, execute, commit, insert_order_item.
  cbn [conn current committed clock ticks fst snd].
  unfold tables in H. rewrite H. reflexivity.
Qed.

Lemma remove_order_item_run id :
  remove_order_item id w
  = (Ok tt, committed_world (after_remove_order_item (tables w) id) 0 w).
Proof. reflexivity. Qed.

Lemma create_customer_run name phone :
  create_customer name phone w
  = (Ok (seq_customers (tables w) + 1),
     committed_world (after_create_customer (tables w) name phone (now_of w))
       1 w).
Proof. reflexivity. Qed.

End Runs.

(** ** Tables in rowid order *)

Section Ascending.

Context {A : Type}.
Variable key : A -> Z.

Lemma ascending_le lo hi l : ascending key lo hi l = true -> lo <= hi.
Proof.
  revert lo. induction l as [|x l IH]; simpl; intros lo H.
  - lia.
  - apply andb_true_iff in H as [H1 H2]. apply IH in H2. lia.
Qed.

Lemma ascending_bounds lo hi l :
  ascending key lo hi l = true -> Forall (fun x => lo < key x <= hi) l.
Proof.
  revert lo. induction l as [|x l IH]; simpl; intros lo H; constructor.
  - apply andb_true_iff in H as [H1 H2]. apply ascending_le in H2. lia.
  - apply andb_true_iff in H as [H1 H2].
    apply IH in H2. eapply Forall_impl; [|exact H2]. simpl. lia.
Qed.

Lemma ascending_lower lo lo' hi l :
  lo' <= lo -> ascending key lo hi l = true -> ascending key lo' hi l = true.
Proof.
  destruct l as [|x l]; simpl; intros Hlo H.
  - lia.
  - apply andb_true_iff in H as [H1 H2]. rewrite H2, andb_true_r. lia.
Qed.

Lemma ascending_snoc lo hi l x :
  ascending key lo hi l = true -> key x = hi + 1 ->
  ascending key lo (hi + 1) (l ++ [x]) = true.
Proof.
  revert lo. induction l as [|y l IH]; simpl; intros lo H Hx.
  - rewrite Hx. apply andb_true_iff. split; lia.
  - apply andb_true_iff in H as [H1 H2].
    rewrite H1. simpl. apply IH; assumption.
Qed.

Lemma ascending_filter f lo hi l :
  ascending key lo hi l = true -> ascending key lo hi (filter f l) = true.
Proof.
  revert lo. induction l as [|x l IH]; simpl; intros lo H; [assumption|].
  apply andb_true_iff in H as [H1 H2].
  destruct (f x); simpl.
  - rewrite H1. simpl. apply IH. assumption.
  - apply IH. apply ascending_lower with (lo := key x); [lia|assumption].
Qed.

Lemma ascending_map (g : A -> A) lo hi l :
  (forall x, key (g x) = key x) ->
  ascending key lo hi (map g l) = ascending key lo hi l.
Proof.
  intros Hg. revert lo. induction l as [|x l IH]; simpl; intros lo.
  - reflexivity.
  - rewrite Hg, IH. reflexivity.
Qed.

(** Rows in rowid order are what ORDER BY id ASC returns. *)
Lemma order_by_ascending lo hi l :
  ascending key lo hi l = true -> order_by key l = l.
Proof.
  revert lo. induction l as [|x l IH]; simpl; intros lo H; [reflexivity|].
  apply andb_true_iff in H as [H1 H2].
  rewrite (IH _ H2).
  destruct l as [|y l]; simpl in *; [reflexivity|].
  apply andb_true_iff in H2 as [H2 _]. rewrite H2. reflexivity.
Qed.

(** No row of the table has a key above the counter. *)
Lemma ascending_fresh lo hi l f :
  ascending key lo hi l = true ->
  (forall x, f x = true -> hi < key x) ->
  filter f l = [].
Proof.
  intros H Hf. apply ascending_bounds in H.
  induction H as [|x l Hx _ IH]; simpl; [reflexivity|].
  destruct (f x) eqn:E; [|assumption].
  apply Hf in E. lia.
Qed.

End Ascending.

(** ** Well-formed tables are kept by every function of the store *)

Section WellFormed.

Lemma forallb_impl {A} (f g : A -> bool) (l : list A) :
  (forall x, f x = true -> g x = true) ->
  forallb f l = true -> forallb g l = true.
Proof.
  intros Hfg. induction l as [|x l IH]; simpl; [reflexivity|].
  intros H. apply andb_true_iff in H as [H1 H2].
  rewrite (Hfg _ H1), (IH H2). reflexivity.
Qed.

Lemma forallb_map_same {A} (f : A -> bool) (g : A -> A) (l : list A) :
  (forall x, f (g x) = f x) -> forallb f (map g l) = forallb f l.
Proof.
  intros Hg. induction l as [|x l IH]; simpl; [reflexivity|].
  rewrite Hg, IH. reflexivity.
Qed.

Lemma forallb_filter_keep {A} (f p : A -> bool) (l : list A) :
  forallb f l = true -> forallb f (filter p l) = true.
Proof.
  induction l as [|x l IH]; simpl; [reflexivity|].
  intros H. apply andb_true_iff in H as [H1 H2].
  destruct (p x); simpl; [rewrite H1|]; auto.
Qed.

Lemma wf_iff t :
  wf t = true <->
  ascending cu_id 0 (seq_customers t) (customers t) = true
  /\ ascending o_id 0 (seq_orders t) (orders t) = true
  /\ ascending oi_id 0 (seq_order_items t) (order_items t) = true
  /\ ascending ou_id 0 (seq_order_updates t) (order_updates t) = true
  /\ forallb (fun o => fk_customer t (o_customer_id o)) (orders t) = true
  /\ forallb (fun i => has_order t (oi_order_id i)) (order_items t) = true
  /\ forallb (fun u => has_order t (ou_order_id u)) (order_updates t) = true.
Proof.
  unfold wf. rewrite !andb_true_iff. unfold fk_customer. tauto.
Qed.

Lemma wf_empty : wf empty_tables = true.
Proof. reflexivity. Qed.

Lemma wf_after_create_customer t name phone now :
  wf t = true -> wf (after_create_customer t name phone now) = true.
Proof.
  rewrite !wf_iff. intros (Hc & Ho & Hi & Hu & Hfc & Hfi & Hfu).
  unfold after_create_customer; simpl. repeat split; try assumption.
  - apply ascending_snoc; [assumption|reflexivity].
  - revert Hfc. apply forallb_impl. intros o.
    unfold fk_customer, has_customer; simpl.
    destruct (o_customer_id o); [|reflexivity].
    rewrite existsb_app. intros ->. reflexivity.
Qed.

Lemma wf_after_create_order t cid dt address notes now :
  wf t = true -> fk_customer t cid = true ->
  wf (after_create_order t cid dt address notes now) = true.
Proof.
  rewrite !wf_iff. intros (Hc & Ho & Hi & Hu & Hfc & Hfi & Hfu) Hcid.
  unfold after_create_order; simpl. repeat split; try assumption.
  - apply ascending_snoc; [assumption|reflexivity].
  - apply ascending_snoc; [assumption|reflexivity].
  - rewrite forallb_app. simpl. rewrite andb_true_r.
    apply andb_true_iff. split; [exact Hfc|exact Hcid].
  - revert Hfi. apply forallb_impl. intros i.
    unfold has_order; simpl. rewrite existsb_app. intros ->. reflexivity.
  - rewrite forallb_app. apply andb_true_iff. split.
    + revert Hfu. apply forallb_impl. intros u.
      unfold has_order; simpl. rewrite existsb_app. intros ->. reflexivity.
    + simpl. rewrite andb_true_r. unfold has_order; simpl.
      apply has_order_snoc. reflexivity.
Qed.

Lemma wf_after_add_order_item t oid ty iid name qty price size created updated :
  wf t = true -> has_order t oid = true ->
  wf (after_add_order_item t oid ty iid name qty price size created updated)
  = true.
Proof.
  rewrite !wf_iff. intros (Hc & Ho & Hi & Hu & Hfc & Hfi & Hfu) Hoid.
  unfold after_add_order_item; simpl. repeat split; try assumption.
  - unfold touch. rewrite ascending_map; [assumption|].
    intros o. destruct (o_id o =? oid); reflexivity.
  - apply ascending_snoc; [assumption|reflexivity].
  - unfold touch. rewrite forallb_map_same; [exact Hfc|].
    intros o. destruct (o_id o =? oid); reflexivity.
  - rewrite forallb_app. apply andb_true_iff. split.
    + revert Hfi. apply forallb_impl. intros i.
      unfold has_order; simpl. rewrite has_order_touch. auto.
    + simpl. rewrite andb_true_r. unfold has_order; simpl.
      rewrite has_order_touch. exact Hoid.
  - revert Hfu. apply forallb_impl. intros u.
    unfold has_order; simpl. rewrite has_order_touch. auto.
Qed.

Lemma wf_after_remove_order_item t id :
  wf t = true -> wf (after_remove_order_item t id) = true.
Proof.
  rewrite !wf_iff. intros (Hc & Ho & Hi & Hu & Hfc & Hfi & Hfu).
  unfold after_remove_order_item, with_order_items; simpl.
  repeat split; try assumption.
  - apply ascending_filter. assumption.
  - apply forallb_filter_keep. exact Hfi.
Qed.

Lemma wf_after_set_order_status t oid status message now :
  wf t = true -> has_order t oid = true ->
  wf (after_set_order_status t oid status message now) = true.
Proof.
  rewrite !wf_iff. intros (Hc & Ho & Hi & Hu & Hfc & Hfi & Hfu) Hoid.
  unfold after_set_order_status; simpl. repeat split; try assumption.
  - unfold restatus. rewrite ascending_map; [assumption|].
    intros o. destruct (o_id o =? oid); reflexivity.
  - apply ascending_snoc; [assumption|reflexivity].
  - unfold restatus. rewrite forallb_map_same; [exact Hfc|].
    intros o. destruct (o_id o =? oid); reflexivity.
  - revert Hfi. apply forallb_impl. intros i.
    unfold has_order; simpl. rewrite has_order_restatus. auto.
  - rewrite forallb_app. apply andb_true_iff. split.
    + revert Hfu. apply forallb_impl. intros u.
      unfold has_order; simpl. rewrite has_order_restatus. auto.
    + simpl. rewrite andb_true_r. unfold has_order; simpl.
      rewrite has_order_restatus. exact Hoid.
Qed.

End WellFormed.

(** ** One call seen from one order *)

Section Views.

Lemma find_snoc {A} (f : A -> bool) (l : list A) (x : A) :
  find f (l ++ [x])
  = match find f l with
    | Some y => Some y
    | None => if f x then Some x else None
    end.
Proof.
  induction l as [|y l IH]; simpl; [reflexivity|].
  destruct (f y); [reflexivity|exact IH].
Qed.

Lemma find_map_same {A} (f : A -> bool) (g : A -> A) (l : list A) :
  (forall x, f (g x) = f x) -> find f (map g l) = option_map g (find f l).
Proof.
  intros Hg. induction l as [|x l IH]; simpl; [reflexivity|].
  rewrite Hg. destruct (f x); [reflexivity|exact IH].
Qed.

Lemma existsb_find {A} (f : A -> bool) (l : list A) :
  existsb f l = match find f l with Some _ => true | None => false end.
Proof.
  induction l as [|x l IH]; simpl; [reflexivity|].
  destruct (f x); [reflexivity|exact IH].
Qed.

Lemma filter_comm {A} (f g : A -> bool) (l : list A) :
  filter f (filter g l) = filter g (filter f l).
Proof.
  induction l as [|x l IH]; simpl; [reflexivity|].
  destruct (g x) eqn:Eg, (f x) eqn:Ef; simpl; rewrite ?Eg, ?Ef, IH;
    reflexivity.
Qed.

Lemma has_order_row oid t :
  has_order t oid = match order_row oid t with Some _ => true | None => false end.
Proof. apply existsb_find. Qed.

Lemma order_row_id oid t row : order_row oid t = Some row -> o_id row = oid.
Proof.
  unfold order_row. intros H. apply find_some in H as [_ H]. lia.
Qed.

(** What [get_order] reads from well-formed tables. *)
Lemma select_order_wf oid t :
  wf t = true ->
  select_order oid t
  = match order_row oid t with
    | None => None
    | Some row => Some (mkPayload row (items_of oid t) (updates_of oid t))
    end.
Proof.
  rewrite wf_iff. intros (_ & _ & Hi & Hu & _).
  unfold select_order, order_row, items_of, updates_of.
  destruct (find _ (orders t)); [|reflexivity].
  rewrite (order_by_ascending oi_id 0 (seq_order_items t))
    by (apply ascending_filter; assumption).
  rewrite (order_by_ascending ou_id 0 (seq_order_updates t))
    by (apply ascending_filter; assumption).
  reflexivity.
Qed.

Lemma wf_order_id_le t oid :
  wf t = true -> has_order t oid = true -> 0 < oid <= seq_orders t.
Proof.
  rewrite wf_iff. intros (_ & Ho & _) H.
  apply ascending_bounds in Ho. rewrite Forall_forall in Ho.
  unfold has_order in H. apply existsb_exists in H as (o & Hin & Heq).
  apply Ho in Hin. lia.
Qed.

Lemma wf_step now later c t : wf t = true -> wf (step now later c t) = true.
Proof.
  intros H. destruct c; simpl.
  - apply wf_after_create_customer. assumption.
  - destruct (fk_customer t customer_id) eqn:E; [|assumption].
    apply wf_after_create_order; assumption.
  - destruct (has_order t order_id) eqn:E; [|assumption].
    apply wf_after_add_order_item; assumption.
  - apply wf_after_remove_order_item. assumption.
  - destruct (has_order t order_id) eqn:E; [|assumption].
    apply wf_after_set_order_status; assumption.
Qed.

Lemma has_order_step now later c t oid :
  has_order t oid = true -> has_order (step now later c t) oid = true.
Proof.
  intros H. destruct c; simpl; try assumption.
  - destruct (fk_customer t customer_id); [|assumption].
    unfold has_order; simpl. rewrite existsb_app.
    unfold has_order in H. rewrite H. reflexivity.
  - destruct (has_order t order_id); [|assumption].
    unfold has_order; simpl. rewrite has_order_touch. exact H.
  - destruct (has_order t order_id); [|assumption].
    unfold has_order; simpl. rewrite has_order_restatus. exact H.
Qed.

(** The audit rows of an order only grow, by the rows of the status
    changes of that order. *)
Lemma updates_of_step now later c t oid :
  wf t = true -> has_order t oid = true ->
  updates_of oid (step now later c t)
  = updates_of oid t ++ appended oid now c t.
Proof.
  intros Hwf H. destruct c; simpl; try (rewrite app_nil_r; reflexivity).
  - destruct (fk_customer t customer_id); [|rewrite app_nil_r; reflexivity].
    unfold updates_of; simpl. rewrite filter_app. simpl.
    pose proof (wf_order_id_le t oid Hwf H) as Hle.
    destruct (seq_orders t + 1 =? oid) eqn:E; [lia|reflexivity].
  - destruct (has_order t order_id); rewrite app_nil_r; reflexivity.
  - destruct (has_order t order_id) eqn:E.
    + unfold updates_of; simpl. rewrite filter_app. simpl.
      destruct (order_id =? oid) eqn:E'; [|reflexivity].
      apply Z.eqb_eq in E'. subst order_id. reflexivity.
    + destruct (order_id =? oid) eqn:E'; [|rewrite app_nil_r; reflexivity].
      apply Z.eqb_eq in E'. subst order_id. congruence.
Qed.

(** The status of an order is that of the last status change of that
    order, and no other call touches it. *)
Lemma current_status_step now later c t oid :
  has_order t oid = true ->
  current_status oid (step now later c t)
  = match c with
    | SetOrderStatus o status _ =>
        if o =? oid then Some status else current_status oid t
    | _ => current_status oid t
    end.
Proof.
  intros H. rewrite has_order_row in H. unfold current_status.
  destruct (order_row oid t) as [row|] eqn:Hrow; [|discriminate].
  pose proof (order_row_id _ _ _ Hrow) as Hid.
  unfold order_row in *. destruct c; simpl; try (rewrite Hrow; reflexivity).
  - destruct (fk_customer t customer_id); simpl; [|rewrite Hrow; reflexivity].
    rewrite find_snoc, Hrow. reflexivity.
  - destruct (has_order t order_id); simpl; [|rewrite Hrow; reflexivity].
    unfold touch. rewrite find_map_same, Hrow.
    + simpl. destruct (o_id row =? order_id); reflexivity.
    + intros o. destruct (o_id o =? order_id); reflexivity.
  - destruct (has_order t order_id) eqn:E; simpl.
    + unfold restatus. rewrite find_map_same, Hrow.
      * simpl. rewrite Hid, (Z.eqb_sym oid order_id).
        destruct (order_id =? oid); reflexivity.
      * intros o. destruct (o_id o =? order_id); reflexivity.
    + rewrite Hrow. destruct (order_id =? oid) eqn:E'; [|reflexivity].
      apply Z.eqb_eq in E'. subst order_id.
      rewrite has_order_row in E. unfold order_row in E.
      rewrite Hrow in E. discriminate.
Qed.

(** The items of an order change by the items added to it and the item
    removed. *)
Lemma items_of_step now later c t oid :
  items_of oid (step now later c t)
  = match c with
    | AddOrderItem o ty iid name qty price size =>
        if has_order t o && (o =? oid)
        then items_of oid t
               ++ [added_item t o ty iid name qty price size now]
        else items_of oid t
    | RemoveOrderItem id =>
        filter (fun i => negb (oi_id i =? id)) (items_of oid t)
    | _ => items_of oid t
    end.
Proof.
  destruct c; simpl; try reflexivity.
  - destruct (fk_customer t customer_id); reflexivity.
  - destruct (has_order t order_id); simpl; [|reflexivity].
    unfold items_of; simpl. rewrite filter_app. simpl.
    destruct (order_id =? oid); [reflexivity|apply app_nil_r].
  - unfold items_of, after_remove_order_item; simpl. apply filter_comm.
  - destruct (has_order t order_id); reflexivity.
Qed.

End Views.

(** ** Sequences of calls *)

Section Calls.

Lemma run_call_tables c w :
  tables (run_call c w)
  = step (now_of w) (clock w (S (ticks w))) c (tables w).
Proof.
  destruct c; unfold run_call, step.
  - rewrite create_customer_run. reflexivity.
  - destruct (fk_customer (tables w) customer_id) eqn:E.
    + rewrite create_order_present by assumption. reflexivity.
    + rewrite create_order_absent by assumption. reflexivity.
  - destruct (has_order (tables w) order_id) eqn:E.
    + rewrite add_order_item_present by assumption. reflexivity.
    + rewrite add_order_item_absent by assumption. reflexivity.
  - rewrite remove_order_item_run. reflexivity.
  - destruct (has_order (tables w) order_id) eqn:E.
    + rewrite set_order_status_present by assumption. reflexivity.
    + rewrite set_order_status_absent by assumption. reflexivity.
Qed.

Lemma run_calls_app cs cs' w :
  run_calls (cs ++ cs') w = run_calls cs' (run_calls cs w).
Proof. apply fold_left_app. Qed.

Lemma wf_run_calls cs w :
  wf (tables w) = true -> wf (tables (run_calls cs w)) = true.
Proof.
  revert w. induction cs as [|c cs IH]; simpl; intros w H; [assumption|].
  apply IH. rewrite run_call_tables. apply wf_step. assumption.
Qed.

Lemma has_order_run_calls cs w oid :
  has_order (tables w) oid = true ->
  has_order (tables (run_calls cs w)) oid = true.
Proof.
  revert w. induction cs as [|c cs IH]; simpl; intros w H; [assumption|].
  apply IH. rewrite run_call_tables. apply has_order_step. assumption.
Qed.

Lemma audit_entry_appended oid now c t :
  map audit_entry (appended oid now c t) = status_calls oid [c].
Proof.
  destruct c; simpl; try reflexivity.
  destruct (order_id =? oid); reflexivity.
Qed.

Lemma status_calls_cons oid c cs :
  status_calls oid (c :: cs) = status_calls oid [c] ++ status_calls oid cs.
Proof.
  destruct c; simpl; try reflexivity.
  destruct (order_id =? oid); reflexivity.
Qed.

(** The audit rows of an order after a sequence of calls: the rows it
    had, then one row for each status change of that order. *)
Lemma updates_of_run_calls cs w oid :
  wf (tables w) = true -> has_order (tables w) oid = true ->
  exists more,
    updates_of oid (tables (run_calls cs w))
    = updates_of oid (tables w) ++ more
    /\ map audit_entry more = status_calls oid cs.
Proof.
  revert w. induction cs as [|c cs IH]; simpl run_calls; intros w Hwf H.
  - exists []. rewrite app_nil_r. split; reflexivity.
  - destruct (IH (run_call c w)) as (more & Hmore & Hent).
    + rewrite run_call_tables. apply wf_step. assumption.
    + rewrite run_call_tables. apply has_order_step. assumption.
    + rewrite run_call_tables in Hmore.
      rewrite updates_of_step in Hmore by assumption.
      exists (appended oid (now_of w) c (tables w) ++ more). split.
      * rewrite Hmore, app_assoc. reflexivity.
      * rewrite map_app, audit_entry_appended, Hent.
        symmetry. apply status_calls_cons.
Qed.

Lemma current_status_run_calls cs w oid :
  has_order (tables w) oid = true ->
  current_status oid (tables (run_calls cs w))
  = fold_left (fun _ e => Some (fst e)) (status_calls oid cs)
      (current_status oid (tables w)).
Proof.
  revert w. induction cs as [|c cs IH]; simpl run_calls; intros w H.
  - reflexivity.
  - rewrite IH by (rewrite run_call_tables; apply has_order_step; assumption).
    rewrite run_call_tables, current_status_step by assumption.
    destruct c; simpl; try reflexivity.
    destruct (order_id =? oid); reflexivity.
Qed.

Lemma last_status_snoc us u : last_status (us ++ [u]) = Some (ou_status u).
Proof. unfold last_status. rewrite rev_unit. reflexivity. Qed.

Lemma last_status_app us more :
  last_status (us ++ more)
  = fold_left (fun _ e => Some (fst e)) (map audit_entry more) (last_status us).
Proof.
  revert us. induction more as [|u more IH]; intros us; simpl.
  - rewrite app_nil_r. reflexivity.
  - change (u :: more) with ([u] ++ more). rewrite app_assoc, IH.
    rewrite last_status_snoc. reflexivity.
Qed.

(** A new order id is referenced by no row yet. *)
Lemma fresh_order_unreferenced t :
  wf t = true ->
  order_row (seq_orders t + 1) t = None
  /\ items_of (seq_orders t + 1) t = []
  /\ updates_of (seq_orders t + 1) t = [].
Proof.
  intros Hwf.
  assert (Hno : has_order t (seq_orders t + 1) = false).
  { destruct (has_order t (seq_orders t + 1)) eqn:E; [|reflexivity].
    apply (wf_order_id_le t _ Hwf) in E. lia. }
  apply wf_iff in Hwf as (_ & _ & _ & _ & _ & Hfi & Hfu).
  split; [|split].
  - rewrite has_order_row in Hno.
    destruct (order_row _ t); [discriminate|reflexivity].
  - unfold items_of. induction (order_items t) as [|i l IH]; [reflexivity|].
    simpl in *. apply andb_true_iff in Hfi as [H1 H2].
    destruct (oi_order_id i =? seq_orders t + 1) eqn:E; [|auto].
    apply Z.eqb_eq in E. congruence.
  - unfold updates_of. induction (order_updates t) as [|u l IH]; [reflexivity|].
    simpl in *. apply andb_true_iff in Hfu as [H1 H2].
    destruct (ou_order_id u =? seq_orders t + 1) eqn:E; [|auto].
    apply Z.eqb_eq in E. congruence.
Qed.

(** The order [create_order] has just made. *)
Lemma created_order_views t cid dt address notes now :
  wf t = true ->
  let t' := after_create_order t cid dt address notes now in
  let oid := seq_orders t + 1 in
  order_row oid t' = Some (created_order t cid dt address notes now)
  /\ items_of oid t' = []
  /\ updates_of oid t' = [creation_row t now]
  /\ has_order t' oid = true.
Proof.
  intros Hwf t' oid.
  destruct (fresh_order_unreferenced t Hwf) as (Hrow & Hit & Hup).
  unfold order_row, items_of, updates_of in *. subst t' oid. simpl.
  repeat split.
  - rewrite find_snoc, Hrow. simpl. rewrite Z.eqb_refl. reflexivity.
  - exact Hit.
  - rewrite filter_app, Hup. simpl. rewrite Z.eqb_refl. reflexivity.
  - unfold has_order; simpl. apply has_order_snoc. reflexivity.
Qed.

Lemma create_order_ok w cid dt address notes oid w1 :
  create_order cid dt address notes w = (Ok oid, w1) ->
  fk_customer (tables w) cid = true
  /\ oid = seq_orders (tables w) + 1
  /\ w1 = committed_world
            (after_create_order (tables w) cid dt address notes (now_of w)) 1 w.
Proof.
  intros H. destruct (fk_customer (tables w) cid) eqn:E.
  - rewrite create_order_present in H by assumption.
    inversion H. auto.
  - rewrite create_order_absent in H by assumption. discriminate.
Qed.

End Calls.

(** ** The audit log of an order *)

Section AuditLog.

Lemma get_order_run oid w :
  get_order oid w = (Ok (select_order oid (tables w)), w).
Proof. reflexivity. Qed.

Lemma get_order_present oid w :
  wf (tables w) = true -> has_order (tables w) oid = true ->
  exists row,
    order_row oid (tables w) = Some row
    /\ get_order oid w
       = (Ok (Some (mkPayload row (items_of oid (tables w))
                      (updates_of oid (tables w)))), w).
Proof.
  intros Hwf H. rewrite has_order_row in H.
  destruct (order_row oid (tables w)) as [row|] eqn:E; [|discriminate].
  exists row. split; [reflexivity|].
  rewrite get_order_run, select_order_wf, E by assumption. reflexivity.
Qed.

Lemma get_order_absent oid w :
  has_order (tables w) oid = false -> get_order oid w = (Ok None, w).
Proof.
  intros H. rewrite get_order_run. unfold select_order.
  rewrite has_order_row in H. unfold order_row in H.
  destruct (find _ (orders (tables w))); [discriminate|reflexivity].
Qed.

End AuditLog.

(** C2.  After [create_order] and any sequence of calls of the store, [N]
    of which are [set_order_status] on the new order, [get_order] returns
    an audit log of [N + 1] rows: the creation row, status draft, then one
    row for each of these calls, in order; the status of the order is the
    status of the last row; later calls only append to the log. *)
Theorem audit_log_after_create_order w cid dt address notes oid w1 cs :
  wf (tables w) = true ->
  create_order cid dt address notes w = (Ok oid, w1) ->
  exists p,
    get_order oid (run_calls cs w1) = (Ok (Some p), run_calls cs w1)
    /\ map audit_entry (p_updates p)
       = ("draft", Some "Order created") :: status_calls oid cs
    /\ List.length (p_updates p) = S (List.length (status_calls oid cs))
    /\ last_status (p_updates p) = Some (o_status (p_order p))
    /\ forall cs', exists p' more,
         get_order oid (run_calls (cs ++ cs') w1)
         = (Ok (Some p'), run_calls (cs ++ cs') w1)
         /\ p_updates p' = p_updates p ++ more.
Proof.
  intros Hwf Hcreate.
  apply create_order_ok in Hcreate as (Hfk & -> & ->).
  set (t1 := after_create_order (tables w) cid dt address notes (now_of w)).
  set (oid := seq_orders (tables w) + 1).
  set (w1 := committed_world t1 1 w).
  assert (Ht1 : tables w1 = t1) by reflexivity.
  assert (Hwf1 : wf (tables w1) = true).
  { rewrite Ht1. apply wf_after_create_order; assumption. }
  destruct (created_order_views (tables w) cid dt address notes (now_of w) Hwf)
    as (Hrow1 & _ & Hup1 & Hhas1).
  fold t1 oid in Hrow1, Hup1, Hhas1. rewrite <- Ht1 in Hrow1, Hup1, Hhas1.
  pose proof (wf_run_calls cs w1 Hwf1) as Hwf2.
  pose proof (has_order_run_calls cs w1 oid Hhas1) as Hhas2.
  destruct (get_order_present oid _ Hwf2 Hhas2) as (row & Hrow & Hget).
  destruct (updates_of_run_calls cs w1 oid Hwf1 Hhas1) as (more & Hmore & Hent).
  rewrite Hup1 in Hmore.
  assert (Hmap : map audit_entry (updates_of oid (tables (run_calls cs w1)))
                 = ("draft", Some "Order created") :: status_calls oid cs).
  { rewrite Hmore. simpl. rewrite Hent. reflexivity. }
  eexists. split; [exact Hget|]. simpl. repeat split.
  - exact Hmap.
  - rewrite <- (length_map audit_entry), Hmap. reflexivity.
  - rewrite Hmore, last_status_app, Hent. simpl.
    pose proof (current_status_run_calls cs w1 oid Hhas1) as Hst.
    unfold current_status in Hst. rewrite Hrow, Hrow1 in Hst. simpl in Hst.
    unfold last_status. simpl. congruence.
  - intros cs'. rewrite run_calls_app.
    pose proof (wf_run_calls cs' _ Hwf2) as Hwf3.
    pose proof (has_order_run_calls cs' _ oid Hhas2) as Hhas3.
    destruct (get_order_present oid _ Hwf3 Hhas3) as (row' & _ & Hget').
    destruct (updates_of_run_calls cs' _ oid Hwf2 Hhas2) as (more' & Hmore' & _).
    eexists. exists more'. split; [exact Hget'|]. simpl. exact Hmore'.
Qed.

(** With a status and a message of the model of [PyStr],
    [set_order_status] writes both rows or none: on an order of the store
    it returns, the order row carries the new status and time, one audit
    row is appended and both are committed; on any other id it raises and
    the tables, current and committed, are as before. *)
Lemma set_order_status_bound w oid status message :
  let r := fst (set_order_status oid status message w) in
  let w' := snd (set_order_status oid status message w) in
  (r = Ok tt
   /\ has_order (tables w) oid = true
   /\ orders (tables w') = restatus status (now_of w) oid (orders (tables w))
   /\ option_map (fun o => (o_status o, o_updated_at o)) (order_row oid (tables w'))
      = Some (status, now_of w)
   /\ order_updates (tables w')
      = order_updates (tables w)
        ++ [mkOrderUpdate (seq_order_updates (tables w) + 1) oid status message
              (now_of w)]
   /\ customers (tables w') = customers (tables w)
   /\ order_items (tables w') = order_items (tables w)
   /\ committed (conn w') = tables w')
  \/ (r = Raise fk_failed
      /\ has_order (tables w) oid = false
      /\ tables w' = tables w
      /\ committed (conn w') = committed (conn w)).
Proof.
  intros r w'. subst r w'.
  destruct (has_order (tables w) oid) eqn:E.
  - left. rewrite set_order_status_present by assumption. simpl.
    repeat split.
    rewrite has_order_row in E.
    destruct (order_row oid (tables w)) as [row|] eqn:Hrow; [|discriminate].
    pose proof (order_row_id _ _ _ Hrow) as Hid.
    unfold order_row in *.
    unfold committed_world, after_set_order_status, tables at 1.
    cbn [conn current orders]. unfold restatus.
    rewrite find_map_same, Hrow.
    + simpl. rewrite Hid, Z.eqb_refl. reflexivity.
    + intros o. destruct (o_id o =? oid) eqn:E'; simpl; rewrite ?E'; reflexivity.
  - right. rewrite set_order_status_absent by assumption. simpl.
    repeat split.
Qed.

(** C6.  [add_order_item] for an order id the store does not have raises
    the foreign-key error of the storage layer, the "referenced id absent"
    kind, and leaves every table as it was: no item row, no new time on
    any order, nothing committed. *)
Theorem add_order_item_unknown_order w oid ty iid name qty price size :
  has_order (tables w) oid = false ->
  let r := fst (add_order_item oid ty iid name qty price size w) in
  let w' := snd (add_order_item oid ty iid name qty price size w) in
  r = Raise (IntegrityError "FOREIGN KEY constraint failed")
  /\ (forall e, r = Raise e -> error_kind e = NotFoundError)
  /\ tables w' = tables w
  /\ order_items (tables w') = order_items (tables w)
  /\ orders (tables w') = orders (tables w)
  /\ committed (conn w') = committed (conn w).
Proof.
  intros H r w'. subst r w'.
  rewrite add_order_item_absent by assumption. simpl.
  repeat split. intros e He. inversion He. reflexivity.
Qed.

Lemma add_order_item_unknown_order_witness :
  has_order (tables new_world) 7 = false
  /\ fst (add_order_item 7 "pizza" "margherita" "Margherita" 2 800
           (Some "medium") new_world)
     = Raise (IntegrityError "FOREIGN KEY constraint failed")
  /\ tables (snd (add_order_item 7 "pizza" "margherita" "Margherita" 2 800
                    (Some "medium") new_world))
     = tables new_world.
Proof.
  split; [reflexivity|].
  pose proof (add_order_item_unknown_order new_world 7 "pizza" "margherita"
                "Margherita" 2 800 (Some "medium") eq_refl) as H.
  simpl in H. destruct H as (H1 & _ & H2 & _). split; assumption.
Defined.

(** ** Removing an item *)

Section Removal.

Lemma filter_idem {A} (f : A -> bool) (l : list A) :
  filter f (filter f l) = filter f l.
Proof.
  induction l as [|x l IH]; simpl; [reflexivity|].
  destruct (f x) eqn:E; simpl; rewrite ?E, IH; reflexivity.
Qed.

Lemma filter_absent (id : Z) (l : list OrderItem) :
  existsb (fun i => oi_id i =? id) l = false ->
  filter (fun i => negb (oi_id i =? id)) l = l.
Proof.
  induction l as [|x l IH]; simpl; [reflexivity|].
  intros H. apply orb_false_iff in H as [H1 H2].
  rewrite H1, IH by assumption. reflexivity.
Qed.

Lemma with_order_items_same t : with_order_items t (order_items t) = t.
Proof. destruct t; reflexivity. Qed.

Lemma after_remove_absent t id :
  has_item t id = false -> after_remove_order_item t id = t.
Proof.
  intros H. unfold after_remove_order_item.
  rewrite filter_absent by exact H. apply with_order_items_same.
Qed.

Lemma after_remove_twice t id :
  after_remove_order_item (after_remove_order_item t id) id
  = after_remove_order_item t id.
Proof.
  unfold after_remove_order_item, with_order_items; simpl.
  rewrite filter_idem. reflexivity.
Qed.

Lemma wf_item_id_le t id :
  wf t = true -> has_item t id = true -> id <= seq_order_items t.
Proof.
  rewrite wf_iff. intros (_ & _ & Hi & _) H.
  apply ascending_bounds in Hi. rewrite Forall_forall in Hi.
  apply existsb_exists in H as (i & Hin & Heq).
  apply Hi in Hin. lia.
Qed.

Lemma retired_step now later c t id :
  retired id t -> retired id (step now later c t).
Proof.
  intros [Hle Hno]. destruct c; simpl; try (split; assumption).
  - destruct (fk_customer t customer_id); split; assumption.
  - destruct (has_order t order_id); [|split; assumption].
    split; simpl; [lia|]. unfold has_item; simpl.
    rewrite existsb_app. unfold has_item in Hno. rewrite Hno. simpl.
    rewrite orb_false_r. apply Z.eqb_neq. lia.
  - split; [assumption|]. unfold has_item, after_remove_order_item; simpl.
    unfold has_item in Hno.
    induction (order_items t) as [|i l IH]; simpl in *; [reflexivity|].
    apply orb_false_iff in Hno as [H1 H2].
    destruct (oi_id i =? order_item_id); simpl; rewrite ?H1; auto.
  - destruct (has_order t order_id); split; assumption.
Qed.

Lemma retired_run_calls cs w id :
  retired id (tables w) -> retired id (tables (run_calls cs w)).
Proof.
  revert w. induction cs as [|c cs IH]; simpl; intros w H; [assumption|].
  apply IH. rewrite run_call_tables. apply retired_step. assumption.
Qed.

Lemma retired_after_remove t id :
  wf t = true -> has_item t id = true ->
  retired id (after_remove_order_item t id).
Proof.
  intros Hwf H. split.
  - simpl. apply wf_item_id_le; assumption.
  - unfold has_item, after_remove_order_item; simpl. clear.
    induction (order_items t) as [|i l IH]; simpl; [reflexivity|].
    destruct (oi_id i =? id) eqn:E; simpl; rewrite ?E; exact IH.
Qed.

Lemma select_order_after_remove t id oid :
  wf t = true ->
  select_order oid (after_remove_order_item t id)
  = option_map (without_item id) (select_order oid t).
Proof.
  intros Hwf.
  rewrite !select_order_wf
    by (try apply wf_after_remove_order_item; assumption).
  change (order_row oid (after_remove_order_item t id)) with (order_row oid t).
  destruct (order_row oid t); [|reflexivity].
  simpl. unfold without_item; simpl.
  change (after_remove_order_item t id)
    with (step "" "" (RemoveOrderItem id) t).
  rewrite items_of_step. reflexivity.
Qed.

End Removal.

(** C7.  [remove_order_item] always returns.  With no item of that id it
    leaves the tables as they are.  After it, [get_order] on any order
    returns what it returned before with that item left out and all else
    the same, and the item id of a removed item is in no answer of
    [get_order] whatever calls follow.  Removing the same id again
    changes nothing more. *)
Theorem remove_order_item_idempotent w id :
  wf (tables w) = true ->
  let w' := snd (remove_order_item id w) in
  fst (remove_order_item id w) = Ok tt
  /\ (has_item (tables w) id = false -> tables w' = tables w)
  /\ (forall oid,
        get_order oid w'
        = (Ok (option_map (without_item id) (select_order oid (tables w))), w'))
  /\ (has_item (tables w) id = true ->
      forall cs oid p,
        fst (get_order oid (run_calls cs w')) = Ok (Some p) ->
        ~ In id (map oi_id (p_items p)))
  /\ remove_order_item id w' = (Ok tt, w').
Proof.
  intros Hwf w'. subst w'. rewrite remove_order_item_run. simpl fst. simpl snd.
  set (w' := committed_world (after_remove_order_item (tables w) id) 0 w).
  assert (Ht : tables w' = after_remove_order_item (tables w) id) by reflexivity.
  split; [reflexivity|]. split; [|split; [|split]].
  - intros H. rewrite Ht. apply after_remove_absent. assumption.
  - intros oid. rewrite get_order_run, Ht, select_order_after_remove by assumption.
    reflexivity.
  - intros Hhas cs oid p Hget.
    assert (Hret : retired id (tables (run_calls cs w'))).
    { apply retired_run_calls. rewrite Ht.
      apply retired_after_remove; assumption. }
    assert (Hwf' : wf (tables (run_calls cs w')) = true).
    { apply wf_run_calls. rewrite Ht.
      apply wf_after_remove_order_item. assumption. }
    change (Ok (select_order oid (tables (run_calls cs w'))) = Ok (Some p))
      in Hget.
    rewrite select_order_wf in Hget by assumption.
    destruct (order_row oid (tables (run_calls cs w'))); [|discriminate].
    inversion Hget; subst p; simpl. clear Hget.
    destruct Hret as [_ Hno]. unfold has_item in Hno.
    intros Hin. apply in_map_iff in Hin as (i & Hid & Hin).
    unfold items_of in Hin. apply filter_In in Hin as [Hin _].
    assert (existsb (fun i => oi_id i =? id)
              (order_items (tables (run_calls cs w'))) = true).
    { apply existsb_exists. exists i. split; [assumption|lia]. }
    congruence.
  - rewrite remove_order_item_run. rewrite Ht, after_remove_twice.
    reflexivity.
Qed.

Lemma remove_order_item_idempotent_witness :
  wf (tables stocked_world) = true
  /\ has_item (tables stocked_world) 1 = true
  /\ fst (remove_order_item 1 stocked_world) = Ok tt
  /\ forall cs oid p,
       fst (get_order oid (run_calls cs (snd (remove_order_item 1 stocked_world))))
       = Ok (Some p) ->
       ~ In 1 (map oi_id (p_items p)).
Proof.
  split; [reflexivity|]. split; [reflexivity|].
  pose proof (remove_order_item_idempotent stocked_world 1 eq_refl) as H.
  cbv zeta in H. destruct H as (H1 & _ & _ & H4 & _).
  split; [exact H1|exact (H4 eq_refl)].
Defined.

Lemma audit_log_after_create_order_witness :
  wf (tables stocked_world) = true
  /\ exists p,
       get_order 2
         (run_calls [SetOrderStatus 2 "placed" None; RemoveOrderItem 1;
                     SetOrderStatus 2 "baking" (Some "in the oven")]
            (snd (create_order None "delivery" None None stocked_world)))
       = (Ok (Some p),
          run_calls [SetOrderStatus 2 "placed" None; RemoveOrderItem 1;
                     SetOrderStatus 2 "baking" (Some "in the oven")]
            (snd (create_order None "delivery" None None stocked_world)))
       /\ List.length (p_updates p) = 3%nat
       /\ last_status (p_updates p) = Some (o_status (p_order p)).
Proof.
  split; [reflexivity|].
  destruct (audit_log_after_create_order stocked_world None "delivery" None None
              2 (snd (create_order None "delivery" None None stocked_world))
              [SetOrderStatus 2 "placed" None; RemoveOrderItem 1;
               SetOrderStatus 2 "baking" (Some "in the oven")]
              eq_refl eq_refl) as (p & H1 & _ & H3 & H4 & _).
  exists p. split; [exact H1|]. split; [exact H3|exact H4].
Defined.

(** ** Catalog lookups *)

Section Lookups.

Import PyStr.

Lemma is_space_lower_char c : is_space (lower_char c) = is_space c.
Proof. destruct c as [[] [] [] [] [] [] [] []]; reflexivity. Qed.

Lemma lower_char_swap_char c : lower_char (swap_char c) = lower_char c.
Proof. destruct c as [[] [] [] [] [] [] [] []]; reflexivity. Qed.

Lemma lower_char_upper_char c : lower_char (upper_char c) = lower_char c.
Proof. destruct c as [[] [] [] [] [] [] [] []]; reflexivity. Qed.

Lemma lower_char_idem c : lower_char (lower_char c) = lower_char c.
Proof. destruct c as [[] [] [] [] [] [] [] []]; reflexivity. Qed.

Lemma lower_recase mask s : lower (recase mask s) = lower s.
Proof.
  revert mask. induction s as [|c s IH]; intros mask;
    destruct mask as [|b mask]; try reflexivity. simpl.
  rewrite IH. destruct b; [rewrite lower_char_swap_char|]; reflexivity.
Qed.

Lemma lower_upper s : lower (upper s) = lower s.
Proof.
  induction s as [|c s IH]; simpl; [reflexivity|].
  rewrite lower_char_upper_char, IH. reflexivity.
Qed.

Lemma lower_idem s : lower (lower s) = lower s.
Proof.
  induction s as [|c s IH]; simpl; [reflexivity|].
  rewrite lower_char_idem, IH. reflexivity.
Qed.

Lemma lstrip_lower s : lstrip (lower s) = lower (lstrip s).
Proof.
  induction s as [|c s IH]; simpl; [reflexivity|].
  rewrite is_space_lower_char. destruct (is_space c); [exact IH|reflexivity].
Qed.

Lemma rstrip_lower s : rstrip (lower s) = lower (rstrip s).
Proof.
  induction s as [|c s IH]; simpl; [reflexivity|].
  rewrite IH, is_space_lower_char.
  destruct (rstrip s); simpl; [destruct (is_space c)|]; reflexivity.
Qed.

(** Trimming and lower-casing commute. *)
Lemma strip_lower s : strip (lower s) = lower (strip s).
Proof. unfold strip. rewrite lstrip_lower, rstrip_lower. reflexivity. Qed.

Lemma lstrip_all_space l s : all_space l = true -> lstrip (l ++ s) = lstrip s.
Proof.
  induction l as [|c l IH]; simpl; [reflexivity|].
  intros H. apply andb_true_iff in H as [H1 H2]. rewrite H1. auto.
Qed.

Lemma rstrip_all_space r : all_space r = true -> rstrip r = "".
Proof.
  induction r as [|c r IH]; simpl; [reflexivity|].
  intros H. apply andb_true_iff in H as [H1 H2].
  rewrite (IH H2), H1. reflexivity.
Qed.

Lemma rstrip_app_all_space s r :
  all_space r = true -> rstrip (s ++ r) = rstrip s.
Proof.
  intros H. induction s as [|c s IH]; simpl.
  - apply rstrip_all_space. assumption.
  - rewrite IH. reflexivity.
Qed.

Lemma lstrip_all_space_nil r : all_space r = true -> lstrip r = "".
Proof.
  induction r as [|c r IH]; simpl; [reflexivity|].
  intros H. apply andb_true_iff in H as [H1 H2]. rewrite H1. auto.
Qed.

Lemma strip_app_all_space s r :
  all_space r = true -> strip (s ++ r) = strip s.
Proof.
  intros H. unfold strip. induction s as [|c s IH]; simpl.
  - rewrite lstrip_all_space_nil by assumption. reflexivity.
  - destruct (is_space c); [exact IH|].
    apply (rstrip_app_all_space (String c s)). assumption.
Qed.

(** White space around a string is lost in trimming. *)
Lemma strip_padded l s r :
  all_space l = true -> all_space r = true -> strip (l ++ s ++ r) = strip s.
Proof.
  intros Hl Hr. unfold strip. rewrite lstrip_all_space by assumption.
  apply strip_app_all_space. assumption.
Qed.

(** The key a lookup compares with is the same for a query in another
    case. *)
Lemma lookup_key_recase mask s :
  lower (strip (recase mask s)) = lower (strip s).
Proof. rewrite <- !strip_lower, lower_recase. reflexivity. Qed.

End Lookups.

(** C8.  [find_pizza] and [find_extra] return the first entry whose
    identifier, in lower case, is the query trimmed and in lower case, and
    [None] when there is none; the answer is the same for a query in
    another case and for a query with white space around it, so
    "MARGHERITA" and "margherita" find the same entry. *)
Theorem find_case_and_space_insensitive (menu : Menu.Menu) :
  (forall q,
     match Menu.find_pizza menu q with
     | Some p =>
         In p (Menu.pizzas menu)
         /\ PyStr.lower (Menu.pizza_id p) = PyStr.lower (PyStr.strip q)
     | None =>
         forall p, In p (Menu.pizzas menu) ->
                   PyStr.lower (Menu.pizza_id p) <> PyStr.lower (PyStr.strip q)
     end)
  /\ (forall q,
        match Menu.find_extra menu q with
        | Some e =>
            In e (Menu.extras menu)
            /\ PyStr.lower (Menu.extra_id e) = PyStr.lower (PyStr.strip q)
        | None =>
            forall e, In e (Menu.extras menu) ->
                      PyStr.lower (Menu.extra_id e) <> PyStr.lower (PyStr.strip q)
        end)
  /\ Menu.find_pizza menu "MARGHERITA" = Menu.find_pizza menu "margherita"
  /\ (forall mask q,
        Menu.find_pizza menu (PyStr.recase mask q) = Menu.find_pizza menu q
        /\ Menu.find_extra menu (PyStr.recase mask q) = Menu.find_extra menu q)
  /\ (forall q,
        Menu.find_pizza menu (PyStr.upper q) = Menu.find_pizza menu q
        /\ Menu.find_pizza menu (PyStr.lower q) = Menu.find_pizza menu q
        /\ Menu.find_extra menu (PyStr.upper q) = Menu.find_extra menu q
        /\ Menu.find_extra menu (PyStr.lower q) = Menu.find_extra menu q)
  /\ (forall l q r,
        PyStr.all_space l = true -> PyStr.all_space r = true ->
        Menu.find_pizza menu (l ++ q ++ r)%string = Menu.find_pizza menu q
        /\ Menu.find_extra menu (l ++ q ++ r)%string = Menu.find_extra menu q).
Proof.
  split; [|split; [|split; [|split; [|split]]]].
  - intros q. unfold Menu.find_pizza.
    destruct (find _ (Menu.pizzas menu)) as [p|] eqn:E.
    + apply find_some in E as [Hin Heq]. split; [assumption|].
      apply String.eqb_eq. assumption.
    + intros p Hin Heq. apply (find_none _ _ E) in Hin.
      apply String.eqb_eq in Heq. congruence.
  - intros q. unfold Menu.find_extra.
    destruct (find _ (Menu.extras menu)) as [e|] eqn:E.
    + apply find_some in E as [Hin Heq]. split; [assumption|].
      apply String.eqb_eq. assumption.
    + intros e Hin Heq. apply (find_none _ _ E) in Hin.
      apply String.eqb_eq in Heq. congruence.
  - reflexivity.
  - intros mask q. unfold Menu.find_pizza, Menu.find_extra.
    rewrite lookup_key_recase. split; reflexivity.
  - intros q. unfold Menu.find_pizza, Menu.find_extra.
    rewrite <- !strip_lower, lower_upper, lower_idem. repeat split.
  - intros l q r Hl Hr. unfold Menu.find_pizza, Menu.find_extra.
    rewrite strip_padded by assumption. split; reflexivity.
Qed.

Lemma find_case_and_space_insensitive_witness :
  PyStr.all_space " " = true
  /\ Menu.find_pizza small_menu " MARGHERITA " = Menu.find_pizza small_menu "MARGHERITA".
Proof.
  split; [reflexivity|].
  destruct (find_case_and_space_insensitive small_menu) as (_ & _ & _ & _ & _ & H).
  exact (proj1 (H " " "MARGHERITA" " " eq_refl eq_refl)).
Defined.

(** ** Checkout *)

Section Checkout.

Variable menu : Menu.Menu.

Lemma fold_left_items_sum items acc :
  fold_left (fun a item => a + oi_qty item * oi_unit_price item) items acc
  = acc + items_sum items.
Proof.
  revert acc. induction items as [|i items IH]; simpl; intros acc; [lia|].
  rewrite IH. lia.
Qed.

(** [compute_totals] by the sum of its items and the rounded product. *)
Lemma compute_totals_eq items fee tp :
  compute_totals items fee tp
  = match rounded_product (items_sum items) tp with
    | Raise e => Raise e
    | Ok tax =>
        Ok (mkOrderTotals (items_sum items) fee tax (items_sum items + fee + tax))
    end.
Proof.
  unfold compute_totals, rounded_product.
  rewrite fold_left_items_sum, Z.add_0_l.
  destruct (PyFloat.of_int (items_sum items)); reflexivity.
Qed.

Lemma select_order_has_order oid t p :
  select_order oid t = Some p -> has_order t oid = true.
Proof.
  unfold select_order. rewrite has_order_row. unfold order_row.
  destruct (find _ (orders t)); [reflexivity|discriminate].
Qed.

Lemma select_order_none oid t :
  select_order oid t = None -> has_order t oid = false.
Proof.
  unfold select_order. rewrite has_order_row. unfold order_row.
  destruct (find _ (orders t)); [discriminate|reflexivity].
Qed.

(** The four ways [checkout] ends. *)
Lemma checkout_cases oid w :
  Agent.checkout menu oid w
  = match select_order oid (tables w) with
    | None => (Raise (ValueError "Order not found"), w)
    | Some p =>
        match p_items p with
        | [] => (Raise (ValueError "Order has no items"), w)
        | _ :: _ =>
            match compute_totals (p_items p) (checkout_fee menu (p_order p))
                    (Menu.tax_percent menu) with
            | Raise e => (Raise e, w)
            | Ok totals =>
                let w1 :=
                  committed_world
                    (after_set_order_status (tables w) oid "placed"
                       (Some "Order placed") (now_of w)) 1 w in
                (Ok (Agent.mkCheckoutResult (select_order oid (tables w1)) totals),
                 w1)
            end
        end
    end.
Proof.
  unfold Agent.checkout. unfold bind at 1. rewrite get_order_run.
  destruct (select_order oid (tables w)) as [p|] eqn:Hsel; [|reflexivity].
  destruct (p_items p) as [|i items] eqn:Hitems; [reflexivity|].
  unfold bind at 1. unfold lift. fold (checkout_fee menu (p_order p)).
  destruct (compute_totals _ _ _) as [totals|e]; [|reflexivity].
  unfold bind at 1.
  rewrite set_order_status_present by (eapply select_order_has_order; eassumption).
  reflexivity.
Qed.

(** The order [get_order] returns after a status change. *)
Lemma select_order_after_set_status t oid status message now p :
  wf t = true -> select_order oid t = Some p ->
  select_order oid (after_set_order_status t oid status message now)
  = Some (mkPayload (set_status status now (p_order p)) (p_items p)
            (p_updates p ++ [status_row t oid status message now])).
Proof.
  intros Hwf Hsel.
  pose proof (select_order_has_order _ _ _ Hsel) as Hhas.
  rewrite select_order_wf in Hsel by assumption.
  destruct (order_row oid t) as [row|] eqn:Hrow; [|discriminate].
  inversion Hsel; subst p; simpl. clear Hsel.
  pose proof (order_row_id _ _ _ Hrow) as Hid.
  rewrite select_order_wf by (apply wf_after_set_order_status; assumption).
  assert (Hstep : after_set_order_status t oid status message now
                  = step now "" (SetOrderStatus oid status message) t).
  { simpl. rewrite Hhas. reflexivity. }
  rewrite Hstep. rewrite items_of_step, updates_of_step by assumption.
  rewrite <- Hstep. cbn [appended]. rewrite Z.eqb_refl.
  unfold order_row in *. cbn [after_set_order_status orders]. unfold restatus.
  rewrite find_map_same, Hrow.
  - simpl. rewrite Hid, Z.eqb_refl. reflexivity.
  - intros o. destruct (o_id o =? oid) eqn:E'; simpl; rewrite ?E'; reflexivity.
Qed.

(** [checkout] of an order with an item, the totals being computable. *)
Lemma checkout_placed oid w p totals :
  wf (tables w) = true ->
  select_order oid (tables w) = Some p ->
  p_items p <> [] ->
  compute_totals (p_items p) (checkout_fee menu (p_order p))
    (Menu.tax_percent menu) = Ok totals ->
  let w1 :=
    committed_world
      (after_set_order_status (tables w) oid "placed" (Some "Order placed")
         (now_of w)) 1 w in
  Agent.checkout menu oid w
  = (Ok (Agent.mkCheckoutResult
           (Some (placed_payload (tables w) oid (now_of w) p)) totals), w1)
  /\ select_order oid (tables w1)
     = Some (placed_payload (tables w) oid (now_of w) p)
  /\ wf (tables w1) = true.
Proof.
  intros Hwf Hsel Hitems Htot w1.
  assert (Hsel1 : select_order oid (tables w1)
                  = Some (placed_payload (tables w) oid (now_of w) p)).
  { apply select_order_after_set_status; assumption. }
  split; [|split].
  - rewrite checkout_cases, Hsel.
    destruct (p_items p) as [|i items] eqn:E; [congruence|].
    rewrite Htot. cbv zeta. fold w1. rewrite Hsel1. reflexivity.
  - exact Hsel1.
  - apply wf_after_set_order_status; [assumption|].
    eapply select_order_has_order; eassumption.
Qed.

End Checkout.

(** ** The tools change the world as calls of the store do *)

Section Tools.

Variable menu : Menu.Menu.

(** A read after a write leaves the world the write left. *)
Lemma snd_bind_read {A B C} (m : M A) (q : A -> M B) (k : A -> B -> C) w :
  (forall a w', snd (q a w') = w') ->
  snd (bind m (fun a => bind (q a) (fun b => ret (k a b))) w) = snd (m w).
Proof.
  intros Hq. unfold bind. destruct (m w) as [[a|e] w']; [|reflexivity].
  cbn [snd]. specialize (Hq a w').
  destruct (q a w') as [[b|e] w'']; cbn [snd] in *; subst; reflexivity.
Qed.

(** Every tool changes the world as some calls of the store do. *)
Lemma run_tool_as_calls t w : exists cs, run_tool menu t w = run_calls cs w.
Proof.
  destruct t; unfold run_tool.
  - unfold Agent.start_order.
    destruct (negb _); [exists []; reflexivity|].
    destruct customer_name as [name|].
    + destruct (PyStr.truthy name && PyStr.truthy (PyStr.strip name)).
      * exists [CreateCustomer name phone;
                CreateOrder (Some (seq_customers (tables w) + 1))
                  (PyStr.lower (PyStr.strip delivery_type)) address notes].
        reflexivity.
      * exists [CreateOrder None (PyStr.lower (PyStr.strip delivery_type))
                  address notes].
        reflexivity.
    + exists [CreateOrder None (PyStr.lower (PyStr.strip delivery_type))
                address notes].
      reflexivity.
  - unfold Agent.add_pizza.
    destruct (negb _); [exists []; reflexivity|].
    destruct (Menu.find_pizza menu pizza_id) as [pizza|]; [|exists []; reflexivity].
    exists [AddOrderItem order_id "pizza" (Menu.pizza_id pizza)
              (Menu.pizza_name pizza) qty
              (Agent.size_price (Menu.pizza_sizes pizza)
                 (PyStr.lower (PyStr.strip size)))
              (Some (PyStr.lower (PyStr.strip size)))].
    cbv zeta.
    apply (snd_bind_read _ (fun _ => get_order order_id)
             (fun _ p => Agent.snapshot_or_error p)).
    reflexivity.
  - unfold Agent.add_extra.
    destruct (Menu.find_extra menu extra_id) as [extra|]; [|exists []; reflexivity].
    exists [AddOrderItem order_id "extra" (Menu.extra_id extra)
              (Menu.extra_name extra) qty (Menu.extra_price extra) None].
    apply (snd_bind_read _ (fun _ => get_order order_id)
             (fun _ p => Agent.snapshot_or_error p)).
    reflexivity.
  - exists [RemoveOrderItem order_item_id]. reflexivity.
  - rewrite checkout_cases.
    destruct (select_order order_id (tables w)) as [p|] eqn:Hsel;
      [|exists []; reflexivity].
    destruct (p_items p); [exists []; reflexivity|].
    destruct (compute_totals _ _ _); [|exists []; reflexivity].
    exists [SetOrderStatus order_id "placed" (Some "Order placed")].
    cbv zeta. cbn [snd run_calls fold_left run_call].
    rewrite set_order_status_present
      by (eapply select_order_has_order; eassumption).
    reflexivity.
  - exists []. unfold Agent.get_order_status, bind. rewrite get_order_run.
    destruct (select_order order_id (tables w)); reflexivity.
  - exists [SetOrderStatus order_id (PyStr.lower (PyStr.strip status)) message].
    unfold Agent.admin_update_status.
    apply (snd_bind_read _ (fun _ => get_order order_id)
             (fun _ p => Agent.snapshot_or_error p)).
    reflexivity.
Qed.

Lemma run_tools_as_calls ts w : exists cs, run_tools menu ts w = run_calls cs w.
Proof.
  revert w. induction ts as [|t ts IH]; intros w.
  - exists []. reflexivity.
  - destruct (run_tool_as_calls t w) as (cs1 & H1).
    destruct (IH (run_tool menu t w)) as (cs2 & H2).
    exists (cs1 ++ cs2). simpl. rewrite run_calls_app, <- H1. exact H2.
Qed.

(** The tables of every world the tools and the store functions reach
    from a new database are well formed. *)
Lemma wf_reachable ts cs :
  wf (tables (run_calls cs (run_tools menu ts new_world))) = true.
Proof.
  destruct (run_tools_as_calls ts new_world) as (cs0 & ->).
  rewrite <- run_calls_app. apply wf_run_calls. reflexivity.
Qed.

End Tools.

(** C3.  [checkout] raises [ValueError], a validation error, when
    [get_order] finds no order and when the order has no items, and the
    world is then as before: no row of any table changes.  On an order
    with an item whose totals compute, it returns these totals with the
    order as [get_order] now returns it: status placed, the items as
    before, and one more audit row, placed with the message
    "Order placed".  When the totals do not compute, the error of
    [compute_totals] is raised and the world is as before. *)
Theorem checkout_validates_then_places menu oid w :
  wf (tables w) = true ->
  match fst (get_order oid w) with
  | Raise _ => False
  | Ok None =>
      Agent.checkout menu oid w = (Raise (ValueError "Order not found"), w)
      /\ error_kind (ValueError "Order not found") = ValidationError
  | Ok (Some p) =>
      match p_items p with
      | [] =>
          Agent.checkout menu oid w = (Raise (ValueError "Order has no items"), w)
          /\ error_kind (ValueError "Order has no items") = ValidationError
      | _ :: _ =>
          match compute_totals (p_items p) (checkout_fee menu (p_order p))
                  (Menu.tax_percent menu) with
          | Raise e => Agent.checkout menu oid w = (Raise e, w)
          | Ok totals =>
              let w1 := snd (Agent.checkout menu oid w) in
              let p1 := placed_payload (tables w) oid (now_of w) p in
              fst (Agent.checkout menu oid w)
              = Ok (Agent.mkCheckoutResult (Some p1) totals)
              /\ get_order oid w1 = (Ok (Some p1), w1)
              /\ o_status (p_order p1) = "placed"
              /\ p_items p1 = p_items p
              /\ p_updates p1
                 = p_updates p
                   ++ [mkOrderUpdate (seq_order_updates (tables w) + 1) oid
                         "placed" (Some "Order placed") (now_of w)]
              /\ order_updates (tables w1)
                 = order_updates (tables w)
                   ++ [mkOrderUpdate (seq_order_updates (tables w) + 1) oid
                         "placed" (Some "Order placed") (now_of w)]
              /\ order_items (tables w1) = order_items (tables w)
              /\ committed (conn w1) = tables w1
          end
      end
  end.
Proof.
  intros Hwf. rewrite get_order_run. cbn [fst].
  destruct (select_order oid (tables w)) as [p|] eqn:Hsel.
  - destruct (p_items p) as [|i items] eqn:Hitems.
    + rewrite checkout_cases, Hsel, Hitems. split; reflexivity.
    + destruct (compute_totals (i :: items) _ _) as [totals|e] eqn:Htot.
      * rewrite <- Hitems in Htot.
        assert (Hne : p_items p <> []) by (rewrite Hitems; discriminate).
        destruct (checkout_placed menu oid w p totals Hwf Hsel Hne Htot)
          as (Hrun & Hsel1 & _).
        cbv zeta. rewrite Hrun. cbn [fst snd].
        rewrite get_order_run, Hsel1. repeat split. exact Hitems.
      * rewrite checkout_cases, Hsel, Hitems, Htot. reflexivity.
  - rewrite checkout_cases, Hsel. split; reflexivity.
Qed.

Lemma checkout_validates_then_places_witness :
  wf (tables stocked_world) = true
  /\ fst (Agent.checkout small_menu 1 stocked_world)
     = Ok (Agent.mkCheckoutResult
             (Some (mkPayload
                      (mkOrder 1 None "placed" "pickup" None None "0" "3")
                      [mkOrderItem 1 1 "pizza" "margherita" "Margherita"
                         (Some "medium") 2 800 "1"]
                      [mkOrderUpdate 1 1 "draft" (Some "Order created") "0";
                       mkOrderUpdate 2 1 "placed" (Some "Order placed") "3"]))
             (mkOrderTotals 1600 0 80 1680)).
Proof.
  split; [reflexivity|].
  pose proof (checkout_validates_then_places small_menu 1 stocked_world eq_refl)
    as H.
  vm_compute in H. destruct H as (H & _). vm_compute. exact H.
Defined.

(** C9.  [checkout] twice in a row on an order with an item, the totals
    being computable: both calls return, with the same totals; the audit
    log of the order gains two rows, both placed, with different ids; the
    status of the order is placed. *)
Theorem checkout_twice_appends_two_rows menu oid w p totals :
  wf (tables w) = true ->
  fst (get_order oid w) = Ok (Some p) ->
  p_items p <> [] ->
  compute_totals (p_items p) (checkout_fee menu (p_order p))
    (Menu.tax_percent menu) = Ok totals ->
  exists p1 w1 p2 w2 u1 u2,
    Agent.checkout menu oid w = (Ok (Agent.mkCheckoutResult (Some p1) totals), w1)
    /\ Agent.checkout menu oid w1
       = (Ok (Agent.mkCheckoutResult (Some p2) totals), w2)
    /\ get_order oid w2 = (Ok (Some p2), w2)
    /\ p_updates p1 = p_updates p ++ [u1]
    /\ p_updates p2 = p_updates p ++ [u1; u2]
    /\ order_updates (tables w2) = order_updates (tables w) ++ [u1; u2]
    /\ audit_entry u1 = ("placed", Some "Order placed")
    /\ audit_entry u2 = ("placed", Some "Order placed")
    /\ ou_id u2 = ou_id u1 + 1
    /\ u1 <> u2
    /\ o_status (p_order p1) = "placed"
    /\ o_status (p_order p2) = "placed"
    /\ p_items p2 = p_items p.
Proof.
  intros Hwf Hget Hne Htot.
  rewrite get_order_run in Hget. cbn [fst] in Hget. inversion Hget as [Hsel].
  destruct (checkout_placed menu oid w p totals Hwf Hsel Hne Htot)
    as (Hrun1 & Hsel1 & Hwf1).
  set (w1 := committed_world
               (after_set_order_status (tables w) oid "placed"
                  (Some "Order placed") (now_of w)) 1 w) in *.
  set (p1 := placed_payload (tables w) oid (now_of w) p) in *.
  assert (Hne1 : p_items p1 <> []) by exact Hne.
  assert (Htot1 : compute_totals (p_items p1) (checkout_fee menu (p_order p1))
                    (Menu.tax_percent menu) = Ok totals) by exact Htot.
  destruct (checkout_placed menu oid w1 p1 totals Hwf1 Hsel1 Hne1 Htot1)
    as (Hrun2 & Hsel2 & Hwf2).
  set (w2 := committed_world
               (after_set_order_status (tables w1) oid "placed"
                  (Some "Order placed") (now_of w1)) 1 w1) in *.
  exists p1, w1, (placed_payload (tables w1) oid (now_of w1) p1), w2.
  exists (status_row (tables w) oid "placed" (Some "Order placed") (now_of w)).
  exists (status_row (tables w1) oid "placed" (Some "Order placed") (now_of w1)).
  split; [exact Hrun1|]. split; [exact Hrun2|].
  split; [rewrite get_order_run, Hsel2; reflexivity|].
  split; [reflexivity|].
  split; [simpl; rewrite <- app_assoc; reflexivity|].
  split; [simpl; rewrite <- app_assoc; reflexivity|].
  repeat split.
  intros Heq. apply (f_equal ou_id) in Heq. simpl in Heq. lia.
Qed.

Lemma checkout_twice_appends_two_rows_witness :
  exists p1 w1 p2 w2,
    Agent.checkout small_menu 1 stocked_world
    = (Ok (Agent.mkCheckoutResult (Some p1) (mkOrderTotals 1600 0 80 1680)), w1)
    /\ Agent.checkout small_menu 1 w1
       = (Ok (Agent.mkCheckoutResult (Some p2) (mkOrderTotals 1600 0 80 1680)), w2)
    /\ map audit_entry (p_updates p2)
       = [("draft", Some "Order created"); ("placed", Some "Order placed");
          ("placed", Some "Order placed")].
Proof.
  destruct (checkout_twice_appends_two_rows small_menu 1 stocked_world
              (mkPayload (mkOrder 1 None "draft" "pickup" None None "0" "2")
                 [mkOrderItem 1 1 "pizza" "margherita" "Margherita"
                    (Some "medium") 2 800 "1"]
                 [mkOrderUpdate 1 1 "draft" (Some "Order created") "0"])
              (mkOrderTotals 1600 0 80 1680) eq_refl eq_refl)
    as (p1 & w1 & p2 & w2 & u1 & u2 & H1 & H2 & _ & _ & H5 & _ & H7 & H8 & _).
  - discriminate.
  - reflexivity.
  - exists p1, w1, p2, w2. split; [exact H1|]. split; [exact H2|].
    rewrite H5. simpl. rewrite H7, H8. reflexivity.
Defined.

(** ** Scenario A *)

Section ScenarioA.

Lemma order_row_touch updated id oid t its ups a b c d :
  order_row oid
    (mkTables (customers t) (touch updated id (orders t)) its ups a b c d)
  = option_map (fun o => if o_id o =? id then set_updated_at updated o else o)
      (order_row oid t).
Proof.
  unfold order_row; simpl. unfold touch. apply find_map_same.
  intros o. destruct (o_id o =? id); reflexivity.
Qed.

(** [start_order] for a pickup order with no customer name. *)
Lemma start_order_pickup_anonymous w phone address notes :
  Agent.start_order "pickup" None phone address notes w
  = (Ok (seq_orders (tables w) + 1),
     committed_world
       (after_create_order (tables w) None "pickup" address notes (now_of w))
       1 w).
Proof.
  unfold Agent.start_order.
  change (PyStr.lower (PyStr.strip "pickup")) with "pickup".
  cbn [String.eqb Ascii.eqb Bool.eqb orb negb].
  unfold bind at 1. unfold ret at 1.
  apply create_order_present. reflexivity.
Qed.

(** [add_pizza] of a pizza of the catalog to an order of the store. *)
Lemma add_pizza_medium menu w oid q pizza qty :
  Menu.find_pizza menu q = Some pizza ->
  has_order (tables w) oid = true ->
  let w1 :=
    committed_world
      (after_add_order_item (tables w) oid "pizza" (Menu.pizza_id pizza)
         (Menu.pizza_name pizza) qty (Menu.medium (Menu.pizza_sizes pizza))
         (Some "medium") (now_of w) (clock w (S (ticks w)))) 2 w in
  Agent.add_pizza menu oid q "medium" qty w
  = (Ok (Agent.snapshot_or_error (select_order oid (tables w1))), w1).
Proof.
  intros Hfind Hhas w1. unfold Agent.add_pizza.
  change (PyStr.lower (PyStr.strip "medium")) with "medium".
  change (Agent.valid_size "medium") with true. cbn [negb].
  rewrite Hfind.
  change (Agent.size_price (Menu.pizza_sizes pizza) "medium")
    with (Menu.medium (Menu.pizza_sizes pizza)).
  unfold bind at 1.
  rewrite add_order_item_present by assumption.
  reflexivity.
Qed.

End ScenarioA.

(** C4.  A pickup order started with no customer name, then
    [add_pizza "margherita" "medium" 2] on a catalog whose margherita costs
    800 in medium, then [checkout]: the totals are subtotal 1600, delivery
    fee 0, the tax [round(1600 * tax_percent)] and their sum, and the order
    is left in status placed. *)
Theorem scenario_pickup_two_medium_margheritas menu w phone address notes
    pizza t :
  wf (tables w) = true ->
  Menu.find_pizza menu "margherita" = Some pizza ->
  Menu.medium (Menu.pizza_sizes pizza) = 800 ->
  rounded_product 1600 (Menu.tax_percent menu) = Ok t ->
  exists oid w1 snapshot w2 p w3,
    Agent.start_order "pickup" None phone address notes w = (Ok oid, w1)
    /\ Agent.add_pizza menu oid "margherita" "medium" 2 w1 = (Ok snapshot, w2)
    /\ Agent.checkout menu oid w2
       = (Ok (Agent.mkCheckoutResult (Some p)
                (mkOrderTotals 1600 0 t (1600 + 0 + t))), w3)
    /\ o_status (p_order p) = "placed"
    /\ get_order oid w3 = (Ok (Some p), w3)
    /\ map (fun i => (oi_item_id i, oi_size i, oi_qty i, oi_unit_price i))
         (p_items p)
       = [(Menu.pizza_id pizza, Some "medium", 2, 800)].
Proof.
  intros Hwf Hfind Hprice Htax.
  set (t0 := tables w).
  set (oid := seq_orders t0 + 1).
  set (t1 := after_create_order t0 None "pickup" address notes (now_of w)).
  set (w1 := committed_world t1 1 w).
  destruct (created_order_views t0 None "pickup" address notes (now_of w) Hwf)
    as (Hrow1 & Hit1 & Hup1 & Hhas1).
  fold t1 oid in Hrow1, Hit1, Hup1, Hhas1.
  assert (Hwf1 : wf t1 = true) by (apply wf_after_create_order; auto).
  pose proof (add_pizza_medium menu w1 oid "margherita" pizza 2 Hfind Hhas1)
    as Hadd. cbv zeta in Hadd. rewrite Hprice in Hadd.
  set (item := added_item t1 oid "pizza" (Menu.pizza_id pizza)
                 (Menu.pizza_name pizza) 2 800 (Some "medium") (now_of w1)).
  set (t2 := after_add_order_item (tables w1) oid "pizza" (Menu.pizza_id pizza)
               (Menu.pizza_name pizza) 2 800 (Some "medium") (now_of w1)
               (clock w1 (S (ticks w1)))) in *.
  set (w2 := committed_world t2 2 w1) in *.
  assert (Hwf2 : wf (tables w2) = true)
    by (apply wf_after_add_order_item; assumption).
  set (row2 := set_updated_at (clock w1 (S (ticks w1)))
                 (created_order t0 None "pickup" address notes (now_of w))).
  assert (Hsel2 : select_order oid (tables w2)
                  = Some (mkPayload row2 [item] [creation_row t0 (now_of w)])).
  { rewrite select_order_wf by assumption.
    change (tables w2) with t2. unfold t2 at 1. unfold after_add_order_item.
    rewrite order_row_touch. change (tables w1) with t1. rewrite Hrow1.
    cbn [option_map created_order o_id]. fold oid. rewrite Z.eqb_refl.
    assert (Hstep : t2 = step (now_of w1) (clock w1 (S (ticks w1)))
                           (AddOrderItem oid "pizza" (Menu.pizza_id pizza)
                              (Menu.pizza_name pizza) 2 800 (Some "medium")) t1).
    { simpl. rewrite Hhas1. reflexivity. }
    rewrite Hstep, items_of_step, updates_of_step by assumption.
    rewrite Hhas1, Z.eqb_refl, Hit1, Hup1. reflexivity. }
  assert (Htot : compute_totals
                   (p_items (mkPayload row2 [item] [creation_row t0 (now_of w)]))
                   (checkout_fee menu row2) (Menu.tax_percent menu)
                 = Ok (mkOrderTotals 1600 0 t (1600 + 0 + t))).
  { rewrite compute_totals_eq.
    change (items_sum _) with (2 * 800 + 0).
    change (2 * 800 + 0) with 1600. rewrite Htax. reflexivity. }
  destruct (checkout_placed menu oid w2 _ _ Hwf2 Hsel2 ltac:(discriminate) Htot)
    as (Hrun & Hsel3 & _).
  eexists oid, w1, _, w2, _, _.
  split; [apply start_order_pickup_anonymous|].
  split; [exact Hadd|].
  split; [exact Hrun|].
  split; [reflexivity|].
  split; [rewrite get_order_run, Hsel3; reflexivity|].
  reflexivity.
Qed.

Lemma scenario_pickup_two_medium_margheritas_witness :
  exists oid w1 snapshot w2 p w3,
    Agent.start_order "pickup" None None None None new_world = (Ok oid, w1)
    /\ Agent.add_pizza small_menu oid "margherita" "medium" 2 w1 = (Ok snapshot, w2)
    /\ Agent.checkout small_menu oid w2
       = (Ok (Agent.mkCheckoutResult (Some p) (mkOrderTotals 1600 0 80 1680)), w3)
    /\ o_status (p_order p) = "placed".
Proof.
  destruct (scenario_pickup_two_medium_margheritas small_menu new_world None None
              None (Menu.mkPizza "margherita" "Margherita"
                      "Tomato, mozzarella, basil" (Menu.mkSizes 500 800 1100))
              80 eq_refl eq_refl eq_refl eq_refl)
    as (oid & w1 & snapshot & w2 & p & w3 & H1 & H2 & H3 & H4 & _).
  exists oid, w1, snapshot, w2, p, w3. repeat split; assumption.
Defined.

(** ** Binary64 multiplication and rounding *)

Section Rounding.

Lemma shr_1_spec m r s : 0 <= m ->
  shr_1 (Build_shr_record m r s) = Build_shr_record (Z.div2 m) (Z.odd m) (r || s).
Proof.
  intros H. destruct m as [|p|p]; [reflexivity| |lia].
  destruct p; reflexivity.
Qed.

Lemma shifted_step m0 k rec : shifted m0 k rec -> shifted m0 (k + 1) (shr_1 rec).
Proof.
  destruct rec as [m r s].
  intros (Hk & Hm & rem & Hdec & Hrem & Hr & Hs).
  cbn [shr_m shr_r shr_s] in *. rewrite shr_1_spec by assumption.
  unfold shifted. cbn [shr_m shr_r shr_s]. split; [lia|]. 
  assert (Hdiv : m = 2 * Z.div2 m + Z.b2z (Z.odd m)) by apply Z.div2_odd.
  assert (Hpow : 2 ^ (k + 1) = 2 * 2 ^ k) by (rewrite Z.pow_add_r by lia; lia).
  split; [rewrite Z.div2_div; apply Z.div_pos; lia|].
  exists (rem + Z.b2z (Z.odd m) * 2 ^ k).
  rewrite Hpow.
  assert (0 < 2 ^ k) by (apply Z.pow_pos_nonneg; lia).
  assert (Hpos : (r || s) = true <-> 0 < rem).
  { destruct r, s; cbn [orb] in *; intuition (try lia; try discriminate). }
  destruct (Z.odd m); simpl Z.b2z in *.
  - split; [nia|]. split; [lia|]. split; [split; intros; [lia|reflexivity]|].
    rewrite Hpos. lia.
  - split; [nia|]. split; [lia|]. split; [split; intros; [discriminate|lia]|].
    rewrite Hpos. lia.
Qed.

Lemma shifted_iter p : forall m0 k rec, shifted m0 k rec -> shifted m0 (k + Zpos p) (iter_pos shr_1 p rec).
Proof.
  induction p as [p IH|p IH|]; intros m0 k rec H; simpl.
  - apply shifted_step in H. apply IH in H. apply IH in H.
    replace (k + Z.pos p~1) with (k + 1 + Z.pos p + Z.pos p) by lia. exact H.
  - apply IH in H. apply IH in H.
    replace (k + Z.pos p~0) with (k + Z.pos p + Z.pos p) by lia. exact H.
  - apply shifted_step. exact H.
Qed.

Lemma shifted_start m0 : 0 <= m0 -> shifted m0 0 (Build_shr_record m0 false false).
Proof.
  intros H. split; [lia|]. split; [exact H|]. exists 0. simpl.
  split; [lia|]. split; [lia|]. split; split; intros; try discriminate; lia.
Qed.

(** rounding to nearest, ties to even, of what [shifted] describes *)
Lemma round_nearest_even_shifted m0 k rec :
  shifted m0 k rec ->
  let M := round_nearest_even (shr_m rec) (loc_of_shr_record rec) in
  shr_m rec <= M <= shr_m rec + 1 /\ 2 * Z.abs (M * 2 ^ k - m0) <= 2 ^ k
  /\ (m0 mod 2 ^ k = 0 -> M * 2 ^ k = m0).
Proof.
  intros (Hk & Hm & rem & Hdec & Hrem & Hr & Hs).
  destruct rec as [m r s].
  cbn [round_nearest_even loc_of_shr_record shr_m shr_r shr_s] in *.
  assert (0 < 2 ^ k) by (apply Z.pow_pos_nonneg; lia).
  assert (Hmod : m0 mod 2 ^ k = rem).
  { symmetry. apply Z.mod_unique with (q := m); [lia|lia]. }
  rewrite Hmod.
  destruct r, s; cbn [round_nearest_even loc_of_shr_record] in *.
  - assert (2 ^ k < 2 * rem) by intuition. lia.
  - assert (2 ^ k <= 2 * rem) by intuition.
    assert (~ 2 ^ k < 2 * rem) by (intuition discriminate).
    destruct (Z.even m); lia.
  - assert (~ 2 ^ k <= 2 * rem) by (intuition discriminate). lia.
  - assert (~ 2 ^ k <= 2 * rem) by (intuition discriminate).
    assert (~ 0 < rem) by (intuition discriminate).
    assert (rem = 0) by lia. subst rem. nia.
Qed.

Lemma digits2_pos_bounds m :
  2 ^ (Zpos (digits2_pos m) - 1) <= Zpos m < 2 ^ Zpos (digits2_pos m).
Proof.
  induction m as [m IH|m IH|]; simpl digits2_pos.
  - rewrite Pos2Z.inj_succ.
    replace (Z.succ (Zpos (digits2_pos m)) - 1) with (Z.succ (Zpos (digits2_pos m) - 1)) by lia.
    rewrite !Z.pow_succ_r by lia. lia.
  - rewrite Pos2Z.inj_succ.
    replace (Z.succ (Zpos (digits2_pos m)) - 1) with (Z.succ (Zpos (digits2_pos m) - 1)) by lia.
    rewrite !Z.pow_succ_r by lia. lia.
  - simpl. lia.
Qed.

Lemma digits2_pos_le m d : Zpos m < 2 ^ d -> Zpos (digits2_pos m) <= d.
Proof.
  intros H. pose proof (digits2_pos_bounds m) as [Hlo _].
  destruct (Z_lt_le_dec d (Zpos (digits2_pos m))) as [Hlt|]; [|assumption].
  assert (2 ^ d <= 2 ^ (Zpos (digits2_pos m) - 1)) by (apply Z.pow_le_mono_r; lia).
  lia.
Qed.

Lemma digits2_pos_ge m d : 0 <= d -> 2 ^ d <= Zpos m -> d < Zpos (digits2_pos m).
Proof.
  intros Hd H. pose proof (digits2_pos_bounds m) as [_ Hhi].
  destruct (Z_lt_le_dec d (Zpos (digits2_pos m))) as [|Hle]; [assumption|].
  assert (2 ^ Zpos (digits2_pos m) <= 2 ^ d) by (apply Z.pow_le_mono_r; lia).
  lia.
Qed.

Lemma binary_round_aux_exact s m e :
  let e1 := fexp PyFloat.prec PyFloat.emax (Zpos (digits2_pos m) + e) in
  exists M E d,
    binary_round_aux PyFloat.prec PyFloat.emax s (Zpos m) e loc_Exact = float_of s M E
    /\ 0 <= M /\ e <= E <= Z.max e (e1 + 1)
    /\ M * 2 ^ (E - e) = Zpos m + d
    /\ (e1 <= e -> d = 0)
    /\ 2 * Z.abs d <= 2 ^ Z.max 0 (e1 - e).
Proof.
  intros e1. unfold binary_round_aux, shr_fexp. cbn [Zdigits2 shr_record_of_loc].
  fold e1. unfold shr at 1.
  destruct (e1 - e) as [|p|p] eqn:Hn.
  - (* no shift *)
    cbn [shr_m loc_of_shr_record round_nearest_even shr_r shr_s Zdigits2].
    fold e1. rewrite Hn. cbn [shr shr_m].
    exists (Zpos m), e, 0. repeat split; try lia.
    rewrite Z.sub_diag. simpl. lia.
  - (* shift by p *)
    pose proof (shifted_iter p (Zpos m) 0 _ (shifted_start (Zpos m) ltac:(lia))) as Hsh.
    rewrite Z.add_0_l in Hsh.
    set (rec1 := iter_pos shr_1 p _) in *.
    pose proof (round_nearest_even_shifted _ _ _ Hsh) as (HM & Herr & _).
    set (M := round_nearest_even (shr_m rec1) (loc_of_shr_record rec1)) in *.
    destruct Hsh as (_ & Hq & rem & Hdec & Hrem & _).
    assert (Hpow : 0 < 2 ^ Zpos p) by (apply Z.pow_pos_nonneg; lia).
    assert (He1 : e + Zpos p = e1) by lia. rewrite He1.
    pose proof (digits2_pos_bounds m) as [_ Hmhi].
    assert (Hemin : 3 - PyFloat.emax - PyFloat.prec <= e1).
    { unfold e1, fexp, emin. lia. }
    assert (Hk : Zpos (digits2_pos m) - PyFloat.prec <= Zpos p).
    { unfold e1, fexp in Hn. lia. }
    assert (Hq' : shr_m rec1 < 2 ^ PyFloat.prec).
    { assert (2 ^ Zpos (digits2_pos m) <= 2 ^ (Zpos p + PyFloat.prec))
        by (apply Z.pow_le_mono_r; lia).
      rewrite Z.pow_add_r in H by (unfold PyFloat.prec; lia). nia. }
    destruct M as [|q|q] eqn:HMq; [| |lia].
    + (* rounded to zero *)
      cbn [Zdigits2]. unfold shr.
      destruct (fexp PyFloat.prec PyFloat.emax (0 + e1) - e1) eqn:Hn2;
        [| unfold fexp, emin, PyFloat.prec, PyFloat.emax in *; lia |].
      * cbn [shr_m]. exists 0, e1, (0 * 2 ^ Zpos p - Zpos m).
        replace (e1 - e) with (Zpos p) by lia.
        repeat split; try lia.
        rewrite Z.max_r by lia. exact Herr.
      * cbn [shr_m]. exists 0, e1, (0 * 2 ^ Zpos p - Zpos m).
        replace (e1 - e) with (Zpos p) by lia.
        repeat split; try lia.
        rewrite Z.max_r by lia. exact Herr.
    + cbn [Zdigits2]. unfold shr.
      destruct (Z_lt_le_dec (Zpos q) (2 ^ PyFloat.prec)) as [Hlt|Hge].
      * (* no carry *)
        pose proof (digits2_pos_le q _ Hlt) as Hdq.
        destruct (fexp PyFloat.prec PyFloat.emax (Zpos (digits2_pos q) + e1) - e1) eqn:Hn2;
          [| unfold fexp, emin, PyFloat.prec, PyFloat.emax in *; lia |].
        -- cbn [shr_m]. exists (Zpos q), e1, (Zpos q * 2 ^ Zpos p - Zpos m).
           replace (e1 - e) with (Zpos p) by lia.
           repeat split; try lia.
           rewrite Z.max_r by lia. exact Herr.
        -- cbn [shr_m]. exists (Zpos q), e1, (Zpos q * 2 ^ Zpos p - Zpos m).
           replace (e1 - e) with (Zpos p) by lia.
           repeat split; try lia.
           rewrite Z.max_r by lia. exact Herr.
      * (* carry: the mantissa is 2^prec *)
        assert (Hq2 : Zpos q = 2 ^ PyFloat.prec) by lia.
        assert (q = 9007199254740992%positive) by (unfold PyFloat.prec in Hq2; simpl in Hq2; lia).
        subst q.
        replace (fexp PyFloat.prec PyFloat.emax (Zpos (digits2_pos 9007199254740992) + e1) - e1)
          with 1 by (unfold fexp, emin, PyFloat.prec, PyFloat.emax in *; simpl digits2_pos; lia).
        cbn [iter_pos shr_1 shr_m].
        exists 4503599627370496, (e1 + 1), (9007199254740992 * 2 ^ Zpos p - Zpos m).
        replace (e1 + 1 - e) with (Zpos p + 1) by lia.
        rewrite Z.pow_add_r by lia.
        replace (e1 - e) with (Zpos p) in * by lia.
        repeat split; try lia.
        rewrite Z.max_r by lia. exact Herr.
  - (* no shift *)
    cbn [shr_m loc_of_shr_record round_nearest_even shr_r shr_s Zdigits2].
    fold e1. rewrite Hn. cbn [shr shr_m].
    exists (Zpos m), e, 0. repeat split; try lia.
    rewrite Z.sub_diag. simpl. lia.
Qed.

Lemma two_power_pos (e : Z) : (0 < 2 ^ e)%Q.
Proof. apply Qpower_0_lt. reflexivity. Qed.

Lemma two_power_add (a b : Z) : (2 ^ (a + b) == 2 ^ a * 2 ^ b)%Q.
Proof. apply Qpower_plus. discriminate. Qed.

Lemma two_power_inject (k : Z) : 0 <= k -> (inject_Z (2 ^ k) == 2 ^ k)%Q.
Proof. intros H. rewrite Zpower_Qpower by assumption. reflexivity. Qed.

Lemma value_float_of s M E :
  0 <= M -> E <= PyFloat.emax - PyFloat.prec ->
  PyFloat.is_finite (float_of s M E) = true
  /\ (PyFloat.value (float_of s M E) == inject_Z (cond_Zopp s M) * 2 ^ E)%Q.
Proof.
  intros HM HE. unfold float_of. destruct M as [|p|p]; [| |lia].
  - split; [reflexivity|]. simpl. destruct s; simpl; ring.
  - apply Z.leb_le in HE. rewrite HE. split; reflexivity.
Qed.

Lemma inject_Z_cond_Zopp s z :
  (inject_Z (cond_Zopp s z) == (if s then -1 else 1) * inject_Z z)%Q.
Proof. destruct s; simpl; [rewrite inject_Z_opp|]; ring. Qed.

(** a product in the range where floats are a unit apart or closer is rounded within one half *)
Lemma binary_round_aux_close s m e :
  Zpos (digits2_pos m) + e <= PyFloat.prec ->
  let z := binary_round_aux PyFloat.prec PyFloat.emax s (Zpos m) e loc_Exact in
  PyFloat.is_finite z = true
  /\ (Qabs (PyFloat.value z - inject_Z (cond_Zopp s (Zpos m)) * 2 ^ e) <= 1 # 2)%Q.
Proof.
  intros Hd z. subst z.
  destruct (binary_round_aux_exact s m e) as (M & E & d & -> & HM & HE & Hdec & Hd0 & Herr).
  set (e1 := fexp PyFloat.prec PyFloat.emax (Zpos (digits2_pos m) + e)) in *.
  assert (He1 : e1 <= 0) by (unfold e1, fexp, emin, PyFloat.prec, PyFloat.emax in *; lia).
  assert (0 < Zpos (digits2_pos m)) by lia.
  destruct (value_float_of s M E HM) as [Hfin Hval];
    [unfold PyFloat.prec, PyFloat.emax in *; lia|].
  split; [exact Hfin|].
  rewrite Hval.
  assert (HE2 : (2 ^ E == inject_Z (2 ^ (E - e)) * 2 ^ e)%Q).
  { rewrite two_power_inject by lia. rewrite <- two_power_add.
    replace (E - e + e) with E by lia. reflexivity. }
  assert (Hdiff : (inject_Z (cond_Zopp s M) * 2 ^ E
                   - inject_Z (cond_Zopp s (Zpos m)) * 2 ^ e
                   == (if s then -1 else 1) * inject_Z d * 2 ^ e)%Q).
  { rewrite HE2, !inject_Z_cond_Zopp.
    assert (inject_Z M * inject_Z (2 ^ (E - e)) == inject_Z (Zpos m) + inject_Z d)%Q as X.
    { rewrite <- inject_Z_mult, <- inject_Z_plus, Hdec. reflexivity. }
    transitivity ((if s then -1 else 1) * (inject_Z M * inject_Z (2 ^ (E - e))) * 2 ^ e
                  - (if s then -1 else 1) * inject_Z (Zpos m) * 2 ^ e)%Q; [ring|].
    rewrite X. ring. }
  rewrite Hdiff.
  pose proof (two_power_pos e) as Hpe.
  destruct (Z_le_gt_dec e1 e) as [Hle|Hgt].
  - rewrite (Hd0 Hle). 
    assert ((if s then -1 else 1) * inject_Z 0 * 2 ^ e == 0)%Q as -> by (destruct s; ring).
    discriminate.
  - rewrite Z.max_r in Herr by lia.
    assert (H2 : (2 * Qabs (inject_Z d) * 2 ^ e <= 1)%Q).
    { assert (2 * Qabs (inject_Z d) <= 2 ^ (e1 - e))%Q as X.
      { rewrite <- two_power_inject by lia.
        change (Qabs (inject_Z d)) with (inject_Z (Z.abs d)).
        change 2%Q with (inject_Z 2) at 1.
        rewrite <- inject_Z_mult, <- Zle_Qle. exact Herr. }
      apply Qle_trans with (2 ^ (e1 - e) * 2 ^ e)%Q.
      - apply Qmult_le_compat_r; [exact X|]. apply Qlt_le_weak. exact Hpe.
      - rewrite <- two_power_add. replace (e1 - e + e) with e1 by lia.
        change 1%Q with (2 ^ 0)%Q. apply Qpower_le_compat_l; [lia|discriminate]. }
    rewrite !Qabs_Qmult.
    assert (Qabs (if s then -1 else 1) == 1)%Q as -> by (destruct s; reflexivity).
    rewrite (Qabs_pos (2 ^ e)) by (apply Qlt_le_weak; exact Hpe).
    lra.
Qed.

Lemma abs_scaled_half (d K : Z) (P : Q) :
  (0 < P)%Q -> 2 * Z.abs d <= K -> (inject_Z K * P <= 1)%Q ->
  (Qabs (inject_Z d * P) <= 1 # 2)%Q.
Proof.
  intros HP Hd HK.
  rewrite Qabs_Qmult, (Qabs_pos P) by (apply Qlt_le_weak; exact HP).
  change (Qabs (inject_Z d)) with (inject_Z (Z.abs d)).
  assert (inject_Z 2 * inject_Z (Z.abs d) <= inject_Z K)%Q as X.
  { rewrite <- inject_Z_mult, <- Zle_Qle. exact Hd. }
  assert (inject_Z 2 * inject_Z (Z.abs d) * P <= inject_Z K * P)%Q as Y.
  { apply Qmult_le_compat_r; [exact X|]. apply Qlt_le_weak. exact HP. }
  change (inject_Z 2) with 2%Q in Y. lra.
Qed.

Lemma round_half_even_close m p :
  2 * Z.abs (PyFloat.round_half_even m (Zneg p) * 2 ^ Zpos p - Zpos m) <= 2 ^ Zpos p.
Proof.
  unfold PyFloat.round_half_even.
  change (Z.pow_pos 2 p) with (2 ^ Zpos p).
  assert (HD : 0 < 2 ^ Zpos p) by (apply Z.pow_pos_nonneg; lia).
  set (D := 2 ^ Zpos p) in *.
  pose proof (Z.div_mod (Zpos m) D ltac:(lia)) as Hdm.
  pose proof (Z.mod_pos_bound (Zpos m) D HD) as Hr.
  cbv zeta.
  destruct (Z.compare_spec (2 * (Zpos m mod D)) D) as [Heq|Hlt|Hgt].
  - destruct (Z.even (Zpos m / D)); nia.
  - nia.
  - nia.
Qed.

Lemma two_power_neg p : (2 ^ Zneg p * inject_Z (2 ^ Zpos p) == 1)%Q.
Proof.
  rewrite two_power_inject by lia. rewrite <- two_power_add.
  replace (Z.neg p + Z.pos p) with 0 by lia. reflexivity.
Qed.

(** [round] is within one half of the float it rounds *)
Lemma round_close x t :
  PyFloat.round x = Ok t -> (Qabs (inject_Z t - PyFloat.value x) <= 1 # 2)%Q.
Proof.
  destruct x as [s|s| |s m e]; unfold PyFloat.round, PyFloat.value;
    intros H; inversion H; subst t; clear H.
  - discriminate.
  - pose proof (two_power_pos e) as Hpe.
    destruct e as [|p|p].
    + change (PyFloat.round_half_even m 0) with (Zpos m * 2 ^ 0).
      assert (inject_Z (cond_Zopp s (Zpos m * 2 ^ 0))
              - inject_Z (cond_Zopp s (Zpos m)) * 2 ^ 0 == 0)%Q as X.
      { rewrite !inject_Z_cond_Zopp, inject_Z_mult, two_power_inject by lia. ring. }
      rewrite X. discriminate.
    + change (PyFloat.round_half_even m (Zpos p)) with (Zpos m * 2 ^ Zpos p).
      assert (inject_Z (cond_Zopp s (Zpos m * 2 ^ Zpos p))
              - inject_Z (cond_Zopp s (Zpos m)) * 2 ^ Zpos p == 0)%Q as X.
      { rewrite !inject_Z_cond_Zopp, inject_Z_mult, two_power_inject by lia. ring. }
      rewrite X. discriminate.
    + pose proof (round_half_even_close m p) as Hc.
      set (R := PyFloat.round_half_even m (Zneg p)) in *.
      assert (inject_Z (cond_Zopp s R) - inject_Z (cond_Zopp s (Zpos m)) * 2 ^ Zneg p
              == inject_Z ((if s then -1 else 1) * (R * 2 ^ Zpos p - Zpos m)) * 2 ^ Zneg p)%Q as X.
      { rewrite !inject_Z_cond_Zopp, !inject_Z_mult.
        unfold Z.sub. rewrite inject_Z_plus, inject_Z_opp, inject_Z_mult.
        pose proof (two_power_neg p) as X.
        assert (inject_Z (if s then -1 else 1) == (if s then -1 else 1))%Q as -> by (destruct s; reflexivity).
        transitivity ((if s then -1 else 1) * inject_Z R * (2 ^ Z.neg p * inject_Z (2 ^ Z.pos p))
                      - (if s then -1 else 1) * inject_Z (Z.pos m) * 2 ^ Z.neg p)%Q; [rewrite X; ring|ring]. }
      rewrite X. apply abs_scaled_half with (K := 2 ^ Zpos p).
      * exact Hpe.
      * destruct s; lia.
      * rewrite Qmult_comm, two_power_neg. discriminate.
Qed.

Lemma pos_iter_xO m j : Zpos (Pos.iter xO m j) = Zpos m * 2 ^ Zpos j.
Proof.
  induction j as [|j IH] using Pos.peano_ind.
  - simpl. lia.
  - rewrite Pos.iter_succ, Pos2Z.inj_xO, IH, Pos2Z.inj_succ, Z.pow_succ_r by lia. lia.
Qed.

(** an integer below 2^53 in absolute value is a float *)
Lemma of_int_exact n :
  Z.abs n < 2 ^ 53 -> n <> 0 ->
  exists s m e,
    PyFloat.of_int n = Ok (S754_finite s m e)
    /\ (inject_Z (cond_Zopp s (Zpos m)) * 2 ^ e == inject_Z n)%Q.
Proof.
  intros Hn Hn0.
  assert (forall s mx, Zpos mx < 2 ^ 53 ->
            exists m e, binary_round PyFloat.prec PyFloat.emax s mx 0 = S754_finite s m e
                        /\ (inject_Z (Zpos m) * 2 ^ e == inject_Z (Zpos mx))%Q) as Hbr.
  { intros s mx Hmx. unfold binary_round, shl_align.
    pose proof (digits2_pos_le mx 53 Hmx) as Hd.
    assert (Hfe : fexp PyFloat.prec PyFloat.emax (Zpos (digits2_pos mx) + 0) = Zpos (digits2_pos mx) - 53).
    { unfold fexp, emin, PyFloat.prec, PyFloat.emax. lia. }
    rewrite Hfe.
    assert (Hcase : forall mz ez, (inject_Z (Zpos mz) * 2 ^ ez == inject_Z (Zpos mx))%Q ->
               Zpos mz < 2 ^ 53 -> - 53 < ez <= 0 -> Zpos (digits2_pos mx) - 53 <= ez ->
               Zpos (digits2_pos mz) + ez <= Zpos (digits2_pos mx) ->
               exists m e, binary_round_aux PyFloat.prec PyFloat.emax s (Zpos mz) ez loc_Exact = S754_finite s m e
                           /\ (inject_Z (Zpos m) * 2 ^ e == inject_Z (Zpos mx))%Q).
    { intros mz ez Hval Hmz Hez Hez2 Hdz.
      destruct (binary_round_aux_exact s mz ez) as (M & E & d & Heq & HM & HE & Hdec & Hd0 & _).
      pose proof (digits2_pos_le mz 53 Hmz) as Hdmz.
      assert (He1 : fexp PyFloat.prec PyFloat.emax (Zpos (digits2_pos mz) + ez) <= ez).
      { unfold fexp, emin, PyFloat.prec, PyFloat.emax. lia. }
      rewrite (Hd0 He1), Z.add_0_r in Hdec.
      assert (0 < 2 ^ (E - ez)) by (apply Z.pow_pos_nonneg; lia).
      destruct M as [|q|q]; [lia| |lia].
      unfold float_of in Heq.
      replace (E <=? PyFloat.emax - PyFloat.prec) with true in Heq
        by (symmetry; apply Z.leb_le; unfold PyFloat.emax, PyFloat.prec; lia).
      exists q, E. split; [exact Heq|].
      rewrite <- Hval, <- Hdec, inject_Z_mult, two_power_inject by lia.
      rewrite <- Qmult_assoc, <- two_power_add.
      replace (E - ez + ez) with E by lia. reflexivity. }
    destruct (Zpos (digits2_pos mx) - 53 - 0) as [|j|j] eqn:Hj.
    - apply Hcase; try lia. simpl. ring.
    - lia.
    - apply Hcase; try lia.
      + rewrite pos_iter_xO, inject_Z_mult, two_power_inject by lia.
        rewrite <- Qmult_assoc, <- two_power_add.
        replace (Zpos j + (Zpos (digits2_pos mx) - 53)) with 0 by lia. simpl. ring.
      + rewrite pos_iter_xO. pose proof (digits2_pos_bounds mx) as [_ Hhi].
        assert (2 ^ Zpos (digits2_pos mx) * 2 ^ Zpos j = 2 ^ 53).
        { rewrite <- Z.pow_add_r by lia. f_equal. lia. }
        assert (0 < 2 ^ Zpos j) by (apply Z.pow_pos_nonneg; lia). nia.
      + assert (Zpos (digits2_pos (Pos.iter xO mx j)) <= 53).
        { apply digits2_pos_le. rewrite pos_iter_xO.
          pose proof (digits2_pos_bounds mx) as [_ Hhi].
          assert (2 ^ Zpos (digits2_pos mx) * 2 ^ Zpos j = 2 ^ 53).
          { rewrite <- Z.pow_add_r by lia. f_equal. lia. }
          assert (0 < 2 ^ Zpos j) by (apply Z.pow_pos_nonneg; lia). nia. }
        lia. }
  unfold PyFloat.of_int, binary_normalize.
  destruct n as [|mx|mx]; [congruence| |].
  - destruct (Hbr false mx ltac:(lia)) as (m & e & Heq & Hval).
    rewrite Heq. exists false, m, e. split; [reflexivity|exact Hval].
  - destruct (Hbr true mx ltac:(lia)) as (m & e & Heq & Hval).
    rewrite Heq. exists true, m, e. split; [reflexivity|].
    simpl cond_Zopp. change (Zneg m) with (- Zpos m). change (Zneg mx) with (- Zpos mx).
    rewrite !inject_Z_opp. rewrite <- Hval. ring.
Qed.

Lemma round_finite z : PyFloat.is_finite z = true -> exists t, PyFloat.round z = Ok t.
Proof. destruct z; try discriminate; intros _; eexists; reflexivity. Qed.

Lemma abs_inject_cond_Zopp b p : Qabs (inject_Z (cond_Zopp b (Zpos p))) = inject_Z (Zpos p).
Proof. destruct b; reflexivity. Qed.

Lemma cond_Zopp_xorb a b p q :
  (inject_Z (cond_Zopp (xorb a b) (Zpos (p * q)))
   == inject_Z (cond_Zopp a (Zpos p)) * inject_Z (cond_Zopp b (Zpos q)))%Q.
Proof.
  rewrite <- inject_Z_mult. destruct a, b; simpl; reflexivity.
Qed.

Lemma rounded_product_close n tp :
  Z.abs n < 2 ^ 53 -> PyFloat.is_finite tp = true ->
  (Qabs (inject_Z n * PyFloat.value tp) < 2 ^ 53)%Q ->
  exists t, rounded_product n tp = Ok t
            /\ (Qabs (inject_Z t - inject_Z n * PyFloat.value tp) <= 1)%Q.
Proof.
  intros Hn Hfin Hprod. unfold rounded_product.
  destruct (Z.eq_dec n 0) as [->|Hn0].
  - exists 0. destruct tp; try discriminate; split; try reflexivity.
    + simpl. discriminate.
    + assert (inject_Z 0 - inject_Z 0 * PyFloat.value (S754_finite s m e) == 0)%Q as X by ring.
      rewrite X. discriminate.
  - destruct (of_int_exact n Hn Hn0) as (s & m & e & Heq & Hval). rewrite Heq.
    destruct tp as [sy|sy| |sy my ey]; try discriminate.
    + exists 0. split; [reflexivity|].
      assert (inject_Z 0 - inject_Z n * PyFloat.value (S754_zero sy) == 0)%Q as X
        by (simpl; ring).
      rewrite X. discriminate.
    + unfold PyFloat.mul, SFmul. unfold PyFloat.value in *.
      set (X := (inject_Z (cond_Zopp (xorb s sy) (Zpos (m * my))) * 2 ^ (e + ey))%Q).
      assert (HX : (X == inject_Z n * (inject_Z (cond_Zopp sy (Zpos my)) * 2 ^ ey))%Q).
      { unfold X. rewrite <- Hval, cond_Zopp_xorb, two_power_add. ring. }
      pose proof (two_power_pos (e + ey)) as Hpe.
      assert (HabsX : (Qabs X == inject_Z (Zpos (m * my)) * 2 ^ (e + ey))%Q).
      { unfold X. rewrite Qabs_Qmult, abs_inject_cond_Zopp.
        rewrite (Qabs_pos (2 ^ (e + ey))) by (apply Qlt_le_weak; exact Hpe).
        reflexivity. }
      assert (Hd : Zpos (digits2_pos (m * my)) + (e + ey) <= PyFloat.prec).
      { unfold PyFloat.prec.
        destruct (Z_le_gt_dec (Zpos (digits2_pos (m * my)) + (e + ey)) 53) as [|Hgt];
          [assumption|exfalso].
        pose proof (digits2_pos_bounds (m * my)) as [Hlo _].
        set (d := Zpos (digits2_pos (m * my))) in *.
        assert (2 ^ 53 <= inject_Z (Zpos (m * my)) * 2 ^ (e + ey))%Q as Hbig.
        { apply Qle_trans with (2 ^ (d - 1 + (e + ey)))%Q.
          - apply Qpower_le_compat_l; [lia|discriminate].
          - rewrite two_power_add.
            apply Qmult_le_compat_r; [|apply Qlt_le_weak; exact Hpe].
            rewrite <- two_power_inject by (unfold d; lia).
            rewrite <- Zle_Qle. exact Hlo. }
        rewrite <- HX, HabsX in Hprod.
        apply (Qlt_irrefl (2 ^ 53)%Q). eapply Qle_lt_trans; eassumption. }
      destruct (binary_round_aux_close (xorb s sy) (m * my) (e + ey) Hd) as [Hzfin Hzerr].
      fold X in Hzerr.
      set (z := binary_round_aux PyFloat.prec PyFloat.emax (xorb s sy) (Zpos (m * my)) (e + ey) loc_Exact) in *.
      destruct (round_finite z Hzfin) as (t & Ht).
      exists t. split; [exact Ht|].
      pose proof (round_close z t Ht) as Hterr.
      rewrite <- HX.
      apply Qabs_Qle_condition in Hzerr. apply Qabs_Qle_condition in Hterr.
      apply Qabs_Qle_condition. fold (PyFloat.value z) in *. lra.
Qed.

End Rounding.

(** C10.  With no items, for every delivery fee and every finite tax
    percent, [compute_totals] returns subtotal 0, tax 0 and a total equal
    to the delivery fee; and whatever the items, the tax is the same for
    every delivery fee: the fee is not taxed. *)
Theorem compute_totals_no_items fee tp :
  PyFloat.is_finite tp = true ->
  compute_totals [] fee tp = Ok (mkOrderTotals 0 fee 0 fee)
  /\ forall items fee1 fee2 totals1 totals2,
       compute_totals items fee1 tp = Ok totals1 ->
       compute_totals items fee2 tp = Ok totals2 ->
       tax totals1 = tax totals2.
Proof.
  intros Hfin. split.
  - destruct tp; try discriminate; unfold compute_totals; simpl;
      rewrite Z.add_0_r; reflexivity.
  - intros items fee1 fee2 totals1 totals2 H1 H2.
    rewrite compute_totals_eq in H1, H2.
    destruct (rounded_product (items_sum items) tp); [|discriminate].
    inversion H1. inversion H2. reflexivity.
Qed.

Lemma compute_totals_no_items_witness :
  PyFloat.is_finite five_percent = true
  /\ compute_totals [] 200 five_percent = Ok (mkOrderTotals 0 200 0 200).
Proof.
  split; [reflexivity|].
  exact (proj1 (compute_totals_no_items 200 five_percent eq_refl)).
Defined.

(** C1, as the code has it.  Whenever [compute_totals] returns, the
    subtotal is the sum over the items of quantity times unit price, the
    total is exactly subtotal plus delivery fee plus tax, and the tax is
    the binary64 product of the subtotal and the tax percent rounded to
    the nearest integer, ties to even: within one half of that product.
    For a finite tax percent, a subtotal below [2^53] in absolute value
    and an exact product below [2^53] in absolute value, [compute_totals]
    returns and the tax is within one unit of the exact product. *)
Theorem compute_totals_sum_and_tax items fee tp :
  (forall totals,
     compute_totals items fee tp = Ok totals ->
     subtotal totals = items_sum items
     /\ delivery_fee totals = fee
     /\ total totals = subtotal totals + fee + tax totals
     /\ rounded_product (items_sum items) tp = Ok (tax totals)
     /\ exists x,
          PyFloat.of_int (items_sum items) = Ok x
          /\ PyFloat.round (PyFloat.mul x tp) = Ok (tax totals)
          /\ (Qabs (inject_Z (tax totals) - PyFloat.value (PyFloat.mul x tp))
              <= 1 # 2)%Q)
  /\ (Z.abs (items_sum items) < 2 ^ 53 ->
      PyFloat.is_finite tp = true ->
      (Qabs (inject_Z (items_sum items) * PyFloat.value tp) < 2 ^ 53)%Q ->
      exists totals,
        compute_totals items fee tp = Ok totals
        /\ (Qabs (inject_Z (tax totals)
                  - inject_Z (items_sum items) * PyFloat.value tp) <= 1)%Q).
Proof.
  split.
  - intros totals H. rewrite compute_totals_eq in H.
    destruct (rounded_product (items_sum items) tp) as [t|] eqn:Ht; [|discriminate].
    inversion H; subst totals; clear H. cbn [subtotal delivery_fee tax total].
    repeat split.
    unfold rounded_product in Ht.
    destruct (PyFloat.of_int (items_sum items)) as [x|]; [|discriminate].
    exists x. split; [reflexivity|]. split; [exact Ht|].
    apply round_close. exact Ht.
  - intros Hn Hfin Hprod.
    destruct (rounded_product_close _ _ Hn Hfin Hprod) as (t & Ht & Hclose).
    rewrite compute_totals_eq, Ht. eexists. split; [reflexivity|exact Hclose].
Qed.

Lemma compute_totals_sum_and_tax_witness :
  Z.abs (items_sum [mkOrderItem 1 1 "pizza" "margherita" "Margherita"
                      (Some "medium") 2 800 "1"]) < 2 ^ 53
  /\ PyFloat.is_finite five_percent = true
  /\ exists totals,
       compute_totals [mkOrderItem 1 1 "pizza" "margherita" "Margherita"
                         (Some "medium") 2 800 "1"] 200 five_percent
       = Ok totals
       /\ (Qabs (inject_Z (tax totals) - inject_Z 1600 * PyFloat.value five_percent)
           <= 1)%Q.
Proof.
  split; [reflexivity|]. split; [reflexivity|].
  apply (proj2 (compute_totals_sum_and_tax
                  [mkOrderItem 1 1 "pizza" "margherita" "Margherita"
                     (Some "medium") 2 800 "1"] 200 five_percent)).
  - reflexivity.
  - reflexivity.
  - reflexivity.
Defined.

(** C1, as stated, fails: one item of quantity 1 and unit price
    [2^62 + 400] at the tax percent 0.5 has the exact tax [2^61 + 200];
    [compute_totals] returns the tax [2^61], 200 units away. *)
Lemma compute_totals_tax_off_by_200 :
  compute_totals [costly_item] 0 one_half
  = Ok (mkOrderTotals 4611686018427388304 0 2305843009213693952
          6917529027641082256)
  /\ (inject_Z (items_sum [costly_item]) * PyFloat.value one_half
      == inject_Z 2305843009213694152)%Q
  /\ ~ (Qabs (inject_Z 2305843009213693952
              - inject_Z (items_sum [costly_item]) * PyFloat.value one_half)
        <= 1)%Q.
Proof.
  split; [vm_compute; reflexivity|]. split; [vm_compute; reflexivity|].
  intros H. vm_compute in H. apply H. reflexivity.
Qed.

(** ** The scenarios of the specification, run *)

Section Scenarios.

Import Agent.

(** [strip] and [lower] on a query. *)
Example strip_lower_query :
  PyStr.lower (PyStr.strip "  MarGherita ") = "margherita".
Proof. reflexivity. Qed.

(** [round] rounds ties to the even integer: 0.5, 1.5, 2.5 and -1.5. *)
Example round_ties_to_even :
  rounded_product 1 one_half = Ok 0
  /\ rounded_product 3 one_half = Ok 2
  /\ rounded_product 5 one_half = Ok 2
  /\ rounded_product (-3) one_half = Ok (-2).
Proof. repeat split. Qed.

(** [float(n)] raises from [2^1024 - 2^970] on. *)
Example of_int_overflow :
  PyFloat.of_int (2 ^ 1024 - 2 ^ 970 - 1)
  = Ok (S754_finite false 9007199254740991 971)
  /\ PyFloat.of_int (2 ^ 1024 - 2 ^ 970)
     = Raise (OverflowError "int too large to convert to float").
Proof. split; vm_compute; reflexivity. Qed.

(** Scenario B: a delivery order with three extras of price 150. *)
Example scenario_delivery_three_extras :
  option_map co_totals
    (match fst (bind (add_extra small_menu 1 "coke" 3)
                  (fun _ => checkout small_menu 1) (started "delivery")) with
     | Ok r => Some r
     | Raise _ => None
     end)
  = Some (mkOrderTotals 450 200 22 672).
Proof. vm_compute. reflexivity. Qed.

(** Scenario C: checkout of an order with no items. *)
Example scenario_checkout_no_items :
  checkout small_menu 1 (started "pickup")
  = (Raise (ValueError "Order has no items"), started "pickup").
Proof. vm_compute. reflexivity. Qed.

(** Scenario D: an unknown pizza id adds no item. *)
Example scenario_unknown_pizza :
  add_pizza small_menu 1 "hawaii" "medium" 1 (started "pickup")
  = (Raise (ValueError "Unknown pizza_id: hawaii"), started "pickup").
Proof. vm_compute. reflexivity. Qed.

(** Scenario E: two status updates in a row. *)
Example scenario_two_status_updates :
  match fst (bind (admin_update_status 1 " Preparing" None)
               (fun _ => admin_update_status 1 "BAKING " (Some "in the oven"))
               (started "pickup")) with
  | Ok (SnapshotOf p) =>
      o_status (p_order p) = "baking"
      /\ map audit_entry (p_updates p)
         = [("draft", Some "Order created"); ("preparing", None);
            ("baking", Some "in the oven")]
  | _ => False
  end.
Proof. vm_compute. split; reflexivity. Qed.

(** A status update of an order the store does not have. *)
Example admin_update_status_unknown_order :
  fst (admin_update_status 9 "placed" None (started "pickup"))
  = Raise (IntegrityError "FOREIGN KEY constraint failed").
Proof. vm_compute. reflexivity. Qed.

End Scenarios.

(** * Further properties of the store and the tools *)

(** ** ORDER BY *)

Section OrderBy.

Context {A : Type}.
Variable key : A -> Z.

Lemma insert_by_perm x l : Permutation (insert_by key x l) (x :: l).
Proof.
  induction l as [|y l IH]; simpl; [reflexivity|].
  destruct (key x <? key y); [reflexivity|].
  rewrite IH. apply perm_swap.
Qed.

Lemma order_by_perm l : Permutation (order_by key l) l.
Proof.
  induction l as [|x l IH]; simpl; [reflexivity|].
  rewrite insert_by_perm, IH. reflexivity.
Qed.

Lemma insert_by_sorted x l :
  StronglySorted (fun a b => key a <= key b) l ->
  StronglySorted (fun a b => key a <= key b) (insert_by key x l).
Proof.
  induction 1 as [|y l Hs IH Hy]; simpl.
  - constructor; constructor.
  - destruct (key x <? key y) eqn:E.
    + apply Z.ltb_lt in E. constructor; [constructor; assumption|].
      constructor; [lia|]. eapply Forall_impl; [|exact Hy]. simpl. lia.
    + apply Z.ltb_ge in E. constructor; [exact IH|].
      rewrite insert_by_perm. constructor; assumption.
Qed.

Lemma order_by_sorted l :
  StronglySorted (fun a b => key a <= key b) (order_by key l).
Proof.
  induction l as [|x l IH]; simpl; [constructor|].
  apply insert_by_sorted. exact IH.
Qed.

Lemma sorted_app_inv (R : A -> A -> Prop) l1 l2 :
  StronglySorted R (l1 ++ l2) ->
  StronglySorted R l1 /\ StronglySorted R l2
  /\ forall a b, In a l1 -> In b l2 -> R a b.
Proof.
  induction l1 as [|x l1 IH]; simpl; intros H.
  - split; [constructor|]. split; [exact H|]. intros a b [].
  - apply StronglySorted_inv in H as [Hs Hx].
    destruct (IH Hs) as (H1 & H2 & H3).
    apply Forall_app in Hx as [Hx1 Hx2].
    split; [constructor; assumption|]. split; [exact H2|].
    intros a b [<-|Ha] Hb.
    + rewrite Forall_forall in Hx2. auto.
    + auto.
Qed.

Lemma sorted_snoc (R : A -> A -> Prop) r x :
  StronglySorted R r -> Forall (fun b => R b x) r ->
  StronglySorted R (r ++ [x]).
Proof.
  induction 1 as [|y r Hs IH Hy]; simpl; intros Hall.
  - constructor; constructor.
  - inversion Hall; subst. constructor; [apply IH; assumption|].
    apply Forall_app. split; [exact Hy|]. constructor; [assumption|constructor].
Qed.

Lemma sorted_rev l :
  StronglySorted (fun a b => key a <= key b) l ->
  StronglySorted (fun a b => key b <= key a) (rev l).
Proof.
  induction 1 as [|x l Hs IH Hx]; simpl; [constructor|].
  apply sorted_snoc; [exact IH|].
  rewrite Forall_forall in *. intros b Hb. apply Hx. apply in_rev. exact Hb.
Qed.

End OrderBy.

(** X1.  [get_order] returns [None] exactly when no order has the id.  When
    it returns a payload, the order row has the id, the items are the rows
    of [order_items] of that order and the updates the rows of
    [order_updates] of that order, each once, in ascending id order. *)
Theorem get_order_rows_in_id_order w oid :
  snd (get_order oid w) = w
  /\ match fst (get_order oid w) with
     | Raise _ => False
     | Ok None => forall o, In o (orders (tables w)) -> o_id o <> oid
     | Ok (Some p) =>
         In (p_order p) (orders (tables w))
         /\ o_id (p_order p) = oid
         /\ Permutation (p_items p) (items_of oid (tables w))
         /\ StronglySorted (fun a b => oi_id a <= oi_id b) (p_items p)
         /\ (forall i, In i (p_items p)
                       <-> In i (order_items (tables w)) /\ oi_order_id i = oid)
         /\ Permutation (p_updates p) (updates_of oid (tables w))
         /\ StronglySorted (fun a b => ou_id a <= ou_id b) (p_updates p)
         /\ (forall u, In u (p_updates p)
                       <-> In u (order_updates (tables w)) /\ ou_order_id u = oid)
     end.
Proof.
  split; [reflexivity|].
  rewrite get_order_run. cbn [fst]. unfold select_order.
  destruct (find (fun o => o_id o =? oid) (orders (tables w))) as [row|] eqn:E.
  - apply find_some in E as [Hin Hid]. apply Z.eqb_eq in Hid.
    cbn [p_order p_items p_updates]. unfold items_of, updates_of.
    split; [exact Hin|]. split; [exact Hid|].
    split; [apply order_by_perm|]. split; [apply order_by_sorted|].
    split.
    { intros i. split.
      - intros H. apply (Permutation_in _ (order_by_perm oi_id _)) in H.
        apply filter_In in H as [H1 H2]. apply Z.eqb_eq in H2. auto.
      - intros [H1 H2].
        apply (Permutation_in _ (Permutation_sym (order_by_perm oi_id _))).
        apply filter_In. split; [exact H1|]. apply Z.eqb_eq. exact H2. }
    split; [apply order_by_perm|]. split; [apply order_by_sorted|].
    intros u. split.
    + intros H. apply (Permutation_in _ (order_by_perm ou_id _)) in H.
      apply filter_In in H as [H1 H2]. apply Z.eqb_eq in H2. auto.
    + intros [H1 H2].
      apply (Permutation_in _ (Permutation_sym (order_by_perm ou_id _))).
      apply filter_In. split; [exact H1|]. apply Z.eqb_eq. exact H2.
  - intros o Hin Hid. apply (find_none _ _ E) in Hin.
    apply Z.eqb_neq in Hin. contradiction.
Qed.

(** X2.  [list_orders] changes nothing and returns orders of the store,
    the largest ids first: with a limit of zero or more, as many rows as
    the limit allows and the store has, every order left out having an id
    at most that of every order returned; with a negative limit, every
    order. *)
Theorem list_orders_most_recent_first limit w :
  snd (list_orders limit w) = w
  /\ exists rows rest,
       fst (list_orders limit w) = Ok rows
       /\ Permutation (rows ++ rest) (orders (tables w))
       /\ StronglySorted (fun a b => o_id b <= o_id a) rows
       /\ (forall a b, In a rows -> In b rest -> o_id b <= o_id a)
       /\ (0 <= limit ->
           List.length rows
           = Nat.min (Z.to_nat limit) (List.length (orders (tables w))))
       /\ (limit < 0 -> rest = []).
Proof.
  split; [reflexivity|].
  unfold list_orders, query. cbn [fst]. fold (tables w).
  set (all := rev (order_by o_id (orders (tables w)))).
  assert (Hperm : Permutation all (orders (tables w))).
  { unfold all. rewrite <- Permutation_rev. apply order_by_perm. }
  assert (Hsorted : StronglySorted (fun a b => o_id b <= o_id a) all).
  { unfold all. apply sorted_rev. apply order_by_sorted. }
  destruct (limit <? 0) eqn:E.
  - exists all, []. rewrite app_nil_r.
    repeat split; try assumption.
    + intros a b _ [].
    + apply Z.ltb_lt in E. lia.
  - apply Z.ltb_ge in E.
    exists (firstn (Z.to_nat limit) all), (skipn (Z.to_nat limit) all).
    rewrite firstn_skipn.
    rewrite <- (firstn_skipn (Z.to_nat limit) all) in Hsorted.
    apply sorted_app_inv in Hsorted as (H1 & _ & H3).
    repeat split; try assumption.
    + intros _. rewrite length_firstn, (Permutation_length Hperm). reflexivity.
    + lia.
Qed.

Section Trimming.

Import PyStr.

Lemma lstrip_no_leading_space s : starts_with_space (lstrip s) = false.
Proof.
  induction s as [|c s IH]; simpl; [reflexivity|].
  destruct (is_space c) eqn:E; [exact IH|]. simpl. exact E.
Qed.

Lemma rstrip_no_trailing_space s : ends_with_space (rstrip s) = false.
Proof.
  induction s as [|c s IH]; simpl; [reflexivity|].
  destruct (rstrip s) as [|c' r'] eqn:E.
  - destruct (is_space c) eqn:Ec; simpl; [reflexivity|exact Ec].
  - exact IH.
Qed.

Lemma rstrip_keeps_head s :
  starts_with_space s = false -> starts_with_space (rstrip s) = false.
Proof.
  destruct s as [|c s]; simpl; [reflexivity|]. intros H.
  destruct (rstrip s); [rewrite H|]; simpl; auto.
Qed.

(** What [strip] returns has no white space at either end. *)
Lemma strip_trimmed s :
  starts_with_space (strip s) = false /\ ends_with_space (strip s) = false.
Proof.
  unfold strip. split.
  - apply rstrip_keeps_head, lstrip_no_leading_space.
  - apply rstrip_no_trailing_space.
Qed.

End Trimming.

Lemma has_customer_snoc cs c id :
  cu_id c = id -> existsb (fun c' => cu_id c' =? id) (cs ++ [c]) = true.
Proof.
  intros <-. rewrite existsb_app. simpl.
  rewrite Z.eqb_refl, orb_true_r. reflexivity.
Qed.

(** X3.  [create_customer] checks nothing and always returns: a new id,
    above the id of every customer of the store; one row is appended, its
    name trimmed at both ends, its phone absent when the one given is
    absent or blank and trimmed otherwise; no other table changes. *)
Theorem create_customer_appends_trimmed_row name phone w :
  wf (tables w) = true ->
  exists c w',
    create_customer name phone w = (Ok (cu_id c), w')
    /\ customers (tables w') = customers (tables w) ++ [c]
    /\ (forall c', In c' (customers (tables w)) -> cu_id c' < cu_id c)
    /\ cu_name c = PyStr.strip name
    /\ starts_with_space (cu_name c) = false
    /\ ends_with_space (cu_name c) = false
    /\ match cu_phone c with
       | None => PyStr.strip (match phone with Some p => p | None => "" end) = ""
       | Some p =>
           p = PyStr.strip (match phone with Some p => p | None => "" end)
           /\ p <> "" /\ starts_with_space p = false /\ ends_with_space p = false
       end
    /\ orders (tables w') = orders (tables w)
    /\ order_items (tables w') = order_items (tables w)
    /\ order_updates (tables w') = order_updates (tables w)
    /\ committed (conn w') = tables w'
    /\ wf (tables w') = true.
Proof.
  intros Hwf. rewrite create_customer_run.
  exists (created_customer (tables w) name phone (now_of w)). eexists.
  split; [reflexivity|]. cbn [tables committed_world conn current committed].
  split; [reflexivity|]. split.
  { intros c' Hin. apply wf_iff in Hwf as (Hc & _).
    apply ascending_bounds in Hc. rewrite Forall_forall in Hc.
    apply Hc in Hin. simpl. lia. }
  split; [reflexivity|].
  destruct (strip_trimmed name) as [Hn1 Hn2].
  split; [exact Hn1|]. split; [exact Hn2|]. split.
  { unfold created_customer. cbn [cu_phone].
    destruct (strip_trimmed (match phone with Some p => p | None => "" end))
      as [Hp1 Hp2].
    destruct (PyStr.strip (match phone with Some p => p | None => "" end));
      simpl; [reflexivity|].
    repeat split; try assumption. discriminate. }
  repeat split. apply wf_after_create_customer. exact Hwf.
Qed.

Lemma create_customer_appends_trimmed_row_witness :
  wf (tables new_world) = true
  /\ exists c w',
       create_customer "  Bob " (Some "   ") new_world = (Ok (cu_id c), w')
       /\ cu_name c = "Bob" /\ cu_phone c = None.
Proof.
  split; [reflexivity|].
  destruct (create_customer_appends_trimmed_row "  Bob " (Some "   ") new_world
              eq_refl) as (c & w' & H1 & _ & _ & H4 & _ & _ & H7 & _).
  exists c, w'. split; [exact H1|]. split; [exact H4|].
  destruct (cu_phone c) as [p|]; [|reflexivity].
  destruct H7 as (H7 & H8 & _). exfalso. apply H8. exact H7.
Defined.

Section NewOrders.

(** The world [create_order] leaves and what [get_order] then reads. *)
Lemma create_order_snapshot w cid dt address notes :
  wf (tables w) = true -> fk_customer (tables w) cid = true ->
  let oid := seq_orders (tables w) + 1 in
  let w' := committed_world
              (after_create_order (tables w) cid dt address notes (now_of w)) 1 w in
  create_order cid dt address notes w = (Ok oid, w')
  /\ get_order oid w'
     = (Ok (Some (mkPayload (created_order (tables w) cid dt address notes (now_of w))
                    [] [creation_row (tables w) (now_of w)])), w')
  /\ (forall o, In o (orders (tables w)) -> o_id o < oid)
  /\ wf (tables w') = true.
Proof.
  intros Hwf Hfk oid w'.
  destruct (created_order_views (tables w) cid dt address notes (now_of w) Hwf)
    as (Hrow & Hit & Hup & Hhas).
  assert (Hwf' : wf (tables w') = true)
    by (apply wf_after_create_order; assumption).
  split; [apply create_order_present; exact Hfk|].
  split.
  { rewrite get_order_run, select_order_wf by exact Hwf'.
    change (tables w')
      with (after_create_order (tables w) cid dt address notes (now_of w)).
    fold oid in Hrow, Hit, Hup. rewrite Hrow, Hit, Hup. reflexivity. }
  split; [|exact Hwf'].
  intros o Hin. apply wf_iff in Hwf as (_ & Ho & _).
  apply ascending_bounds in Ho. rewrite Forall_forall in Ho.
  apply Ho in Hin. unfold oid. lia.
Qed.

End NewOrders.

(** X4.  [create_order] with no customer, or with the id of a customer of
    the store, returns an id above the id of every order of the store;
    [get_order] then shows the order in status draft with the fields
    given, no item and one audit row, draft with the message
    "Order created", all at the same time stamp.  With any other customer
    id it raises the foreign-key error and no table changes. *)
Theorem create_order_makes_draft_with_one_audit_row w cid dt address notes :
  wf (tables w) = true ->
  let r := fst (create_order cid dt address notes w) in
  let w' := snd (create_order cid dt address notes w) in
  if fk_customer (tables w) cid then
    exists oid,
      r = Ok oid
      /\ (forall o, In o (orders (tables w)) -> o_id o < oid)
      /\ get_order oid w'
         = (Ok (Some (mkPayload
                        (mkOrder oid cid "draft" dt address notes (now_of w)
                           (now_of w))
                        []
                        [mkOrderUpdate (seq_order_updates (tables w) + 1) oid
                           "draft" (Some "Order created") (now_of w)])), w')
      /\ customers (tables w') = customers (tables w)
      /\ order_items (tables w') = order_items (tables w)
      /\ committed (conn w') = tables w'
  else
    r = Raise (IntegrityError "FOREIGN KEY constraint failed")
    /\ tables w' = tables w
    /\ committed (conn w') = committed (conn w).
Proof.
  intros Hwf r w'. subst r w'.
  destruct (fk_customer (tables w) cid) eqn:Hfk.
  - destruct (create_order_snapshot w cid dt address notes Hwf Hfk)
      as (Hrun & Hget & Hfresh & _).
    rewrite Hrun. cbn [fst snd].
    exists (seq_orders (tables w) + 1).
    split; [reflexivity|]. split; [exact Hfresh|]. split; [exact Hget|].
    repeat split.
  - rewrite create_order_absent by exact Hfk. repeat split.
Qed.

Lemma create_order_makes_draft_with_one_audit_row_witness :
  wf (tables stocked_world) = true
  /\ fst (create_order (Some 5) "delivery" None None stocked_world)
     = Raise (IntegrityError "FOREIGN KEY constraint failed")
  /\ tables (snd (create_order (Some 5) "delivery" None None stocked_world))
     = tables stocked_world.
Proof.
  split; [reflexivity|].
  pose proof (create_order_makes_draft_with_one_audit_row stocked_world (Some 5)
                "delivery" None None eq_refl) as H.
  cbv zeta in H.
  change (fk_customer (tables stocked_world) (Some 5)) with false in H.
  destruct H as (H1 & H2 & _). split; assumption.
Defined.

(** X5.  [start_order] compares the delivery type trimmed and in lower
    case.  When it is neither "delivery" nor "pickup", [ValueError] is
    raised and the world is as before.  Otherwise an order is created with
    that normalised type and its id returned: a draft with no item and one
    audit row; a customer row is created first exactly when a name is
    given that is not blank, and the order refers to it. *)
Theorem start_order_validates_then_creates dt name phone address notes w :
  wf (tables w) = true ->
  if delivery_type_ok dt then
    exists oid w' row,
      Agent.start_order dt name phone address notes w = (Ok oid, w')
      /\ (forall o, In o (orders (tables w)) -> o_id o < oid)
      /\ get_order oid w'
         = (Ok (Some (mkPayload row []
                        [mkOrderUpdate (seq_order_updates (tables w) + 1) oid
                           "draft" (Some "Order created") (o_created_at row)])),
            w')
      /\ o_id row = oid /\ o_status row = "draft"
      /\ o_delivery_type row = PyStr.lower (PyStr.strip dt)
      /\ o_address row = address /\ o_notes row = notes
      /\ (if named name
          then exists c,
                 customers (tables w') = customers (tables w) ++ [c]
                 /\ o_customer_id row = Some (cu_id c)
                 /\ Some (cu_name c) = option_map PyStr.strip name
          else customers (tables w') = customers (tables w)
               /\ o_customer_id row = None)
      /\ wf (tables w') = true
  else
    Agent.start_order dt name phone address notes w
    = (Raise (ValueError "delivery_type must be 'delivery' or 'pickup'"), w).
Proof.
  intros Hwf. unfold Agent.start_order.
  fold (delivery_type_ok dt).
  destruct (delivery_type_ok dt); [|reflexivity]. cbn [negb].
  set (dt' := PyStr.lower (PyStr.strip dt)).
  assert (Hplain :
    forall cid w0, wf (tables w0) = true -> fk_customer (tables w0) cid = true ->
      seq_order_updates (tables w0) = seq_order_updates (tables w) ->
      orders (tables w0) = orders (tables w) ->
      exists oid w' row,
        create_order cid dt' address notes w0 = (Ok oid, w')
        /\ (forall o, In o (orders (tables w)) -> o_id o < oid)
        /\ get_order oid w'
           = (Ok (Some (mkPayload row []
                          [mkOrderUpdate (seq_order_updates (tables w) + 1) oid
                             "draft" (Some "Order created") (o_created_at row)])),
              w')
        /\ o_id row = oid /\ o_status row = "draft"
        /\ o_delivery_type row = dt'
        /\ o_address row = address /\ o_notes row = notes
        /\ o_customer_id row = cid
        /\ customers (tables w') = customers (tables w0)
        /\ wf (tables w') = true).
  { intros cid w0 Hwf0 Hfk Hseq Hord.
    destruct (create_order_snapshot w0 cid dt' address notes Hwf0 Hfk)
      as (Hrun & Hget & Hfresh & Hwf').
    eexists _, _, _. split; [exact Hrun|].
    split; [rewrite <- Hord; exact Hfresh|].
    split; [rewrite <- Hseq; exact Hget|].
    repeat split. exact Hwf'. }
  unfold named.
  destruct name as [n|].
  - destruct (PyStr.truthy n && PyStr.truthy (PyStr.strip n)).
    + unfold bind at 1. unfold bind at 1. rewrite create_customer_run.
      unfold ret at 1.
      set (w1 := committed_world
                   (after_create_customer (tables w) n phone (now_of w)) 1 w).
      destruct (Hplain (Some (seq_customers (tables w) + 1)) w1)
        as (oid & w' & row & H1 & H2 & H3 & H4 & H5 & H6 & H7 & H8 & H9 & H10 & H11).
      * apply wf_after_create_customer. exact Hwf.
      * apply has_customer_snoc. reflexivity.
      * reflexivity.
      * reflexivity.
      * exists oid, w', row. repeat split; try assumption.
        exists (created_customer (tables w) n phone (now_of w)).
        split; [rewrite H10; reflexivity|]. split; [exact H9|reflexivity].
    + unfold bind at 1. unfold ret at 1.
      destruct (Hplain None w Hwf eq_refl eq_refl eq_refl)
        as (oid & w' & row & H1 & H2 & H3 & H4 & H5 & H6 & H7 & H8 & H9 & H10 & H11).
      exists oid, w', row. repeat split; assumption.
  - unfold bind at 1. unfold ret at 1.
    destruct (Hplain None w Hwf eq_refl eq_refl eq_refl)
      as (oid & w' & row & H1 & H2 & H3 & H4 & H5 & H6 & H7 & H8 & H9 & H10 & H11).
    exists oid, w', row. repeat split; assumption.
Qed.

Lemma start_order_validates_then_creates_witness :
  wf (tables new_world) = true
  /\ Agent.start_order "by drone" None None None None new_world
     = (Raise (ValueError "delivery_type must be 'delivery' or 'pickup'"),
        new_world).
Proof.
  split; [reflexivity|].
  exact (start_order_validates_then_creates "by drone" None None None None
           new_world eq_refl).
Defined.

Section AddingItems.

Lemma items_sum_app l1 l2 : items_sum (l1 ++ l2) = items_sum l1 + items_sum l2.
Proof. induction l1 as [|i l1 IH]; simpl; [reflexivity|]. rewrite IH. lia. Qed.

(** What [get_order] reads after [add_order_item] on that order. *)
Lemma select_order_after_add_item t oid ty iid name qty price size created
    updated p :
  wf t = true -> select_order oid t = Some p ->
  select_order oid
    (after_add_order_item t oid ty iid name qty price size created updated)
  = Some (mkPayload (set_updated_at updated (p_order p))
            (p_items p ++ [added_item t oid ty iid name qty price size created])
            (p_updates p)).
Proof.
  intros Hwf Hsel.
  pose proof (select_order_has_order _ _ _ Hsel) as Hhas.
  rewrite select_order_wf in Hsel by assumption.
  destruct (order_row oid t) as [row|] eqn:Hrow; [|discriminate].
  inversion Hsel; subst p; cbn [p_order p_items p_updates]. clear Hsel.
  pose proof (order_row_id _ _ _ Hrow) as Hid.
  rewrite select_order_wf by (apply wf_after_add_order_item; assumption).
  assert (Hstep : after_add_order_item t oid ty iid name qty price size created
                    updated
                  = step created updated
                      (AddOrderItem oid ty iid name qty price size) t).
  { simpl. rewrite Hhas. reflexivity. }
  rewrite Hstep. rewrite items_of_step, updates_of_step by assumption.
  rewrite <- Hstep. cbn [appended]. rewrite Hhas, Z.eqb_refl, app_nil_r.
  unfold after_add_order_item. rewrite order_row_touch, Hrow.
  cbn [option_map andb]. rewrite Hid, Z.eqb_refl. reflexivity.
Qed.

(** [add_order_item] on an order [get_order] finds. *)
Lemma add_order_item_snapshot w oid ty iid name qty price size p :
  wf (tables w) = true -> select_order oid (tables w) = Some p ->
  let item := added_item (tables w) oid ty iid name qty price size (now_of w) in
  let w' := committed_world
              (after_add_order_item (tables w) oid ty iid name qty price size
                 (now_of w) (clock w (S (ticks w)))) 2 w in
  add_order_item oid ty iid name qty price size w = (Ok (oi_id item), w')
  /\ select_order oid (tables w')
     = Some (mkPayload (set_updated_at (clock w (S (ticks w))) (p_order p))
               (p_items p ++ [item]) (p_updates p))
  /\ (forall i, In i (order_items (tables w)) -> oi_id i < oi_id item)
  /\ wf (tables w') = true.
Proof.
  intros Hwf Hsel item w'.
  pose proof (select_order_has_order _ _ _ Hsel) as Hhas.
  split; [apply add_order_item_present; exact Hhas|].
  split; [apply select_order_after_add_item; assumption|].
  split; [|apply wf_after_add_order_item; assumption].
  intros i Hin. apply wf_iff in Hwf as (_ & _ & Hi & _).
  apply ascending_bounds in Hi. rewrite Forall_forall in Hi.
  apply Hi in Hin. simpl. lia.
Qed.

(** A tool that adds an item and reads the order back. *)
Lemma add_then_read w oid ty iid name qty price size :
  bind (add_order_item oid ty iid name qty price size)
    (fun _ => bind (get_order oid) (fun p => ret (Agent.snapshot_or_error p))) w
  = match add_order_item oid ty iid name qty price size w with
    | (Ok _, w') => (Ok (Agent.snapshot_or_error (select_order oid (tables w'))), w')
    | (Raise e, w') => (Raise e, w')
    end.
Proof.
  unfold bind at 1.
  destruct (add_order_item oid ty iid name qty price size w) as [[id|e] w'];
    reflexivity.
Qed.

End AddingItems.

Section ItemTools.

(** The two ways a tool that adds an item and reads the order back ends. *)
Lemma add_then_read_cases w oid ty iid name qty price size :
  wf (tables w) = true ->
  match select_order oid (tables w) with
  | Some p =>
      let item := mkOrderItem (seq_order_items (tables w) + 1) oid ty iid name
                    size qty price (now_of w) in
      let p' := mkPayload (set_updated_at (clock w (S (ticks w))) (p_order p))
                  (p_items p ++ [item]) (p_updates p) in
      exists w',
        bind (add_order_item oid ty iid name qty price size)
          (fun _ => bind (get_order oid)
                      (fun p => ret (Agent.snapshot_or_error p))) w
        = (Ok (Agent.SnapshotOf p'), w')
        /\ get_order oid w' = (Ok (Some p'), w')
        /\ (forall i, In i (order_items (tables w)) -> oi_id i < oi_id item)
        /\ order_updates (tables w') = order_updates (tables w)
        /\ committed (conn w') = tables w'
        /\ wf (tables w') = true
  | None =>
      bind (add_order_item oid ty iid name qty price size)
        (fun _ => bind (get_order oid)
                    (fun p => ret (Agent.snapshot_or_error p))) w
      = (Raise (IntegrityError "FOREIGN KEY constraint failed"), failed_world 1 w)
  end.
Proof.
  intros Hwf. rewrite add_then_read.
  destruct (select_order oid (tables w)) as [p|] eqn:Hsel.
  - destruct (add_order_item_snapshot w oid ty iid name qty price size p Hwf Hsel)
      as (Hrun & Hsel' & Hfresh & Hwf').
    cbv zeta in *. rewrite Hrun, Hsel'. eexists. split; [reflexivity|].
    split; [rewrite get_order_run, Hsel'; reflexivity|].
    split; [exact Hfresh|]. split; [reflexivity|]. split; [reflexivity|exact Hwf'].
  - rewrite add_order_item_absent by (apply select_order_none; exact Hsel).
    reflexivity.
Qed.

End ItemTools.

(** X6.  [add_pizza] checks the size, trimmed and in lower case, before
    it looks the pizza up; a size that is none of small, medium and large,
    or an id the catalog does not have, raises [ValueError] and the world
    is as before.  On an order of the store it appends one item, of the
    catalog's id, name and price for that size and a new item id, and
    returns the order as [get_order] now reads it: one more item, the
    subtotal higher by quantity times price, status and audit log as
    before.  On any other order id the foreign-key error is raised and no
    table changes. *)
Theorem add_pizza_checks_then_appends menu oid pid size qty w :
  wf (tables w) = true ->
  let size' := PyStr.lower (PyStr.strip size) in
  if negb (Agent.valid_size size') then
    Agent.add_pizza menu oid pid size qty w
    = (Raise (ValueError "size must be one of: small, medium, large"), w)
  else
    match Menu.find_pizza menu pid with
    | None =>
        Agent.add_pizza menu oid pid size qty w
        = (Raise (ValueError ("Unknown pizza_id: " ++ pid)%string), w)
    | Some pizza =>
        let price :=
          if String.eqb size' "small" then Menu.small (Menu.pizza_sizes pizza)
          else if String.eqb size' "medium" then Menu.medium (Menu.pizza_sizes pizza)
          else Menu.large (Menu.pizza_sizes pizza) in
        match fst (get_order oid w) with
        | Ok (Some p) =>
            let item := mkOrderItem (seq_order_items (tables w) + 1) oid "pizza"
                          (Menu.pizza_id pizza) (Menu.pizza_name pizza)
                          (Some size') qty price (now_of w) in
            exists p' w',
              Agent.add_pizza menu oid pid size qty w
              = (Ok (Agent.SnapshotOf p'), w')
              /\ get_order oid w' = (Ok (Some p'), w')
              /\ p_items p' = p_items p ++ [item]
              /\ (forall i, In i (order_items (tables w)) -> oi_id i < oi_id item)
              /\ items_sum (p_items p') = items_sum (p_items p) + qty * price
              /\ p_updates p' = p_updates p
              /\ o_status (p_order p') = o_status (p_order p)
              /\ o_updated_at (p_order p') = clock w (S (ticks w))
        | _ =>
            fst (Agent.add_pizza menu oid pid size qty w)
            = Raise (IntegrityError "FOREIGN KEY constraint failed")
            /\ tables (snd (Agent.add_pizza menu oid pid size qty w)) = tables w
        end
    end.
Proof.
  intros Hwf size'. unfold Agent.add_pizza. fold size'.
  destruct (negb (Agent.valid_size size')); [reflexivity|].
  destruct (Menu.find_pizza menu pid) as [pizza|]; [|reflexivity].
  cbv zeta. fold (Agent.size_price (Menu.pizza_sizes pizza) size').
  rewrite get_order_run. cbn [fst].
  pose proof (add_then_read_cases w oid "pizza" (Menu.pizza_id pizza)
                (Menu.pizza_name pizza) qty
                (Agent.size_price (Menu.pizza_sizes pizza) size') (Some size') Hwf)
    as H.
  destruct (select_order oid (tables w)) as [p|].
  - cbv zeta in H. destruct H as (w' & Hrun & Hget & Hfresh & _).
    eexists _, w'. split; [exact Hrun|]. split; [exact Hget|].
    cbn [p_items p_updates p_order]. split; [reflexivity|].
    split; [exact Hfresh|].
    split; [rewrite items_sum_app; simpl; lia|]. repeat split.
  - rewrite H. split; reflexivity.
Qed.

Lemma add_pizza_checks_then_appends_witness :
  wf (tables (started "pickup")) = true
  /\ Agent.add_pizza small_menu 1 "MARGHERITA" "giant" 1 (started "pickup")
     = (Raise (ValueError "size must be one of: small, medium, large"),
        started "pickup").
Proof.
  split; [reflexivity|].
  exact (add_pizza_checks_then_appends small_menu 1 "MARGHERITA" "giant" 1
           (started "pickup") eq_refl).
Defined.

(** X7.  [add_extra] raises [ValueError] for an id the catalog does not
    have, the world as before.  On an order of the store it appends one
    item of type extra with no size, the catalog's id, name and price and a
    new item id, and returns the order as [get_order] now reads it.  On
    any other order id the foreign-key error is raised and no table
    changes. *)
Theorem add_extra_checks_then_appends menu oid eid qty w :
  wf (tables w) = true ->
  match Menu.find_extra menu eid with
  | None =>
      Agent.add_extra menu oid eid qty w
      = (Raise (ValueError ("Unknown extra_id: " ++ eid)%string), w)
  | Some extra =>
      match fst (get_order oid w) with
      | Ok (Some p) =>
          let item := mkOrderItem (seq_order_items (tables w) + 1) oid "extra"
                        (Menu.extra_id extra) (Menu.extra_name extra) None qty
                        (Menu.extra_price extra) (now_of w) in
          exists p' w',
            Agent.add_extra menu oid eid qty w = (Ok (Agent.SnapshotOf p'), w')
            /\ get_order oid w' = (Ok (Some p'), w')
            /\ p_items p' = p_items p ++ [item]
            /\ (forall i, In i (order_items (tables w)) -> oi_id i < oi_id item)
            /\ items_sum (p_items p')
               = items_sum (p_items p) + qty * Menu.extra_price extra
            /\ p_updates p' = p_updates p
            /\ o_status (p_order p') = o_status (p_order p)
      | _ =>
          fst (Agent.add_extra menu oid eid qty w)
          = Raise (IntegrityError "FOREIGN KEY constraint failed")
          /\ tables (snd (Agent.add_extra menu oid eid qty w)) = tables w
      end
  end.
Proof.
  intros Hwf. unfold Agent.add_extra.
  destruct (Menu.find_extra menu eid) as [extra|]; [|reflexivity].
  rewrite get_order_run. cbn [fst].
  pose proof (add_then_read_cases w oid "extra" (Menu.extra_id extra)
                (Menu.extra_name extra) qty (Menu.extra_price extra) None Hwf)
    as H.
  destruct (select_order oid (tables w)) as [p|].
  - cbv zeta in H. destruct H as (w' & Hrun & Hget & Hfresh & _).
    eexists _, w'. split; [exact Hrun|]. split; [exact Hget|].
    cbn [p_items p_updates p_order]. split; [reflexivity|].
    split; [exact Hfresh|].
    split; [rewrite items_sum_app; simpl; lia|]. repeat split.
  - rewrite H. split; reflexivity.
Qed.

Lemma add_extra_checks_then_appends_witness :
  wf (tables (started "delivery")) = true
  /\ exists p' w',
       Agent.add_extra small_menu 1 " Coke" 3 (started "delivery")
       = (Ok (Agent.SnapshotOf p'), w')
       /\ items_sum (p_items p') = 450.
Proof.
  split; [reflexivity|].
  pose proof (add_extra_checks_then_appends small_menu 1 " Coke" 3
                (started "delivery") eq_refl) as H.
  hnf in H. destruct H as (p' & w' & H1 & _ & _ & _ & H5 & _).
  exists p', w'. split; [exact H1|]. rewrite H5. reflexivity.
Defined.

Section ReadBack.

(** A write that returns only on an order of the store, then a read of
    that order: the read finds the order. *)
Lemma read_back_finds_order {A} (m : M A) oid w msg :
  (forall a w', m w = (Ok a, w') -> has_order (tables w') oid = true) ->
  fst (bind m (fun _ => bind (get_order oid)
                          (fun p => ret (Agent.snapshot_or_error p))) w)
  <> Ok (Agent.ErrorDict msg).
Proof.
  intros Hm. unfold bind at 1.
  destruct (m w) as [[a|e] w'] eqn:E; [|discriminate].
  specialize (Hm a w' eq_refl).
  unfold bind, ret. rewrite get_order_run. cbn [fst].
  destruct (select_order oid (tables w')) eqn:Hsel; [discriminate|].
  apply select_order_none in Hsel. congruence.
Qed.

Lemma add_order_item_ok_has_order oid ty iid name qty price size w a w' :
  add_order_item oid ty iid name qty price size w = (Ok a, w') ->
  has_order (tables w') oid = true.
Proof.
  destruct (has_order (tables w) oid) eqn:E.
  - rewrite add_order_item_present by exact E. intros H. inversion H.
    unfold has_order; simpl. rewrite has_order_touch. exact E.
  - rewrite add_order_item_absent by exact E. discriminate.
Qed.

Lemma set_order_status_ok_has_order oid status message w a w' :
  set_order_status oid status message w = (Ok a, w') ->
  has_order (tables w') oid = true.
Proof.
  destruct (has_order (tables w) oid) eqn:E.
  - rewrite set_order_status_present by exact E. intros H. inversion H.
    unfold has_order; simpl. rewrite has_order_restatus. exact E.
  - rewrite set_order_status_absent by exact E. discriminate.
Qed.

End ReadBack.

(** X8.  [add_pizza], [add_extra] and [admin_update_status] never return
    the dictionary [{"error": "order not found"}]: the write before the
    read raises on an order id the store does not have, and after a write
    that returned the read finds the order. *)
Theorem tools_never_return_the_error_dictionary menu w msg :
  (forall oid pid size qty,
     fst (Agent.add_pizza menu oid pid size qty w) <> Ok (Agent.ErrorDict msg))
  /\ (forall oid eid qty,
        fst (Agent.add_extra menu oid eid qty w) <> Ok (Agent.ErrorDict msg))
  /\ (forall oid status message,
        fst (Agent.admin_update_status oid status message w)
        <> Ok (Agent.ErrorDict msg)).
Proof.
  split; [|split].
  - intros oid pid size qty. unfold Agent.add_pizza.
    destruct (negb _); [discriminate|].
    destruct (Menu.find_pizza menu pid); [|discriminate].
    apply read_back_finds_order. intros a w'.
    apply add_order_item_ok_has_order.
  - intros oid eid qty. unfold Agent.add_extra.
    destruct (Menu.find_extra menu eid); [|discriminate].
    apply read_back_finds_order. intros a w'.
    apply add_order_item_ok_has_order.
  - intros oid status message. unfold Agent.admin_update_status.
    apply read_back_finds_order. intros a w'.
    apply set_order_status_ok_has_order.
Qed.

(** X9.  [admin_update_status] takes any text as status: it stores the
    text trimmed and in lower case, with no check against the statuses of
    the status flow.  On an order of the store it returns the order as
    [get_order] now reads it: that status, the items as before, one more
    audit row with that status and the message given.  On any other order
    id the foreign-key error is raised and no table changes. *)
Theorem admin_update_status_stores_any_status oid status message w :
  wf (tables w) = true ->
  let s := PyStr.lower (PyStr.strip status) in
  match fst (get_order oid w) with
  | Ok (Some p) =>
      let p' := mkPayload (set_status s (now_of w) (p_order p)) (p_items p)
                  (p_updates p
                   ++ [mkOrderUpdate (seq_order_updates (tables w) + 1) oid s
                         message (now_of w)]) in
      exists w',
        Agent.admin_update_status oid status message w
        = (Ok (Agent.SnapshotOf p'), w')
        /\ get_order oid w' = (Ok (Some p'), w')
        /\ o_status (p_order p') = s
        /\ committed (conn w') = tables w'
  | _ =>
      fst (Agent.admin_update_status oid status message w)
      = Raise (IntegrityError "FOREIGN KEY constraint failed")
      /\ tables (snd (Agent.admin_update_status oid status message w)) = tables w
  end.
Proof.
  intros Hwf s. rewrite get_order_run. cbn [fst].
  unfold Agent.admin_update_status. fold s.
  destruct (select_order oid (tables w)) as [p|] eqn:Hsel.
  - unfold bind at 1. rewrite set_order_status_present
      by (eapply select_order_has_order; exact Hsel).
    unfold bind, ret. rewrite !get_order_run.
    change (tables (committed_world
                      (after_set_order_status (tables w) oid s message (now_of w))
                      1 w))
      with (after_set_order_status (tables w) oid s message (now_of w)).
    rewrite (select_order_after_set_status _ _ _ _ _ _ Hwf Hsel).
    eexists. cbv zeta. split; [reflexivity|]. repeat split.
    rewrite get_order_run.
    change (tables (committed_world
                      (after_set_order_status (tables w) oid s message (now_of w))
                      1 w))
      with (after_set_order_status (tables w) oid s message (now_of w)).
    rewrite (select_order_after_set_status _ _ _ _ _ _ Hwf Hsel). reflexivity.
  - unfold bind at 1 3.
    rewrite set_order_status_absent by (apply select_order_none; exact Hsel).
    split; reflexivity.
Qed.

Lemma admin_update_status_stores_any_status_witness :
  wf (tables stocked_world) = true
  /\ exists p' w',
       Agent.admin_update_status 1 "  Lost in SPACE " None stocked_world
       = (Ok (Agent.SnapshotOf p'), w')
       /\ o_status (p_order p') = "lost in space".
Proof.
  split; [reflexivity|].
  pose proof (admin_update_status_stores_any_status 1 "  Lost in SPACE " None
                stocked_world eq_refl) as H.
  hnf in H. destruct H as (w' & H1 & _ & H3 & _).
  eexists _, w'. split; [exact H1|exact H3].
Defined.

(** X10.  [remove_item] acknowledges with [{"ok": True}] whatever the id,
    also when no item has it and nothing is deleted; and two removals
    leave the same world in either order. *)
Theorem remove_item_acknowledges_and_commutes a b w :
  fst (Agent.remove_item a w) = Ok true
  /\ (has_item (tables w) a = false ->
      tables (snd (Agent.remove_item a w)) = tables w)
  /\ snd (Agent.remove_item a (snd (Agent.remove_item b w)))
     = snd (Agent.remove_item b (snd (Agent.remove_item a w))).
Proof.
  split; [reflexivity|]. split.
  - intros H. change (tables (snd (Agent.remove_item a w)))
      with (after_remove_order_item (tables w) a).
    apply after_remove_absent. exact H.
  - change (snd (Agent.remove_item a (snd (Agent.remove_item b w))))
      with (committed_world
              (after_remove_order_item (after_remove_order_item (tables w) b) a)
              0 w).
    change (snd (Agent.remove_item b (snd (Agent.remove_item a w))))
      with (committed_world
              (after_remove_order_item (after_remove_order_item (tables w) a) b)
              0 w).
    f_equal. unfold after_remove_order_item, with_order_items; simpl.
    f_equal. apply filter_comm.
Qed.

Section Frame.

Lemma order_row_restatus status now id oid t its ups a b c d :
  order_row oid
    (mkTables (customers t) (restatus status now id (orders t)) its ups a b c d)
  = option_map (fun o => if o_id o =? id then set_status status now o else o)
      (order_row oid t).
Proof.
  unfold order_row; simpl. unfold restatus. apply find_map_same.
  intros o. destruct (o_id o =? id); reflexivity.
Qed.

Lemma option_map_other_order (g : Order -> Order) id oid t :
  id <> oid ->
  option_map (fun o => if o_id o =? id then g o else o) (order_row oid t)
  = order_row oid t.
Proof.
  intros Hne. destruct (order_row oid t) as [row|] eqn:E; [|reflexivity].
  apply order_row_id in E. simpl.
  destruct (o_id row =? id) eqn:E'; [apply Z.eqb_eq in E'; lia|reflexivity].
Qed.

Lemma filter_not_owned id oid (l : list OrderItem) :
  existsb (fun i => (oi_id i =? id) && (oi_order_id i =? oid)) l = false ->
  filter (fun i => negb (oi_id i =? id)) (filter (fun i => oi_order_id i =? oid) l)
  = filter (fun i => oi_order_id i =? oid) l.
Proof.
  induction l as [|i l IH]; simpl; [reflexivity|].
  intros H. apply orb_false_iff in H as [H1 H2].
  destruct (oi_order_id i =? oid) eqn:E; [|auto].
  rewrite andb_true_r in H1. simpl. rewrite H1. simpl. rewrite IH by exact H2.
  reflexivity.
Qed.

(** A call changes what [get_order] reads of the orders it touches
    only. *)
Lemma select_order_step_untouched now later c t oid :
  wf t = true -> touches t c oid = false ->
  select_order oid (step now later c t) = select_order oid t.
Proof.
  intros Hwf Ht.
  rewrite (select_order_wf oid (step now later c t)) by (apply wf_step; exact Hwf).
  rewrite (select_order_wf oid t) by exact Hwf.
  rewrite items_of_step.
  destruct c; simpl in Ht |- *.
  - reflexivity.
  - destruct (fk_customer t customer_id); [|reflexivity].
    unfold order_row, updates_of; simpl.
    rewrite find_snoc, filter_app. simpl.
    rewrite (Z.eqb_sym (seq_orders t + 1) oid), Ht, app_nil_r.
    destruct (find _ (orders t)); reflexivity.
  - apply Z.eqb_neq in Ht. rewrite (proj2 (Z.eqb_neq _ _) Ht), andb_false_r.
    destruct (has_order t order_id); [|reflexivity].
    unfold after_add_order_item at 1. rewrite order_row_touch.
    rewrite (option_map_other_order _ _ _ _ Ht). reflexivity.
  - unfold items_of. rewrite (filter_not_owned _ _ _ Ht). reflexivity.
  - apply Z.eqb_neq in Ht.
    destruct (has_order t order_id); [|reflexivity].
    unfold after_set_order_status at 1. rewrite order_row_restatus.
    rewrite (option_map_other_order _ _ _ _ Ht).
    unfold updates_of; simpl. rewrite filter_app. simpl.
    rewrite (proj2 (Z.eqb_neq _ _) Ht), app_nil_r. reflexivity.
Qed.

End Frame.

(** X11.  A call of the store changes only the orders it touches: what
    [get_order] returns for any other order id, row, items and audit log,
    is what it returned before the call. *)
Theorem calls_leave_other_orders_alone c oid w :
  wf (tables w) = true ->
  touches (tables w) c oid = false ->
  fst (get_order oid (run_call c w)) = fst (get_order oid w).
Proof.
  intros Hwf Ht. rewrite !get_order_run. cbn [fst].
  rewrite run_call_tables, select_order_step_untouched by assumption.
  reflexivity.
Qed.

Lemma calls_leave_other_orders_alone_witness :
  wf (tables (snd (create_order None "delivery" None None stocked_world))) = true
  /\ touches (tables (snd (create_order None "delivery" None None stocked_world)))
       (SetOrderStatus 2 "placed" None) 1 = false
  /\ fst (get_order 1 (run_call (SetOrderStatus 2 "placed" None)
                         (snd (create_order None "delivery" None None
                                 stocked_world))))
     = fst (get_order 1 (snd (create_order None "delivery" None None
                                stocked_world))).
Proof.
  split; [reflexivity|]. split; [reflexivity|].
  apply calls_leave_other_orders_alone; reflexivity.
Defined.

(** X12.  [add_order_item] on an order of the store, then
    [remove_order_item] of the id it returned: the items table is as
    before the two calls, as are the customers and the audit log; the
    orders differ by the time stamp of that order alone; the item counter
    has moved on, so the id is not given out again. *)
Theorem add_then_remove_restores_items w oid ty iid name qty price size :
  wf (tables w) = true ->
  has_order (tables w) oid = true ->
  exists id w1,
    add_order_item oid ty iid name qty price size w = (Ok id, w1)
    /\ fst (remove_order_item id w1) = Ok tt
    /\ let w2 := snd (remove_order_item id w1) in
       order_items (tables w2) = order_items (tables w)
       /\ customers (tables w2) = customers (tables w)
       /\ order_updates (tables w2) = order_updates (tables w)
       /\ orders (tables w2) = touch (clock w (S (ticks w))) oid (orders (tables w))
       /\ seq_order_items (tables w2) = id
       /\ id = seq_order_items (tables w) + 1
       /\ retired id (tables w2).
Proof.
  intros Hwf Hhas.
  rewrite add_order_item_present by exact Hhas.
  eexists _, _. split; [reflexivity|]. split; [reflexivity|].
  cbv zeta. rewrite remove_order_item_run.
  cbn [snd tables committed_world conn current].
  assert (Hno : existsb (fun i => oi_id i =? seq_order_items (tables w) + 1)
                  (order_items (tables w)) = false).
  { destruct (existsb _ (order_items (tables w))) eqn:E; [|reflexivity].
    apply (wf_item_id_le _ _ Hwf) in E. lia. }
  assert (Hitems : filter (fun i => negb (oi_id i =? seq_order_items (tables w) + 1))
                     (order_items (tables w)
                      ++ [added_item (tables w) oid ty iid name qty price size
                            (now_of w)])
                   = order_items (tables w)).
  { rewrite filter_app, filter_absent by exact Hno. simpl.
    rewrite Z.eqb_refl. simpl. apply app_nil_r. }
  unfold after_remove_order_item, with_order_items, after_add_order_item.
  cbn [order_items customers orders order_updates seq_order_items seq_customers
       seq_orders seq_order_updates].
  rewrite Hitems. repeat split.
  - simpl. lia.
  - unfold has_item. simpl. exact Hno.
Qed.

Lemma add_then_remove_restores_items_witness :
  wf (tables stocked_world) = true
  /\ has_order (tables stocked_world) 1 = true
  /\ exists id w1,
       add_order_item 1 "extra" "coke" "Coke" 3 150 None stocked_world = (Ok id, w1)
       /\ order_items (tables (snd (remove_order_item id w1)))
          = order_items (tables stocked_world).
Proof.
  split; [reflexivity|]. split; [reflexivity|].
  destruct (add_then_remove_restores_items stocked_world 1 "extra" "coke" "Coke"
              3 150 None eq_refl eq_refl) as (id & w1 & H1 & _ & H3 & _).
  exists id, w1. split; [exact H1|exact H3].
Defined.

(** X13.  When [checkout] returns, the order had an item, and the totals
    returned are those of [compute_totals] on the items of the order: the
    subtotal their sum, the delivery fee the fee of the catalog when the
    stored delivery type is exactly "delivery" and 0 for any other text,
    the total subtotal plus fee plus tax.  The prices of the catalog play
    no part: two catalogs of the same fee and tax percent give the same
    result. *)
Theorem checkout_totals_from_stored_items menu oid w r w' :
  Agent.checkout menu oid w = (Ok r, w') ->
  exists p,
    fst (get_order oid w) = Ok (Some p)
    /\ p_items p <> []
    /\ compute_totals (p_items p)
         (if String.eqb (o_delivery_type (p_order p)) "delivery"
          then Menu.delivery_fee menu else 0)
         (Menu.tax_percent menu)
       = Ok (Agent.co_totals r)
    /\ subtotal (Agent.co_totals r) = items_sum (p_items p)
    /\ delivery_fee (Agent.co_totals r)
       = (if String.eqb (o_delivery_type (p_order p)) "delivery"
          then Menu.delivery_fee menu else 0)
    /\ total (Agent.co_totals r)
       = subtotal (Agent.co_totals r) + delivery_fee (Agent.co_totals r)
         + tax (Agent.co_totals r)
    /\ forall menu',
         Menu.delivery_fee menu' = Menu.delivery_fee menu ->
         Menu.tax_percent menu' = Menu.tax_percent menu ->
         Agent.checkout menu' oid w = (Ok r, w').
Proof.
  intros H. rewrite checkout_cases in H. rewrite get_order_run. cbn [fst].
  destruct (select_order oid (tables w)) as [p|] eqn:Hsel; [|discriminate].
  exists p. split; [reflexivity|].
  destruct (p_items p) as [|i items] eqn:Hitems; [discriminate|].
  unfold checkout_fee in H.
  destruct (compute_totals (i :: items) _ _) as [totals|e] eqn:Htot; [|discriminate].
  cbv zeta in H. inversion H; subst r w'; clear H. cbn [Agent.co_totals].
  split; [discriminate|]. split; [reflexivity|].
  pose proof Htot as Htot'. rewrite compute_totals_eq in Htot'.
  destruct (rounded_product (items_sum (i :: items)) (Menu.tax_percent menu));
    [|discriminate].
  inversion Htot'; subst totals. cbn [subtotal delivery_fee total tax].
  repeat split.
  intros menu' Hfee Htax. rewrite checkout_cases, Hsel, Hitems.
  unfold checkout_fee. rewrite Hfee, Htax, Htot. reflexivity.
Qed.

Lemma checkout_totals_from_stored_items_witness :
  exists r w' p,
    Agent.checkout small_menu 1 stocked_world = (Ok r, w')
    /\ fst (get_order 1 stocked_world) = Ok (Some p)
    /\ p_items p <> []
    /\ subtotal (Agent.co_totals r) = items_sum (p_items p).
Proof.
  destruct (Agent.checkout small_menu 1 stocked_world) as [[r|e] w'] eqn:H.
  - destruct (checkout_totals_from_stored_items small_menu 1 stocked_world r w' H)
      as (p & H1 & H2 & _ & H4 & _).
    exists r, w', p. split; [reflexivity|]. split; [exact H1|].
    split; [exact H2|exact H4].
  - exfalso. vm_compute in H. discriminate H.
Defined.

Section Totals.

Lemma items_sum_perm l l' : Permutation l l' -> items_sum l = items_sum l'.
Proof.
  induction 1; simpl; lia.
Qed.

Lemma items_sum_nonneg l :
  Forall (fun i => 0 <= oi_qty i /\ 0 <= oi_unit_price i) l -> 0 <= items_sum l.
Proof.
  induction 1 as [|i l [Hq Hp] _ IH]; simpl; [lia|]. nia.
Qed.

Lemma float_of_false_cases M E :
  0 <= M ->
  nonnegative (float_of false M E) = true
  \/ float_of false M E = S754_infinity false.
Proof.
  intros HM. unfold float_of. destruct M as [|p|p]; [left; reflexivity| |lia].
  destruct (E <=? PyFloat.emax - PyFloat.prec); [left|right]; reflexivity.
Qed.

(** [float(n)] of an integer that is zero or above is zero or above. *)
Lemma of_int_nonnegative n x :
  0 <= n -> PyFloat.of_int n = Ok x -> nonnegative x = true.
Proof.
  intros Hn. unfold PyFloat.of_int, binary_normalize.
  destruct n as [|m|m]; [| |lia].
  - intros H. inversion H. reflexivity.
  - unfold binary_round.
    destruct (shl_align m 0 _) as [mz ez].
    destruct (binary_round_aux_exact false mz ez) as (M & E & d & -> & HM & _).
    destruct (float_of_false_cases M E HM) as [H| ->]; [|discriminate].
    destruct (float_of false M E); try discriminate; intros H'; inversion H';
      subst; exact H.
Qed.

Lemma round_half_even_nonneg m e : 0 <= PyFloat.round_half_even m e.
Proof.
  unfold PyFloat.round_half_even. destruct e as [|p|p].
  - simpl. lia.
  - assert (0 < 2 ^ Zpos p) by (apply Z.pow_pos_nonneg; lia). nia.
  - change (Z.pow_pos 2 p) with (2 ^ Zpos p).
    assert (0 < 2 ^ Zpos p) by (apply Z.pow_pos_nonneg; lia).
    assert (0 <= Zpos m / 2 ^ Zpos p) by (apply Z.div_pos; lia).
    cbv zeta. destruct (2 * (Zpos m mod 2 ^ Zpos p) ?= 2 ^ Zpos p); [|lia|lia].
    destruct (Z.even _); lia.
Qed.

(** The rounded product of two floats that are zero or above is zero or
    above. *)
Lemma round_mul_nonnegative x y t :
  nonnegative x = true -> nonnegative y = true ->
  PyFloat.round (PyFloat.mul x y) = Ok t -> 0 <= t.
Proof.
  destruct x as [sx|sx| |[|] mx ex]; try discriminate;
    destruct y as [sy|sy| |[|] my ey]; try discriminate; intros _ _;
    unfold PyFloat.mul, SFmul.
  - simpl. intros H; inversion H; lia.
  - simpl. intros H; inversion H; lia.
  - simpl. intros H; inversion H; lia.
  - cbn [xorb].
    destruct (binary_round_aux_exact false (mx * my) (ex + ey))
      as (M & E & d & -> & HM & _).
    unfold float_of. destruct M as [|p|p]; [| |lia].
    + simpl. intros H; inversion H; lia.
    + destruct (E <=? PyFloat.emax - PyFloat.prec); [|discriminate].
      simpl. intros H; inversion H. apply round_half_even_nonneg.
Qed.

End Totals.

(** X14.  The totals do not depend on the order of the items: a
    permutation of the items gives the same result, and the subtotal of
    two lists together is the sum of their subtotals. *)
Theorem compute_totals_ignores_item_order items items' fee tp :
  Permutation items items' ->
  compute_totals items fee tp = compute_totals items' fee tp
  /\ forall more totals,
       compute_totals (items ++ more) fee tp = Ok totals ->
       subtotal totals = items_sum items + items_sum more.
Proof.
  intros Hperm. split.
  - rewrite !compute_totals_eq, (items_sum_perm _ _ Hperm). reflexivity.
  - intros more totals H. rewrite compute_totals_eq, items_sum_app in H.
    destruct (rounded_product _ tp); [|discriminate].
    inversion H. reflexivity.
Qed.

Lemma compute_totals_ignores_item_order_witness :
  compute_totals [costly_item; mkOrderItem 2 1 "extra" "coke" "Coke" None 3 150 "1"]
    200 five_percent
  = compute_totals [mkOrderItem 2 1 "extra" "coke" "Coke" None 3 150 "1"; costly_item]
      200 five_percent.
Proof.
  apply (proj1 (compute_totals_ignores_item_order _ _ 200 five_percent
                  (perm_swap _ _ []))).
Defined.

(** X15.  With no quantity and no unit price below zero and a tax percent
    that is zero or above, the tax [compute_totals] returns is never below
    zero, and the total never below subtotal plus delivery fee. *)
Theorem compute_totals_tax_not_negative items fee tp totals :
  Forall (fun i => 0 <= oi_qty i /\ 0 <= oi_unit_price i) items ->
  nonnegative tp = true ->
  compute_totals items fee tp = Ok totals ->
  0 <= tax totals
  /\ 0 <= subtotal totals
  /\ subtotal totals + delivery_fee totals <= total totals.
Proof.
  intros Hitems Htp H. rewrite compute_totals_eq in H.
  pose proof (items_sum_nonneg _ Hitems) as Hsum.
  unfold rounded_product in H.
  destruct (PyFloat.of_int (items_sum items)) as [x|] eqn:Hx; [|discriminate].
  destruct (PyFloat.round (PyFloat.mul x tp)) as [t|] eqn:Ht; [|discriminate].
  inversion H; subst totals; clear H. cbn [tax subtotal delivery_fee total].
  pose proof (round_mul_nonnegative x tp t (of_int_nonnegative _ _ Hsum Hx) Htp Ht).
  lia.
Qed.

Lemma compute_totals_tax_not_negative_witness :
  0 <= tax (mkOrderTotals 450 200 22 672)
  /\ 450 + 200 <= total (mkOrderTotals 450 200 22 672).
Proof.
  destruct (compute_totals_tax_not_negative
              [mkOrderItem 2 1 "extra" "coke" "Coke" None 3 150 "1"] 200
              five_percent (mkOrderTotals 450 200 22 672)) as (H1 & _ & H3).
  - repeat constructor; simpl; lia.
  - reflexivity.
  - vm_compute. reflexivity.
  - split; [exact H1|exact H3].
Defined.

Section Reachable.

Lemma ascending_NoDup {A} (key : A -> Z) lo hi l :
  ascending key lo hi l = true -> NoDup (map key l).
Proof.
  revert lo. induction l as [|x l IH]; simpl; intros lo H; [constructor|].
  apply andb_true_iff in H as [_ H]. constructor; [|eapply IH; exact H].
  intros Hin. apply in_map_iff in Hin as (y & Hy & Hin).
  apply ascending_bounds in H. rewrite Forall_forall in H.
  apply H in Hin. lia.
Qed.

Lemma has_order_step_inv now later c t oid :
  has_order (step now later c t) oid = true ->
  has_order t oid = true
  \/ (exists cid dt address notes,
        c = CreateOrder cid dt address notes
        /\ fk_customer t cid = true /\ oid = seq_orders t + 1).
Proof.
  destruct c; simpl; auto.
  - destruct (fk_customer t customer_id) eqn:E; auto.
    unfold has_order; simpl. rewrite existsb_app. simpl. rewrite orb_false_r.
    intros H. apply orb_true_iff in H as [H|H]; [left; exact H|].
    right. exists customer_id, delivery_type, address, notes.
    apply Z.eqb_eq in H. auto.
  - destruct (has_order t order_id); auto.
    unfold has_order; simpl. rewrite has_order_touch. auto.
  - destruct (has_order t order_id); auto.
    unfold has_order; simpl. rewrite has_order_restatus. auto.
Qed.

Lemma hd_error_app {A} (l l' : list A) x :
  hd_error l = Some x -> hd_error (l ++ l') = Some x.
Proof. destruct l; [discriminate|]. simpl. auto. Qed.

Lemma logs_match_step now later c t :
  wf t = true -> logs_match t -> logs_match (step now later c t).
Proof.
  intros Hwf Hinv oid Hhas.
  destruct (has_order_step_inv _ _ _ _ _ Hhas)
    as [Hold|(cid & dt & address & notes & -> & Hfk & ->)].
  - destruct (Hinv oid Hold) as [Hlast Hhd].
    rewrite updates_of_step, current_status_step by assumption.
    split.
    + destruct c; simpl; rewrite ?app_nil_r; try exact Hlast.
      destruct (order_id =? oid); [|rewrite app_nil_r; exact Hlast].
      apply last_status_snoc.
    + destruct (hd_error (updates_of oid t)) as [u|] eqn:E; [|discriminate].
      rewrite (hd_error_app _ _ _ E). exact Hhd.
  - simpl. rewrite Hfk.
    destruct (created_order_views t cid dt address notes now Hwf)
      as (Hrow & _ & Hup & _).
    unfold current_status. rewrite Hrow, Hup. split; reflexivity.
Qed.

Lemma logs_match_run_calls cs w :
  wf (tables w) = true -> logs_match (tables w) ->
  logs_match (tables (run_calls cs w)).
Proof.
  revert w. induction cs as [|c cs IH]; simpl; intros w Hwf H; [exact H|].
  apply IH; rewrite run_call_tables.
  - apply wf_step. exact Hwf.
  - apply logs_match_step; assumption.
Qed.

Lemma wf_reached menu ts cs : wf (tables (reached menu ts cs)) = true.
Proof. apply wf_reachable. Qed.

Lemma logs_match_reached menu ts cs : logs_match (tables (reached menu ts cs)).
Proof.
  unfold reached.
  destruct (run_tools_as_calls menu ts new_world) as (cs0 & ->).
  rewrite <- run_calls_app. apply logs_match_run_calls; [reflexivity|].
  intros oid H. discriminate.
Qed.

End Reachable.

(** X16.  In every world the tools and the store functions reach from a
    new database, no two rows of a table share an id, every item and
    every audit row belongs to an order of the store, and every customer
    an order names is a customer of the store. *)
Theorem reached_tables_keep_their_references menu ts cs :
  let t := tables (reached menu ts cs) in
  NoDup (map cu_id (customers t))
  /\ NoDup (map o_id (orders t))
  /\ NoDup (map oi_id (order_items t))
  /\ NoDup (map ou_id (order_updates t))
  /\ (forall i, In i (order_items t) ->
                exists o, In o (orders t) /\ o_id o = oi_order_id i)
  /\ (forall u, In u (order_updates t) ->
                exists o, In o (orders t) /\ o_id o = ou_order_id u)
  /\ (forall o c, In o (orders t) -> o_customer_id o = Some c ->
                  exists cu, In cu (customers t) /\ cu_id cu = c)
  /\ committed (conn (reached menu ts cs)) = t.
Proof.
  intros t. pose proof (wf_reached menu ts cs) as Hwf. fold t in Hwf.
  apply wf_iff in Hwf as (Hc & Ho & Hi & Hu & Hfc & Hfi & Hfu).
  split; [eapply ascending_NoDup; exact Hc|].
  split; [eapply ascending_NoDup; exact Ho|].
  split; [eapply ascending_NoDup; exact Hi|].
  split; [eapply ascending_NoDup; exact Hu|].
  split.
  { intros i Hin. rewrite forallb_forall in Hfi. apply Hfi in Hin.
    apply existsb_exists in Hin as (o & Hin & Heq).
    exists o. split; [exact Hin|lia]. }
  split.
  { intros u Hin. rewrite forallb_forall in Hfu. apply Hfu in Hin.
    apply existsb_exists in Hin as (o & Hin & Heq).
    exists o. split; [exact Hin|lia]. }
  split.
  { intros o c Hin Hcid. rewrite forallb_forall in Hfc. apply Hfc in Hin.
    rewrite Hcid in Hin. simpl in Hin.
    apply existsb_exists in Hin as (cu & Hin & Heq).
    exists cu. split; [exact Hin|lia]. }
  unfold t, reached.
  destruct (run_tools_as_calls menu ts new_world) as (cs0 & ->).
  rewrite <- run_calls_app.
  generalize (cs0 ++ cs). intros l.
  assert (forall w, committed (conn w) = tables w ->
                    committed (conn (run_calls l w)) = tables (run_calls l w)) as H.
  { induction l as [|c l IH]; simpl; intros w Hw; [exact Hw|].
    apply IH. destruct c; unfold run_call.
    - rewrite create_customer_run. reflexivity.
    - destruct (fk_customer (tables w) customer_id) eqn:E.
      + rewrite create_order_present by exact E. reflexivity.
      + rewrite create_order_absent by exact E. exact Hw.
    - destruct (has_order (tables w) order_id) eqn:E.
      + rewrite add_order_item_present by exact E. reflexivity.
      + rewrite add_order_item_absent by exact E. exact Hw.
    - rewrite remove_order_item_run. reflexivity.
    - destruct (has_order (tables w) order_id) eqn:E.
      + rewrite set_order_status_present by exact E. reflexivity.
      + rewrite set_order_status_absent by exact E. exact Hw. }
  apply H. reflexivity.
Qed.

(** X17.  In every world the tools and the store functions reach from a
    new database, [get_order_status] changes nothing and either raises
    [ValueError] "Order not found", when no order of the store has the id,
    or returns what [get_order] returns: an order whose audit log starts
    with the creation row, draft with the message "Order created", and
    whose last audit row carries the status of the order. *)
Theorem reached_status_is_last_audit_row menu ts cs oid :
  let w := reached menu ts cs in
  snd (Agent.get_order_status oid w) = w
  /\ match fst (Agent.get_order_status oid w) with
     | Ok p =>
         fst (get_order oid w) = Ok (Some p)
         /\ o_id (p_order p) = oid
         /\ last_status (p_updates p) = Some (o_status (p_order p))
         /\ exists u us,
              p_updates p = u :: us
              /\ audit_entry u = ("draft", Some "Order created")
     | Raise e =>
         e = ValueError "Order not found"
         /\ forall o, In o (orders (tables w)) -> o_id o <> oid
     end.
Proof.
  intros w. unfold Agent.get_order_status, bind. rewrite get_order_run.
  pose proof (wf_reached menu ts cs) as Hwf. fold w in Hwf.
  destruct (select_order oid (tables w)) as [p|] eqn:Hsel.
  - split; [reflexivity|]. cbn [fst ret].
    split; [reflexivity|].
    pose proof (select_order_has_order _ _ _ Hsel) as Hhas.
    rewrite select_order_wf in Hsel by exact Hwf.
    destruct (order_row oid (tables w)) as [row|] eqn:Hrow; [|discriminate].
    inversion Hsel; subst p; clear Hsel. cbn [p_updates p_order].
    split; [eapply order_row_id; exact Hrow|].
    destruct (logs_match_reached menu ts cs oid Hhas) as [Hlast Hhd].
    fold w in Hlast, Hhd.
    unfold current_status in Hlast. rewrite Hrow in Hlast. split; [exact Hlast|].
    destruct (updates_of oid (tables w)) as [|u us]; [discriminate|].
    exists u, us. split; [reflexivity|]. simpl in Hhd. congruence.
  - split; [reflexivity|]. cbn [fst raise]. split; [reflexivity|].
    apply select_order_none in Hsel.
    intros o Hin Hid. unfold has_order in Hsel.
    assert (existsb (fun o0 => o_id o0 =? oid) (orders (tables w)) = true) as H.
    { apply existsb_exists. exists o. split; [exact Hin|]. apply Z.eqb_eq. exact Hid. }
    congruence.
Qed.

Section Money.

Import App.

Lemma uint_digits d :
  Forall (fun c => is_digit c = true)
    (list_ascii_of_string (DecimalString.NilEmpty.string_of_uint d)).
Proof.
  induction d; simpl; constructor; try reflexivity; assumption.
Qed.

Lemma str_of_int_abs_digits n :
  Forall (fun c => is_digit c = true) (list_ascii_of_string (str_of_int (Z.abs n))).
Proof.
  unfold str_of_int.
  destruct n as [|p|p]; simpl.
  - repeat constructor.
  - destruct (Pos.to_uint p) eqn:E; try apply uint_digits.
    repeat constructor.
  - destruct (Pos.to_uint p) eqn:E; try apply uint_digits.
    repeat constructor.
Qed.

Lemma str_of_int_sign n :
  str_of_int n = String.append (if n <? 0 then "-" else "") (str_of_int (Z.abs n)).
Proof.
  unfold str_of_int. destruct n as [|p|p]; reflexivity.
Qed.

Lemma str_of_int_nonempty n : str_of_int (Z.abs n) <> "".
Proof.
  unfold str_of_int. destruct n as [|p|p]; simpl; try discriminate;
    destruct (Pos.to_uint p); discriminate.
Qed.

(** Induction on a list, three elements at a time. *)
Lemma by_threes {A} (P : list A -> Prop) :
  P [] -> (forall a, P [a]) -> (forall a b, P [a; b]) ->
  (forall a b c, P [a; b; c]) ->
  (forall a b c d rest, P (d :: rest) -> P (a :: b :: c :: d :: rest)) ->
  forall l, P l.
Proof.
  intros H0 H1 H2 H3 Hs.
  assert (forall n l, (List.length l <= n)%nat -> P l) as H.
  { induction n as [|n IH]; intros l Hl.
    - destruct l; [exact H0|simpl in Hl; lia].
    - destruct l as [|a [|b [|c [|d rest]]]]; auto.
      apply Hs. apply IH. simpl in *. lia. }
  intros l. apply (H (List.length l)). lia.
Qed.

Lemma group_thousands_step a b c d rest :
  group_thousands (a :: b :: c :: d :: rest)
  = a :: b :: c :: ","%char :: group_thousands (d :: rest).
Proof. reflexivity. Qed.

Lemma without_commas_app s s' :
  without_commas (s ++ s') = (without_commas s ++ without_commas s')%string.
Proof.
  induction s as [|c s IH]; simpl; [reflexivity|].
  destruct (Ascii.eqb c ","); simpl; rewrite IH; reflexivity.
Qed.

Lemma without_commas_list l :
  without_commas (string_of_list_ascii l)
  = string_of_list_ascii (filter (fun c => negb (Ascii.eqb c ",")) l).
Proof.
  induction l as [|c l IH]; simpl; [reflexivity|].
  destruct (Ascii.eqb c ","); simpl; rewrite IH; reflexivity.
Qed.

Lemma digit_not_comma c : is_digit c = true -> Ascii.eqb c "," = false.
Proof.
  intros H. destruct (Ascii.eqb c ",") eqn:E; [|reflexivity].
  apply Ascii.eqb_eq in E. subst c. discriminate.
Qed.

Lemma filter_rev {A} (f : A -> bool) l : filter f (rev l) = rev (filter f l).
Proof.
  induction l as [|x l IH]; simpl; [reflexivity|].
  rewrite filter_app, IH. simpl. destruct (f x); simpl;
    [reflexivity|apply app_nil_r].
Qed.

Lemma group_thousands_filter ds :
  Forall (fun c => is_digit c = true) ds ->
  filter (fun c => negb (Ascii.eqb c ",")) (group_thousands ds) = ds.
Proof.
  assert (Hall : forall l, Forall (fun c => is_digit c = true) l ->
                   filter (fun c => negb (Ascii.eqb c ",")) l = l).
  { induction 1 as [|c l Hc _ IH]; simpl; [reflexivity|].
    rewrite (digit_not_comma _ Hc). simpl. rewrite IH. reflexivity. }
  induction ds as [| | | |a b c d rest IH] using by_threes; intros H;
    try (apply Hall; exact H).
  rewrite group_thousands_step.
  inversion H as [|? ? Ha H']; subst. inversion H' as [|? ? Hb H'']; subst.
  inversion H'' as [|? ? Hc H''']; subst.
  cbn [filter]. rewrite (digit_not_comma _ Ha), (digit_not_comma _ Hb),
    (digit_not_comma _ Hc). cbn [negb].
  change (Ascii.eqb "," ",") with true. cbn [negb].
  rewrite IH by exact H'''. reflexivity.
Qed.

(** Counting from the right, every fourth character is a comma and no
    other is. *)
Lemma group_thousands_commas ds :
  Forall (fun c => is_digit c = true) ds ->
  forall i c, nth_error (group_thousands ds) i = Some c ->
              (c = ","%char <-> Nat.modulo i 4 = 3%nat).
Proof.
  assert (Hshort : forall l, (List.length l <= 3)%nat ->
            Forall (fun c => is_digit c = true) l ->
            forall i c, nth_error l i = Some c ->
                        (c = ","%char <-> Nat.modulo i 4 = 3%nat)).
  { intros l Hlen Hall i c Hnth.
    assert (Hi : (i < 3)%nat).
    { assert (i < List.length l)%nat by (apply nth_error_Some; congruence). lia. }
    assert (Hc : is_digit c = true).
    { rewrite Forall_forall in Hall. apply Hall. eapply nth_error_In; eauto. }
    split.
    - intros ->. discriminate.
    - intros Hmod. rewrite Nat.mod_small in Hmod by lia. lia. }
  induction ds as [| | | |a b c d rest IH] using by_threes; intros H;
    try (apply Hshort; [simpl; lia|exact H]).
  rewrite group_thousands_step.
  inversion H as [|? ? Ha H']; subst. inversion H' as [|? ? Hb H'']; subst.
  inversion H'' as [|? ? Hc H''']; subst.
  intros i x Hnth.
  destruct i as [|[|[|[|i]]]]; simpl in Hnth.
  - inversion Hnth; subst. split; [intros ->; discriminate|discriminate].
  - inversion Hnth; subst. split; [intros ->; discriminate|discriminate].
  - inversion Hnth; subst. split; [intros ->; discriminate|discriminate].
  - inversion Hnth; subst. split; reflexivity.
  - rewrite (IH H''' i x Hnth).
    replace (S (S (S (S i)))) with (i + 1 * 4)%nat by lia.
    rewrite Nat.Div0.mod_add. reflexivity.
Qed.

(** The leftmost character is a digit, not a comma. *)
Lemma group_thousands_last ds :
  last (group_thousands ds) "0"%char = last ds "0"%char.
Proof.
  induction ds as [| | | |a b c d rest IH] using by_threes; try reflexivity.
  rewrite group_thousands_step.
  change (last (a :: b :: c :: ","%char :: group_thousands (d :: rest)) "0"%char)
    with (last (","%char :: group_thousands (d :: rest)) "0"%char).
  change (last (a :: b :: c :: d :: rest) "0"%char)
    with (last (d :: rest) "0"%char).
  rewrite <- IH.
  destruct (group_thousands (d :: rest)) eqn:E; [|reflexivity].
  simpl in E. destruct rest as [|? [|? [|? ?]]]; discriminate.
Qed.

Lemma to_int_not_nil n : Z.to_int n <> Decimal.Pos Decimal.Nil /\ Z.to_int n <> Decimal.Neg Decimal.Nil.
Proof.
  destruct n as [|p|p]; simpl; split; try discriminate;
    intros H; inversion H as [H']; apply (DecimalPos.Unsigned.to_uint_nonnil p); exact H'.
Qed.

Lemma without_commas_format n : without_commas (format_comma n) = str_of_int n.
Proof.
  unfold format_comma. cbv zeta.
  rewrite without_commas_app, without_commas_list, filter_rev.
  rewrite group_thousands_filter.
  2:{ apply Forall_rev. apply str_of_int_abs_digits. }
  rewrite rev_involutive, string_of_list_ascii_of_string.
  rewrite (str_of_int_sign n). destruct (n <? 0); reflexivity.
Qed.

Lemma amount_of_money n : amount_of (App.money n) = Some n.
Proof.
  unfold App.money. cbn [amount_of append].
  rewrite without_commas_format. unfold str_of_int.
  destruct (to_int_not_nil n) as [H1 H2].
  rewrite DecimalString.NilZero.isi by assumption. simpl. rewrite DecimalZ.of_to. reflexivity.
Qed.

Lemma group_thousands_chars ds c :
  In c (group_thousands ds) -> c = ","%char \/ In c ds.
Proof.
  induction ds as [| | | |a b c' d rest IH] using by_threes; auto.
  rewrite group_thousands_step. intros [<-|[<-|[<-|[<-|H]]]].
  - right. simpl. auto.
  - right. simpl. auto.
  - right. simpl. auto.
  - left. reflexivity.
  - destruct (IH H) as [->|H']; [left; reflexivity|].
    right. simpl. simpl in H'. tauto.
Qed.

(** The digits of an amount with their separators, as [money] writes
    them after the sign. *)
Lemma format_comma_body n :
  App.format_comma n
  = String.append (if n <? 0 then "-" else "")
      (string_of_list_ascii
         (rev (group_thousands
                 (rev (list_ascii_of_string (str_of_int (Z.abs n))))))).
Proof. reflexivity. Qed.

Lemma grouped_digits_head ds :
  ds <> [] -> Forall (fun c => is_digit c = true) ds ->
  exists c r, rev (group_thousands (rev ds)) = c :: r /\ is_digit c = true.
Proof.
  intros Hne Hall. destruct ds as [|d0 ds']; [contradiction|].
  set (g := group_thousands (rev (d0 :: ds'))).
  assert (Hlast : last g "0"%char = d0).
  { unfold g. rewrite group_thousands_last. simpl. apply last_last. }
  assert (Hg : g <> []).
  { intros E. pose proof (group_thousands_filter (rev (d0 :: ds'))
                            (Forall_rev Hall)) as F.
    fold g in F. rewrite E in F. simpl in F.
    destruct (rev ds'); discriminate. }
  rewrite (app_removelast_last "0"%char Hg), Hlast, rev_app_distr. simpl.
  exists d0, (rev (removelast g)). split; [reflexivity|].
  inversion Hall; assumption.
Qed.

End Money.

(** X18.  [money] writes an amount so that it reads back: without the
    commas, the text after "PKR " is the decimal text of the amount, so two
    amounts with the same text are the same amount.  The text is "PKR ",
    a minus sign below zero, and the digits with their separators: counted
    from the right, every fourth character is a comma and every other
    character a digit, and the leftmost character is a digit. *)
Theorem money_reads_back n :
  amount_of (App.money n) = Some n
  /\ (forall m, App.money m = App.money n -> m = n)
  /\ exists body,
       App.money n
       = String.append "PKR " (String.append (if n <? 0 then "-" else "") body)
       /\ without_commas body = App.str_of_int (Z.abs n)
       /\ (forall i c,
             nth_error (rev (list_ascii_of_string body)) i = Some c ->
             if Nat.eqb (Nat.modulo i 4) 3 then c = ","%char
             else is_digit c = true)
       /\ exists c r, body = String c r /\ is_digit c = true.
Proof.
  split; [apply amount_of_money|]. split.
  { intros m H. apply (f_equal amount_of) in H.
    rewrite !amount_of_money in H. congruence. }
  pose proof (str_of_int_abs_digits n) as Hdig.
  set (ds := list_ascii_of_string (App.str_of_int (Z.abs n))) in *.
  exists (string_of_list_ascii (rev (App.group_thousands (rev ds)))).
  split; [reflexivity|]. split.
  { rewrite without_commas_list, filter_rev, group_thousands_filter
      by (apply Forall_rev; exact Hdig).
    rewrite rev_involutive. unfold ds.
    apply string_of_list_ascii_of_string. }
  split.
  { intros i c. rewrite list_ascii_of_string_of_list_ascii, rev_involutive.
    intros Hnth.
    pose proof (group_thousands_commas _ (Forall_rev Hdig) i c Hnth) as Hc.
    destruct (Nat.eqb (Nat.modulo i 4) 3) eqn:E.
    - apply Nat.eqb_eq in E. apply Hc. exact E.
    - apply Nat.eqb_neq in E.
      destruct (group_thousands_chars _ _ (nth_error_In _ _ Hnth)) as [->|Hin].
      + exfalso. apply E. apply Hc. reflexivity.
      + apply in_rev in Hin. rewrite Forall_forall in Hdig. apply Hdig. exact Hin. }
  destruct (grouped_digits_head ds) as (c & r & Hrev & Hc).
  { unfold ds. intros E. apply (str_of_int_nonempty n).
    rewrite <- (string_of_list_ascii_of_string (App.str_of_int (Z.abs n))), E.
    reflexivity. }
  { exact Hdig. }
  exists c, (string_of_list_ascii r). rewrite Hrev. split; [reflexivity|exact Hc].
Qed.

Section Growth.

Lemma extends_refl {A} (l : list A) : extends l l.
Proof. exists []. symmetry. apply app_nil_r. Qed.

Lemma extends_snoc {A} (l : list A) x : extends l (l ++ [x]).
Proof. exists [x]. reflexivity. Qed.

Lemma extends_trans {A} (l1 l2 l3 : list A) :
  extends l1 l2 -> extends l2 l3 -> extends l1 l3.
Proof.
  intros [m ->] [m' ->]. exists (m ++ m'). symmetry. apply app_assoc.
Qed.

Lemma order_fixed_touch updated id os :
  map order_fixed (touch updated id os) = map order_fixed os.
Proof.
  unfold touch. rewrite map_map. apply map_ext.
  intros o. destruct (o_id o =? id); reflexivity.
Qed.

Lemma order_fixed_restatus status now id os :
  map order_fixed (restatus status now id os) = map order_fixed os.
Proof.
  unfold restatus. rewrite map_map. apply map_ext.
  intros o. destruct (o_id o =? id); reflexivity.
Qed.

Lemma grows_refl t : grows t t.
Proof.
  unfold grows. repeat split; try apply extends_refl; try lia. auto.
Qed.

Lemma grows_trans t1 t2 t3 : grows t1 t2 -> grows t2 t3 -> grows t1 t3.
Proof.
  intros (A1 & A2 & A3 & A4 & A5 & A6 & A7 & A8)
         (B1 & B2 & B3 & B4 & B5 & B6 & B7 & B8).
  unfold grows.
  split; [eapply extends_trans; eassumption|].
  split; [eapply extends_trans; eassumption|].
  split; [eapply extends_trans; eassumption|].
  split; [|lia].
  intros i Hi. destruct (B4 i Hi) as [H|H]; [|right; lia].
  apply A4. exact H.
Qed.

Lemma grows_step now later c t : grows t (step now later c t).
Proof.
  destruct c; simpl.
  - unfold grows; simpl. repeat split; try apply extends_refl; try lia; auto.
    apply extends_snoc.
  - destruct (fk_customer t customer_id); [|apply grows_refl].
    unfold grows; simpl. repeat split; try apply extends_refl; try lia; auto.
    + rewrite map_app. apply extends_snoc.
    + apply extends_snoc.
  - destruct (has_order t order_id); [|apply grows_refl].
    unfold grows; simpl. rewrite order_fixed_touch.
    repeat split; try apply extends_refl; try lia.
    intros i Hi. apply in_app_or in Hi as [Hi|[<-|[]]]; [left; exact Hi|].
    right. simpl. lia.
  - unfold grows; simpl. repeat split; try apply extends_refl; try lia.
    intros i Hi. apply filter_In in Hi as [Hi _]. left. exact Hi.
  - destruct (has_order t order_id); [|apply grows_refl].
    unfold grows; simpl. rewrite order_fixed_restatus.
    repeat split; try apply extends_refl; try lia; auto.
    apply extends_snoc.
Qed.

Lemma grows_run_calls cs w : grows (tables w) (tables (run_calls cs w)).
Proof.
  revert w. induction cs as [|c cs IH]; simpl; intros w; [apply grows_refl|].
  eapply grows_trans; [|apply IH].
  rewrite run_call_tables. apply grows_step.
Qed.

End Growth.

(** X19.  No function of the store and no tool deletes or rewrites a
    customer, an order or an audit row: after any tools and store calls the
    customers and the audit rows are those of before with rows added at the
    end, the orders are those of before, each with its id, customer,
    delivery type, address, notes and creation time, with orders added at
    the end; every item is an item of before, unchanged, or has an id above
    the item counter of before; and no counter has gone back. *)
Theorem store_never_deletes_orders_or_audit_rows menu ts cs w :
  let t := tables w in
  let t' := tables (run_calls cs (run_tools menu ts w)) in
  (exists more, customers t' = customers t ++ more)
  /\ (exists more,
        map order_fixed (orders t') = map order_fixed (orders t) ++ more)
  /\ (exists more, order_updates t' = order_updates t ++ more)
  /\ (forall i, In i (order_items t') ->
                In i (order_items t) \/ seq_order_items t < oi_id i)
  /\ seq_customers t <= seq_customers t'
  /\ seq_orders t <= seq_orders t'
  /\ seq_order_items t <= seq_order_items t'
  /\ seq_order_updates t <= seq_order_updates t'.
Proof.
  cbv zeta. destruct (run_tools_as_calls menu ts w) as (cs0 & ->).
  rewrite <- run_calls_app. apply grows_run_calls.
Qed.

(** * Parameters that cannot be bound *)

Section Binding.

Lemma encode_from_of_string k s :
  PyText.encode_from k (PyText.of_string s) = Ok s.
Proof.
  revert k. induction s as [|c s IH]; intros k; [reflexivity|].
  unfold PyText.of_string in *. simpl. rewrite IH. reflexivity.
Qed.

(** A text of the model of [PyStr] is bound as it is. *)
Lemma encode_of_string s : PyText.encode (PyText.of_string s) = Ok s.
Proof. apply encode_from_of_string. Qed.

Lemma encode_opt_of_string m :
  PyText.encode_opt (option_map PyText.of_string m) = Ok m.
Proof.
  destruct m as [s|]; [|reflexivity]. simpl. rewrite encode_of_string.
  reflexivity.
Qed.

Lemma encode_from_ok k t s :
  PyText.encode_from k t = Ok s -> t = PyText.of_string s.
Proof.
  revert k s. induction t as [|[c|o] t IH]; intros k s; simpl.
  - intros H. inversion H. reflexivity.
  - destruct (PyText.encode_from (S k) t) as [s'|e] eqn:E; [|discriminate].
    intros H. inversion H; subst. rewrite (IH _ _ E). reflexivity.
  - discriminate.
Qed.

(** Only the texts of the model of [PyStr] are bound. *)
Lemma encode_ok t s : PyText.encode t = Ok s -> t = PyText.of_string s.
Proof. apply encode_from_ok. Qed.

Lemma encode_opt_ok t m :
  PyText.encode_opt t = Ok m -> t = option_map PyText.of_string m.
Proof.
  destruct t as [t|]; simpl.
  - destruct (PyText.encode t) as [s|e] eqn:E; [|discriminate].
    intros H. inversion H; subst. rewrite (encode_ok _ _ E). reflexivity.
  - intros H. inversion H. reflexivity.
Qed.

Lemma encode_from_raises k t e :
  PyText.encode_from k t = Raise e -> exists n, e = UnicodeEncodeError n.
Proof.
  revert k. induction t as [|[c|o] t IH]; intros k; simpl.
  - discriminate.
  - destruct (PyText.encode_from (S k) t) as [s'|e'] eqn:E; [discriminate|].
    intros H. inversion H; subst. eapply IH; exact E.
  - intros H. inversion H. eauto.
Qed.

(** On texts of the model of [PyStr], [set_order_status_text] is
    [set_order_status]. *)
Lemma set_order_status_text_plain oid status message w :
  set_order_status_text oid (PyText.of_string status)
    (option_map PyText.of_string message) w
  = set_order_status oid status message w.
Proof.
  unfold set_order_status_text, set_order_status, execute_with.
  rewrite encode_of_string, encode_opt_of_string. reflexivity.
Qed.

(** A status that cannot be bound: the UPDATE raises and no table
    changes. *)
Lemma set_order_status_text_status_unbound oid status message w e :
  PyText.encode status = Raise e ->
  set_order_status_text oid status message w = (Raise e, failed_world 1 w).
Proof.
  intros H. unfold set_order_status_text, execute_with, bind, utc_now_iso,
    execute. rewrite H. reflexivity.
Qed.

(** A message that cannot be bound: the INSERT raises after the UPDATE. *)
Lemma set_order_status_text_message_unbound oid status message w s e :
  PyText.encode status = Ok s ->
  PyText.encode_opt message = Raise e ->
  set_order_status_text oid status message w
  = (Raise e, half_written_world oid s w).
Proof.
  intros Hs Hm. unfold set_order_status_text, execute_with, bind, utc_now_iso,
    execute, update_order_status. rewrite Hs, Hm. reflexivity.
Qed.

End Binding.

(** C5.  [set_order_status] has no rollback.  With a status and a message
    that [sqlite3] can bind it writes both rows and commits them, or, on an
    id the store has no order for, raises the foreign-key error with the
    tables, current and committed, as before.  With a message it cannot
    bind, the INSERT raises [UnicodeEncodeError] after the UPDATE: the order
    row carries the new status and time in the open transaction, no audit
    row is appended and nothing is committed.  With a status it cannot
    bind, the UPDATE raises and no table changes. *)
Theorem set_order_status_writes_without_rollback w oid status message :
  let r := fst (set_order_status_text oid status message w) in
  let w' := snd (set_order_status_text oid status message w) in
  match PyText.encode status with
  | Ok s =>
      match PyText.encode_opt message with
      | Ok m =>
          (r = Ok tt
           /\ has_order (tables w) oid = true
           /\ orders (tables w') = restatus s (now_of w) oid (orders (tables w))
           /\ option_map (fun o => (o_status o, o_updated_at o))
                (order_row oid (tables w'))
              = Some (s, now_of w)
           /\ order_updates (tables w')
              = order_updates (tables w)
                ++ [mkOrderUpdate (seq_order_updates (tables w) + 1) oid s m
                      (now_of w)]
           /\ customers (tables w') = customers (tables w)
           /\ order_items (tables w') = order_items (tables w)
           /\ committed (conn w') = tables w')
          \/ (r = Raise fk_failed
              /\ has_order (tables w) oid = false
              /\ tables w' = tables w
              /\ committed (conn w') = committed (conn w))
      | Raise e =>
          r = Raise e
          /\ (exists n, e = UnicodeEncodeError n)
          /\ orders (tables w') = restatus s (now_of w) oid (orders (tables w))
          /\ (has_order (tables w) oid = true ->
              option_map (fun o => (o_status o, o_updated_at o))
                (order_row oid (tables w'))
              = Some (s, now_of w))
          /\ (has_order (tables w) oid = false -> tables w' = tables w)
          /\ order_updates (tables w') = order_updates (tables w)
          /\ customers (tables w') = customers (tables w)
          /\ order_items (tables w') = order_items (tables w)
          /\ committed (conn w') = committed (conn w)
          /\ in_transaction (conn w') = true
      end
  | Raise e =>
      r = Raise e
      /\ (exists n, e = UnicodeEncodeError n)
      /\ tables w' = tables w
      /\ committed (conn w') = committed (conn w)
  end.
Proof.
  intros r w'. subst r w'.
  destruct (PyText.encode status) as [s|e] eqn:Hs.
  - destruct (PyText.encode_opt message) as [m|e] eqn:Hm.
    + rewrite (encode_ok _ _ Hs), (encode_opt_ok _ _ Hm),
        set_order_status_text_plain.
      exact (set_order_status_bound w oid s m).
    + rewrite (set_order_status_text_message_unbound _ _ _ _ _ _ Hs Hm).
      cbn [fst snd]. split; [reflexivity|]. split.
      { destruct message as [t|]; [|discriminate]. simpl in Hm.
        destruct (PyText.encode t) as [s'|e'] eqn:E; [discriminate|].
        inversion Hm; subst. eapply encode_from_raises. exact E. }
      split; [reflexivity|]. split.
      { intros Hhas. rewrite has_order_row in Hhas.
        destruct (order_row oid (tables w)) as [row|] eqn:Hrow; [|discriminate].
        pose proof (order_row_id _ _ _ Hrow) as Hid.
        change (order_row oid (tables (half_written_world oid s w)))
          with (order_row oid
                  (mkTables (customers (tables w))
                     (restatus s (now_of w) oid (orders (tables w)))
                     (order_items (tables w)) (order_updates (tables w))
                     (seq_customers (tables w)) (seq_orders (tables w))
                     (seq_order_items (tables w))
                     (seq_order_updates (tables w)))).
        rewrite order_row_restatus, Hrow. simpl. rewrite Hid, Z.eqb_refl.
        reflexivity. }
      split.
      { intros Hhas. unfold half_written_world, tables at 1. cbn [conn current].
        unfold has_order in Hhas. rewrite (restatus_absent _ _ _ _ Hhas).
        unfold with_orders. destruct (tables w); reflexivity. }
      repeat split.
  - rewrite (set_order_status_text_status_unbound _ _ _ _ _ Hs). cbn [fst snd].
    split; [reflexivity|].
    split; [eapply encode_from_raises; exact Hs|]. split; reflexivity.
Qed.

(** C5, as stated, fails: on the order of [stocked_world], a draft, with
    the status "placed" and a message of one lone surrogate,
    [set_order_status] raises; the order is then placed in the open
    transaction with no audit row for it, and the next commit, here that
    of [create_customer], makes that durable. *)
Lemma set_order_status_status_without_audit_row :
  fst (set_order_status_text 1 (PyText.of_string "placed") (Some lone_surrogate)
         stocked_world)
  = Raise (UnicodeEncodeError 0)
  /\ current_status 1 (tables stocked_world) = Some "draft"
  /\ current_status 1
       (tables (snd (set_order_status_text 1 (PyText.of_string "placed")
                       (Some lone_surrogate) stocked_world)))
     = Some "placed"
  /\ order_updates
       (tables (snd (set_order_status_text 1 (PyText.of_string "placed")
                       (Some lone_surrogate) stocked_world)))
     = order_updates (tables stocked_world)
  /\ map audit_entry (updates_of 1 (tables stocked_world))
     = [("draft", Some "Order created")]
  /\ current_status 1
       (committed
          (conn (snd (create_customer "Ann" None
                        (snd (set_order_status_text 1 (PyText.of_string "placed")
                                (Some lone_surrogate) stocked_world))))))
     = Some "placed"
  /\ map audit_entry
       (updates_of 1
          (committed
             (conn (snd (create_customer "Ann" None
                           (snd (set_order_status_text 1
                                   (PyText.of_string "placed")
                                   (Some lone_surrogate) stocked_world)))))))
     = [("draft", Some "Order created")].
Proof.
  repeat split; vm_compute; reflexivity.
Qed.
